(** * A shallow embedding of the whuoslab xv6-riscv kernel

    The development follows the kernel sources file by file:
    - [kernel/errno.h]          error numbers,
    - [kernel/fs.h]             on-disk layout, [struct dinode], [struct dirent],
    - [kernel/proc.h], [kernel/proc.c], [kernel/scheduler_ext.c]
                                process table, selectors, fork, wakeup,
    - [kernel/fs.c]             block allocator, inodes, block mapping,
                                directories and path resolution,
    - [kernel/sysfile.c], [kernel/sysproc.c], [kernel/syscall.c]
                                system calls and the dispatcher.

    C integers are [Z] with their wrap-around written out, arrays are lists
    read with [!!] and updated with [<[ i := x ]>], the block device is a
    finite map from (device, block number) to 4096-byte blocks, and kernel
    code that mutates global state is written in a state monad whose outcomes
    also record [panic], undefined behaviour and blocking. *)

From Stdlib Require Import ZArith List Lia Bool.
From Stdlib Require String.
Import String.StringSyntax.
From stdpp Require Import base option list gmap.

Local Open Scope string_scope.
Local Open Scope Z_scope.

(** ** Outcomes and the kernel monad *)

(** How a kernel routine can end: it returns a value in a new state, it calls
    [panic], it runs into undefined behaviour of C (null or wild pointer,
    out-of-bounds store), or it would sleep on a lock that is already held
    (with a single thread of control nobody releases it). *)
Inductive outcome (S A : Type) : Type :=
| Done (a : A) (s : S)
| Panic (msg : String.string)
| Fault
| Blocked.

Arguments Done {S A} a s.
Arguments Panic {S A} msg.
Arguments Fault {S A}.
Arguments Blocked {S A}.

Definition M (S A : Type) : Type := S -> outcome S A.

Definition ret {S A} (a : A) : M S A := fun s => Done a s.

Definition bind {S A B} (m : M S A) (k : A -> M S B) : M S B :=
  fun s => match m s with
           | Done a s' => k a s'
           | Panic msg => Panic msg
           | Fault => Fault
           | Blocked => Blocked
           end.

Definition get {S} : M S S := fun s => Done s s.
Definition put {S} (s : S) : M S unit := fun _ => Done tt s.
Definition modify {S} (f : S -> S) : M S unit := fun s => Done tt (f s).
Definition panic {S A} (msg : String.string) : M S A := fun _ => Panic msg.
Definition fault {S A} : M S A := fun _ => Fault.
Definition blocked {S A} : M S A := fun _ => Blocked.

Declare Scope kernel_scope.
Delimit Scope kernel_scope with K.
Notation "x <- m ;; k" := (bind m (fun x => k))
  (at level 100, m at next level, right associativity) : kernel_scope.
Notation "m ;;; k" := (bind m (fun _ => k))
  (at level 100, right associativity) : kernel_scope.
Local Open Scope kernel_scope.

(** ** Machine integers *)

Definition wrap (w : Z) (x : Z) : Z := x mod 2 ^ w.

(** Two's complement reading of the low [w] bits. *)
Definition swrap (w : Z) (x : Z) : Z :=
  (x + 2 ^ (w - 1)) mod 2 ^ w - 2 ^ (w - 1).

Definition to_uint (x : Z) : Z := wrap 32 x.
Definition to_int (x : Z) : Z := swrap 32 x.
Definition to_short (x : Z) : Z := swrap 16 x.
Definition to_uint64 (x : Z) : Z := wrap 64 x.
Definition to_long (x : Z) : Z := swrap 64 x.

(** ** kernel/errno.h *)

Module Errno.
Definition EOK : Z := 0.
Definition ENOENT : Z := 2.
Definition ESRCH : Z := 3.
Definition EIO : Z := 5.
Definition ENXIO : Z := 6.
Definition EBADF : Z := 9.
Definition EEXIST : Z := 17.
Definition EISDIR : Z := 21.
Definition EINVAL : Z := 22.
Definition EMFILE : Z := 24.
Definition ENOSPC : Z := 28.
Definition ENAMETOOLONG : Z := 36.
Definition ENOSYS : Z := 38.
Definition ELOOP : Z := 40.
Definition EFS_INODE_FULL : Z := 128.
End Errno.

(** ** Constants of headers that are not among the sources

    [param.h], [stat.h] and [fcntl.h] are included by the kernel files but
    are not part of the tree at hand, so their constants are parameters of
    the model.  [xv6_params] further down gives the values of upstream
    xv6-riscv; it is used for concrete runs only. *)
Class KernelParams : Type := {
  NPROC : Z;      (* size of the process table *)
  NOFILE : Z;     (* open files per process *)
  NINODE : Z;     (* size of the in-memory inode table *)
  NDEV : Z;       (* number of device majors *)
  ROOTDEV : Z;    (* device of the root file system *)
  MAXPATH : Z;    (* longest path name, with its terminator *)
  T_DIR : Z;
  T_FILE : Z;
  T_DEVICE : Z;
  T_SYMLINK : Z;
  O_RDONLY : Z;
  O_WRONLY : Z;
  O_RDWR : Z;
  O_CREATE : Z;
  O_TRUNC : Z;
}.

Definition xv6_params : KernelParams := {|
  NPROC := 64; NOFILE := 16; NINODE := 50; NDEV := 10; ROOTDEV := 1;
  MAXPATH := 128;
  T_DIR := 1; T_FILE := 2; T_DEVICE := 3; T_SYMLINK := 4;
  O_RDONLY := 0; O_WRONLY := 1; O_RDWR := 2; O_CREATE := 512; O_TRUNC := 1024;
|}.

(** ** kernel/proc.h, kernel/proc.c, kernel/scheduler_ext.c *)

Module Proc.

(** [enum procstate] *)
Inductive procstate : Type :=
| UNUSED | USED | SLEEPING | RUNNABLE | RUNNING | ZOMBIE.

Definition procstate_eqb (a b : procstate) : bool :=
  match a, b with
  | UNUSED, UNUSED | USED, USED | SLEEPING, SLEEPING
  | RUNNABLE, RUNNABLE | RUNNING, RUNNING | ZOMBIE, ZOMBIE => true
  | _, _ => false
  end.

(** The registers of [struct trapframe] that the kernel code at hand reads
    or writes by name; the structure is copied as a whole by [kfork]. *)
Record trapframe : Type := {
  epc : Z; sp : Z;
  a0 : Z; a1 : Z; a2 : Z; a3 : Z; a4 : Z; a5 : Z; a7 : Z;
}.

Definition set_a0 (v : Z) (tf : trapframe) : trapframe :=
  {| epc := epc tf; sp := sp tf; a0 := v; a1 := a1 tf; a2 := a2 tf;
     a3 := a3 tf; a4 := a4 tf; a5 := a5 tf; a7 := a7 tf |}.

(** [struct proc].  Pointers to other slots of the process table are slot
    indices; [chan] is the address slept on, 0 for none; [trapframe] is
    [None] for a null pointer and [pagetable] is 0 for a null pointer. *)
Record proc : Type := {
  state : procstate;
  chan : Z;
  killed : Z;
  xstate : Z;
  pid : Z;
  priority : Z;
  errno : Z;
  mlfq_level : Z;
  time_used : Z;
  time_quantum : Z;
  parent : option nat;
  sz : Z;
  pagetable : Z;
  tf : option trapframe;
  ofile : list (option Z);
  cwd : option nat;
  name : list Z;
}.

Definition set_state (v : procstate) (p : proc) : proc :=
  {| state := v; chan := chan p; killed := killed p; xstate := xstate p;
     pid := pid p; priority := priority p; errno := errno p;
     mlfq_level := mlfq_level p; time_used := time_used p;
     time_quantum := time_quantum p; parent := parent p; sz := sz p;
     pagetable := pagetable p; tf := tf p; ofile := ofile p; cwd := cwd p;
     name := name p |}.

Definition set_errno (v : Z) (p : proc) : proc :=
  {| state := state p; chan := chan p; killed := killed p; xstate := xstate p;
     pid := pid p; priority := priority p; errno := v;
     mlfq_level := mlfq_level p; time_used := time_used p;
     time_quantum := time_quantum p; parent := parent p; sz := sz p;
     pagetable := pagetable p; tf := tf p; ofile := ofile p; cwd := cwd p;
     name := name p |}.

Definition set_tf (v : option trapframe) (p : proc) : proc :=
  {| state := state p; chan := chan p; killed := killed p; xstate := xstate p;
     pid := pid p; priority := priority p; errno := errno p;
     mlfq_level := mlfq_level p; time_used := time_used p;
     time_quantum := time_quantum p; parent := parent p; sz := sz p;
     pagetable := pagetable p; tf := v; ofile := ofile p; cwd := cwd p;
     name := name p |}.

Definition set_ofile (v : list (option Z)) (p : proc) : proc :=
  {| state := state p; chan := chan p; killed := killed p; xstate := xstate p;
     pid := pid p; priority := priority p; errno := errno p;
     mlfq_level := mlfq_level p; time_used := time_used p;
     time_quantum := time_quantum p; parent := parent p; sz := sz p;
     pagetable := pagetable p; tf := tf p; ofile := v; cwd := cwd p;
     name := name p |}.

Definition set_parent (v : option nat) (p : proc) : proc :=
  {| state := state p; chan := chan p; killed := killed p; xstate := xstate p;
     pid := pid p; priority := priority p; errno := errno p;
     mlfq_level := mlfq_level p; time_used := time_used p;
     time_quantum := time_quantum p; parent := v; sz := sz p;
     pagetable := pagetable p; tf := tf p; ofile := ofile p; cwd := cwd p;
     name := name p |}.

Definition set_sz (v : Z) (p : proc) : proc :=
  {| state := state p; chan := chan p; killed := killed p; xstate := xstate p;
     pid := pid p; priority := priority p; errno := errno p;
     mlfq_level := mlfq_level p; time_used := time_used p;
     time_quantum := time_quantum p; parent := parent p; sz := v;
     pagetable := pagetable p; tf := tf p; ofile := ofile p; cwd := cwd p;
     name := name p |}.

Definition set_cwd (v : option nat) (p : proc) : proc :=
  {| state := state p; chan := chan p; killed := killed p; xstate := xstate p;
     pid := pid p; priority := priority p; errno := errno p;
     mlfq_level := mlfq_level p; time_used := time_used p;
     time_quantum := time_quantum p; parent := parent p; sz := sz p;
     pagetable := pagetable p; tf := tf p; ofile := ofile p; cwd := v;
     name := name p |}.

Definition set_name (v : list Z) (p : proc) : proc :=
  {| state := state p; chan := chan p; killed := killed p; xstate := xstate p;
     pid := pid p; priority := priority p; errno := errno p;
     mlfq_level := mlfq_level p; time_used := time_used p;
     time_quantum := time_quantum p; parent := parent p; sz := sz p;
     pagetable := pagetable p; tf := tf p; ofile := ofile p; cwd := cwd p;
     name := v |}.

(** [struct priority_queue]: [processes[0 .. count)] as a list of slots. *)
Abbreviation priority_queue := (list nat) (only parsing).

Definition MAX_PRIORITY_LEVELS : Z := 5.

(** [struct mlfq] *)
Record mlfq : Type := {
  queues : list priority_queue;
  current_level : Z;
  time_slices : list Z;
}.

(** The values [select_next_proc] takes: [default_round_robin],
    [priority_scheduler] or [mlfq_scheduler]. *)
Inductive selector : Type := RoundRobin | Priority | Mlfq.

Definition is_mlfq (s : selector) : bool :=
  match s with Mlfq => true | _ => false end.

(** The globals of proc.c and scheduler_ext.c, and [mycpu()->proc]. *)
Record kstate : Type := {
  procs : list proc;
  cur : option nat;
  nextpid : Z;
  select_next_proc : selector;
  mlfq_sched : mlfq;
}.

Definition set_procs (v : list proc) (k : kstate) : kstate :=
  {| procs := v; cur := cur k; nextpid := nextpid k;
     select_next_proc := select_next_proc k; mlfq_sched := mlfq_sched k |}.

Definition set_nextpid (v : Z) (k : kstate) : kstate :=
  {| procs := procs k; cur := cur k; nextpid := v;
     select_next_proc := select_next_proc k; mlfq_sched := mlfq_sched k |}.

Definition set_mlfq (v : mlfq) (k : kstate) : kstate :=
  {| procs := procs k; cur := cur k; nextpid := nextpid k;
     select_next_proc := select_next_proc k; mlfq_sched := v |}.

Definition set_queues (v : list priority_queue) (m : mlfq) : mlfq :=
  {| queues := v; current_level := current_level m;
     time_slices := time_slices m |}.

(** Update of one process-table slot, [proc[i].f = ...]. *)
Definition upd_proc (i : nat) (f : proc -> proc) (k : kstate) : kstate :=
  set_procs (alter f i (procs k)) k.

Section WithParams.
Context {P : KernelParams}.

(** *** scheduler_ext.c *)

(** The loop of [priority_scheduler] from slot [i] on, with the locals
    [best_proc] and [highest_priority]. *)
Fixpoint priority_scan (ps : list proc) (i : nat)
         (best_proc : option nat) (highest_priority : Z) : option nat :=
  match ps with
  | [] => best_proc
  | p :: rest =>
      if procstate_eqb (state p) RUNNABLE
         && (priority p >? highest_priority)
      then priority_scan rest (S i) (Some i) (priority p)
      else priority_scan rest (S i) best_proc highest_priority
  end.

Definition priority_scheduler (k : kstate) : option nat :=
  priority_scan (firstn (Z.to_nat NPROC) (procs k)) 0%nat None (-1).

Fixpoint first_nonempty (qs : list priority_queue) (level : Z)
  : option (nat * Z) :=
  match qs with
  | [] => None
  | q :: rest =>
      match q with
      | p :: _ => Some (p, level)
      | [] => first_nonempty rest (level + 1)
      end
  end.

(** [mlfq_scheduler] also records the level it took the head from. *)
Definition mlfq_scheduler (k : kstate) : option nat * kstate :=
  match first_nonempty (queues (mlfq_sched k)) 0 with
  | Some (p, level) =>
      (Some p,
       set_mlfq {| queues := queues (mlfq_sched k);
                   current_level := level;
                   time_slices := time_slices (mlfq_sched k) |} k)
  | None => (None, k)
  end.

Definition mlfq_add_process (p : nat) (level : Z) (k : kstate) : kstate :=
  if (level <? 0) || (level >=? MAX_PRIORITY_LEVELS) then k
  else
    match queues (mlfq_sched k) !! Z.to_nat level with
    | Some q =>
        if Z.of_nat (length q) <? NPROC
        then set_mlfq (set_queues (<[Z.to_nat level := q ++ [p]]>
                                     (queues (mlfq_sched k)))
                                  (mlfq_sched k)) k
        else k
    | None => k
    end.

(** Removes the first occurrence and shifts the tail down. *)
Fixpoint remove_first (p : nat) (q : priority_queue) : priority_queue :=
  match q with
  | [] => []
  | x :: rest => if Nat.eqb x p then rest else x :: remove_first p rest
  end.

Definition mlfq_remove_process (p : nat) (level : Z) (k : kstate) : kstate :=
  if (level <? 0) || (level >=? MAX_PRIORITY_LEVELS) then k
  else
    match queues (mlfq_sched k) !! Z.to_nat level with
    | Some q =>
        set_mlfq (set_queues (<[Z.to_nat level := remove_first p q]>
                                (queues (mlfq_sched k)))
                             (mlfq_sched k)) k
    | None => k
    end.

(** *** proc.c *)



Definition allocpid : M kstate Z :=
  k <- get ;;
  put (set_nextpid (to_int (nextpid k + 1)) k) ;;;
  ret (nextpid k).

(** [freeproc]; releasing the trap-frame page and the page table is the
    business of the frame allocator and is not recorded here. *)
Definition freeproc (p : proc) : proc :=
  {| state := UNUSED; chan := 0; killed := 0; xstate := 0; pid := 0;
     priority := priority p; errno := errno p;
     mlfq_level := mlfq_level p; time_used := time_used p;
     time_quantum := time_quantum p; parent := None; sz := 0;
     pagetable := 0; tf := None; ofile := ofile p; cwd := cwd p;
     name := <[0%nat := 0]> (name p) |}.

Fixpoint find_unused (ps : list proc) (i : nat) : option nat :=
  match ps with
  | [] => None
  | p :: rest =>
      if procstate_eqb (state p) UNUSED then Some i
      else find_unused rest (S i)
  end.

(** What the collaborators of fork deliver: [kalloc] a trap-frame page
    or 0, [proc_pagetable] a page table or 0, [uvmcopy] 0 or -1. *)
Record fork_env : Type := {
  kalloc_page : option trapframe;
  new_pagetable : Z;
  uvmcopy_ret : Z;
}.

(** The part of [allocproc] after the label [found]. *)
Definition allocproc_found (env : fork_env) (i : nat) : M kstate (option nat) :=
  new_pid <- allocpid ;;
  modify (upd_proc i (fun p =>
    {| state := USED; chan := chan p; killed := killed p;
       xstate := xstate p; pid := new_pid; priority := 5; errno := 0;
       mlfq_level := 0; time_used := 0; time_quantum := 1;
       parent := parent p; sz := sz p; pagetable := pagetable p;
       tf := tf p; ofile := ofile p; cwd := cwd p; name := name p |})) ;;;
  match kalloc_page env with
  | None =>
      modify (upd_proc i (fun p => freeproc (set_tf None p))) ;;;
      ret None
  | Some page =>
      modify (upd_proc i (set_tf (Some page))) ;;;
      if new_pagetable env =? 0 then
        modify (upd_proc i freeproc) ;;; ret None
      else
        modify (upd_proc i (fun p =>
          {| state := state p; chan := chan p; killed := killed p;
             xstate := xstate p; pid := pid p; priority := priority p;
             errno := errno p; mlfq_level := mlfq_level p;
             time_used := time_used p; time_quantum := time_quantum p;
             parent := parent p; sz := sz p;
             pagetable := new_pagetable env; tf := tf p;
             ofile := ofile p; cwd := cwd p; name := name p |})) ;;;
        ret (Some i)
  end.

Definition allocproc (env : fork_env) : M kstate (option nat) :=
  k <- get ;;
  match find_unused (firstn (Z.to_nat NPROC) (procs k)) 0%nat with
  | None => ret None
  | Some i => allocproc_found env i
  end.

(** [yield] up to its call of [sched]: the caller leaves the state
    RUNNABLE and, under MLFQ, at the tail of the queue of its level.
    What runs until the caller is scheduled again is not part of it. *)
Definition yield : M kstate unit :=
  k <- get ;;
  match cur k with
  | None => fault
  | Some i =>
      match procs k !! i with
      | None => fault
      | Some p =>
          (if is_mlfq (select_next_proc k)
           then modify (mlfq_remove_process i (mlfq_level p))
           else ret tt) ;;;
          modify (upd_proc i (set_state RUNNABLE)) ;;;
          (if is_mlfq (select_next_proc k)
           then modify (mlfq_add_process i (mlfq_level p))
           else ret tt)
      end
  end.

(** The loop of [wakeup] from slot [i] on; [self] is [myproc()]. *)
Fixpoint wakeup_scan (self : option nat) (chn : Z) (ps : list proc) (i : nat)
  : list proc :=
  match ps with
  | [] => []
  | p :: rest =>
      (if bool_decide (Some i = self) then p
       else if procstate_eqb (state p) SLEEPING && (chan p =? chn)
            then set_state RUNNABLE p
            else p)
      :: wakeup_scan self chn rest (S i)
  end.

Definition wakeup (chn : Z) (k : kstate) : kstate :=
  set_procs (wakeup_scan (cur k) chn (firstn (Z.to_nat NPROC) (procs k)) 0%nat
             ++ skipn (Z.to_nat NPROC) (procs k)) k.

(** Whether [wakeup] with caller [self] on channel [chn] wakes slot [i]. *)
Definition wakes (self : option nat) (chn : Z) (i : nat) (p : proc) : bool :=
  negb (bool_decide (Some i = self))
  && procstate_eqb (state p) SLEEPING && (chan p =? chn).

(** Slot [n] is on the MLFQ queue of level [l]. *)
Definition enqueued (k : kstate) (n : nat) (l : nat) : Prop :=
  exists q, queues (mlfq_sched k) !! l = Some q /\ n ∈ q.

End WithParams.
End Proc.

(** ** C structure layout (RISC-V LP64: every scalar is aligned to its size) *)

Module Layout.

(** A member [elem name[count]] whose element has [elem_size] bytes. *)
Record member : Type := {
  m_name : String.string;
  elem_size : Z;
  count : Z;
}.

Definition scalar (n : String.string) (sz : Z) : member :=
  {| m_name := n; elem_size := sz; count := 1 |}.
Definition array (n : String.string) (sz cnt : Z) : member :=
  {| m_name := n; elem_size := sz; count := cnt |}.

Definition align_up (off a : Z) : Z := (off + a - 1) / a * a.

(** Offsets of the members laid out in order from offset [off]. *)
Fixpoint place (ms : list member) (off : Z) : list (String.string * Z) * Z :=
  match ms with
  | [] => ([], off)
  | m :: rest =>
      let o := align_up off (elem_size m) in
      let '(os, e) := place rest (o + elem_size m * count m) in
      ((m_name m, o) :: os, e)
  end.

Definition struct_align (ms : list member) : Z :=
  fold_right Z.max 1 (map elem_size ms).

Definition sizeof (ms : list member) : Z :=
  align_up (snd (place ms 0)) (struct_align ms).

Fixpoint assoc (n : String.string) (l : list (String.string * Z)) : Z :=
  match l with
  | [] => 0
  | (k, v) :: rest => if String.eqb k n then v else assoc n rest
  end.

Definition offsetof (ms : list member) (n : String.string) : Z :=
  assoc n (fst (place ms 0)).

End Layout.

(** ** kernel/fs.h *)

Module FsLayout.
Import Layout.

Definition ROOTINO : Z := 1.
Definition BSIZE : Z := 4096.
Definition FSMAGIC : Z := 0x10203040.

Definition sizeof_uint : Z := 4.
Definition NDIRECT : Z := 10.
Definition NINDIRECT : Z := BSIZE / sizeof_uint.
Definition NINDIRECT2 : Z := NINDIRECT * NINDIRECT.
Definition NINDIRECT3 : Z := NINDIRECT * NINDIRECT * NINDIRECT.
Definition MAXFILE : Z := NDIRECT + NINDIRECT + NINDIRECT2 + NINDIRECT3.

(** [struct dinode], member by member. *)
Definition dinode_members : list member :=
  [ scalar "type" 2; scalar "major" 2; scalar "minor" 2; scalar "nlink" 2;
    scalar "size" 4; array "addrs" 4 (NDIRECT + 3);
    scalar "mode" 2; scalar "uid" 2;
    scalar "atime" 4; scalar "mtime" 4; scalar "ctime" 4; scalar "blocks" 4;
    array "padding" 1 44 ].

Definition sizeof_dinode : Z := sizeof dinode_members.

(** [#define IPB (BSIZE / sizeof(struct dinode))] *)
Definition IPB : Z := BSIZE / sizeof_dinode.

(** [#define BPB (BSIZE*8)] *)
Definition BPB : Z := BSIZE * 8.

Definition DIRSIZ : Z := 62.

(** [struct dirent] *)
Definition dirent_members : list member :=
  [ scalar "inum" 2; array "name" 1 DIRSIZ ].

Definition sizeof_dirent : Z := sizeof dirent_members.

End FsLayout.

(** ** kernel/fs.c: state *)

Module Fs.
Import Layout FsLayout.

(** *** Bytes of a block or of a buffer, little endian *)

Definition get_u8 (b : list Z) (off : Z) : Z := default 0 (b !! Z.to_nat off).
Definition get_u16 (b : list Z) (off : Z) : Z :=
  get_u8 b off + 256 * get_u8 b (off + 1).
Definition get_u32 (b : list Z) (off : Z) : Z :=
  get_u16 b off + 65536 * get_u16 b (off + 2).
Definition get_s16 (b : list Z) (off : Z) : Z := to_short (get_u16 b off).

Definition put_u8 (b : list Z) (off v : Z) : list Z :=
  <[Z.to_nat off := wrap 8 v]> b.
Definition put_u16 (b : list Z) (off v : Z) : list Z :=
  put_u8 (put_u8 b off v) (off + 1) (v / 256).
Definition put_u32 (b : list Z) (off v : Z) : list Z :=
  put_u16 (put_u16 b off v) (off + 2) (v / 65536).

Definition get_bytes (b : list Z) (off n : Z) : list Z :=
  take (Z.to_nat n) (drop (Z.to_nat off) b).

(** [memmove(b + off, bs, length bs)] inside [b]. *)
Definition put_bytes (b : list Z) (off : Z) (bs : list Z) : list Z :=
  take (Z.to_nat off) b ++ bs ++ drop (Z.to_nat off + length bs) b.

(** [uchar data[BSIZE]] *)
Abbreviation block := (list Z) (only parsing).
Definition zero_block : block := replicate (Z.to_nat BSIZE) 0.

(** [struct superblock] *)
Record superblock : Type := {
  sb_magic : Z;
  sb_size : Z;
  sb_nblocks : Z;
  sb_ninodes : Z;
  sb_nlog : Z;
  sb_logstart : Z;
  sb_inodestart : Z;
  sb_bmapstart : Z;
}.

(** [struct inode] (file.h), with the members fs.c uses: the table
    bookkeeping [dev], [inum], [ref], the sleep lock, [valid], and the
    copy of the disk inode. *)
Record inode : Type := {
  dev : Z;
  inum : Z;
  ref : Z;
  locked : bool;
  valid : Z;
  type : Z;
  major : Z;
  minor : Z;
  nlink : Z;
  size : Z;
  addrs : list Z;
  mode : Z;
  uid : Z;
  atime : Z;
  mtime : Z;
  ctime : Z;
  blocks : Z;
  padding : list Z;
}.

Definition set_dev (v : Z) (i : inode) : inode :=
  Build_inode v (inum i) (ref i) (locked i) (valid i) (type i) (major i) (minor i) (nlink i) (size i) (addrs i) (mode i) (uid i) (atime i) (mtime i) (ctime i) (blocks i) (padding i).
Definition set_inum (v : Z) (i : inode) : inode :=
  Build_inode (dev i) v (ref i) (locked i) (valid i) (type i) (major i) (minor i) (nlink i) (size i) (addrs i) (mode i) (uid i) (atime i) (mtime i) (ctime i) (blocks i) (padding i).
Definition set_ref (v : Z) (i : inode) : inode :=
  Build_inode (dev i) (inum i) v (locked i) (valid i) (type i) (major i) (minor i) (nlink i) (size i) (addrs i) (mode i) (uid i) (atime i) (mtime i) (ctime i) (blocks i) (padding i).
Definition set_locked (v : bool) (i : inode) : inode :=
  Build_inode (dev i) (inum i) (ref i) v (valid i) (type i) (major i) (minor i) (nlink i) (size i) (addrs i) (mode i) (uid i) (atime i) (mtime i) (ctime i) (blocks i) (padding i).
Definition set_valid (v : Z) (i : inode) : inode :=
  Build_inode (dev i) (inum i) (ref i) (locked i) v (type i) (major i) (minor i) (nlink i) (size i) (addrs i) (mode i) (uid i) (atime i) (mtime i) (ctime i) (blocks i) (padding i).
Definition set_type (v : Z) (i : inode) : inode :=
  Build_inode (dev i) (inum i) (ref i) (locked i) (valid i) v (major i) (minor i) (nlink i) (size i) (addrs i) (mode i) (uid i) (atime i) (mtime i) (ctime i) (blocks i) (padding i).
Definition set_major (v : Z) (i : inode) : inode :=
  Build_inode (dev i) (inum i) (ref i) (locked i) (valid i) (type i) v (minor i) (nlink i) (size i) (addrs i) (mode i) (uid i) (atime i) (mtime i) (ctime i) (blocks i) (padding i).
Definition set_minor (v : Z) (i : inode) : inode :=
  Build_inode (dev i) (inum i) (ref i) (locked i) (valid i) (type i) (major i) v (nlink i) (size i) (addrs i) (mode i) (uid i) (atime i) (mtime i) (ctime i) (blocks i) (padding i).
Definition set_nlink (v : Z) (i : inode) : inode :=
  Build_inode (dev i) (inum i) (ref i) (locked i) (valid i) (type i) (major i) (minor i) v (size i) (addrs i) (mode i) (uid i) (atime i) (mtime i) (ctime i) (blocks i) (padding i).
Definition set_size (v : Z) (i : inode) : inode :=
  Build_inode (dev i) (inum i) (ref i) (locked i) (valid i) (type i) (major i) (minor i) (nlink i) v (addrs i) (mode i) (uid i) (atime i) (mtime i) (ctime i) (blocks i) (padding i).
Definition set_addrs (v : list Z) (i : inode) : inode :=
  Build_inode (dev i) (inum i) (ref i) (locked i) (valid i) (type i) (major i) (minor i) (nlink i) (size i) v (mode i) (uid i) (atime i) (mtime i) (ctime i) (blocks i) (padding i).
Definition set_mode (v : Z) (i : inode) : inode :=
  Build_inode (dev i) (inum i) (ref i) (locked i) (valid i) (type i) (major i) (minor i) (nlink i) (size i) (addrs i) v (uid i) (atime i) (mtime i) (ctime i) (blocks i) (padding i).
Definition set_uid (v : Z) (i : inode) : inode :=
  Build_inode (dev i) (inum i) (ref i) (locked i) (valid i) (type i) (major i) (minor i) (nlink i) (size i) (addrs i) (mode i) v (atime i) (mtime i) (ctime i) (blocks i) (padding i).
Definition set_atime (v : Z) (i : inode) : inode :=
  Build_inode (dev i) (inum i) (ref i) (locked i) (valid i) (type i) (major i) (minor i) (nlink i) (size i) (addrs i) (mode i) (uid i) v (mtime i) (ctime i) (blocks i) (padding i).
Definition set_mtime (v : Z) (i : inode) : inode :=
  Build_inode (dev i) (inum i) (ref i) (locked i) (valid i) (type i) (major i) (minor i) (nlink i) (size i) (addrs i) (mode i) (uid i) (atime i) v (ctime i) (blocks i) (padding i).
Definition set_ctime (v : Z) (i : inode) : inode :=
  Build_inode (dev i) (inum i) (ref i) (locked i) (valid i) (type i) (major i) (minor i) (nlink i) (size i) (addrs i) (mode i) (uid i) (atime i) (mtime i) v (blocks i) (padding i).
Definition set_blocks (v : Z) (i : inode) : inode :=
  Build_inode (dev i) (inum i) (ref i) (locked i) (valid i) (type i) (major i) (minor i) (nlink i) (size i) (addrs i) (mode i) (uid i) (atime i) (mtime i) (ctime i) v (padding i).
Definition set_padding (v : list Z) (i : inode) : inode :=
  Build_inode (dev i) (inum i) (ref i) (locked i) (valid i) (type i) (major i) (minor i) (nlink i) (size i) (addrs i) (mode i) (uid i) (atime i) (mtime i) (ctime i) (blocks i) v.

(** [ip->addrs[k]] and [ip->addrs[k] = v] *)
Definition addr_at (i : inode) (k : Z) : Z := default 0 (addrs i !! Z.to_nat k).
Definition set_addr (k v : Z) (i : inode) : inode :=
  set_addrs (<[Z.to_nat k := v]> (addrs i)) i.

(** An inode pointer: null, a slot of [itable.inode], or an error code
    cast to a pointer by [ERR_PTR_CODE]. *)
Inductive iptr : Type :=
| INull
| ISlot (slot : nat)
| IErr (code : Z).

(** [IS_ERR_PTR]: the pointer value lies in the last 1000 addresses.
    Slots of the inode table lie in kernel data, far below. *)
Definition IS_ERR_PTR (p : iptr) : bool :=
  match p with
  | IErr code => to_uint64 code >? to_uint64 (-1000)
  | _ => false
  end.

(** The state of the file system: the blocks of every device as seen
    through the buffer cache, the super block read at mount, the inode
    table, and the static counters of [iupdatatime] and [iupdatemtime]. *)
Record fs : Type := {
  disk : gmap (Z * Z) block;
  sb : superblock;
  itable : list inode;
  atime_clock : Z;
  mtime_clock : Z;
}.

Definition set_disk (v : gmap (Z * Z) block) (s : fs) : fs :=
  {| disk := v; sb := sb s; itable := itable s;
     atime_clock := atime_clock s; mtime_clock := mtime_clock s |}.
Definition set_itable (v : list inode) (s : fs) : fs :=
  {| disk := disk s; sb := sb s; itable := v;
     atime_clock := atime_clock s; mtime_clock := mtime_clock s |}.
Definition set_atime_clock (v : Z) (s : fs) : fs :=
  {| disk := disk s; sb := sb s; itable := itable s;
     atime_clock := v; mtime_clock := mtime_clock s |}.

Definition set_mtime_clock (v : Z) (s : fs) : fs :=
  {| disk := disk s; sb := sb s; itable := itable s;
     atime_clock := atime_clock s; mtime_clock := v |}.

(** What the kernel can do with the user memory of the current process
    ([copyout], [copyin] and [copyinstr] live in vm.c): whether [len]
    bytes can be stored at an address, the [len] bytes at an address, and
    the string at an address if it ends within [max] bytes. *)
Class UserMem : Type := {
  copyout_ok : Z -> Z -> bool;
  copyin : Z -> Z -> option (list Z);
  copyinstr : Z -> Z -> option (list Z);
}.

Definition IBLOCK (i : Z) (s : superblock) : Z := i / IPB + sb_inodestart s.
Definition BBLOCK (b : Z) (s : superblock) : Z := b / BPB + sb_bmapstart s.

Definition MAX_SYMLINK_DEPTH : Z := 16.

Section WithParams.
Context {P : KernelParams} {U : UserMem}.

(** *** Buffers

    [bread] hands out the cached copy of a block; the code reads and
    writes [bp->data] in place, so a buffer is the key of its block and
    every access goes to the block itself.  [log_block_write] and
    [brelse] then have nothing left to record.  A device that does not
    have the block yields a null buffer: [ialloc] tests for it, every
    other caller dereferences the result. *)
Abbreviation buf := (Z * Z)%type (only parsing).

Definition bread (dev blockno : Z) : M fs (option buf) :=
  s <- get ;;
  match disk s !! (dev, blockno) with
  | Some _ => ret (Some (dev, blockno))
  | None => ret None
  end.

Definition bread_deref (dev blockno : Z) : M fs buf :=
  obp <- bread dev blockno ;;
  match obp with
  | Some bp => ret bp
  | None => fault
  end.

Definition buf_data (bp : buf) : M fs block :=
  s <- get ;;
  match disk s !! bp with
  | Some d => ret d
  | None => fault
  end.

Definition buf_store (bp : buf) (f : block -> block) : M fs unit :=
  modify (fun s => set_disk (alter f bp (disk s)) s).

Definition log_block_write (bp : buf) : M fs unit := ret tt.
Definition brelse (bp : buf) : M fs unit := ret tt.

(** [bzero] *)
Definition bzero (dev bno : Z) : M fs unit :=
  bp <- bread_deref dev bno ;;
  buf_store bp (fun _ => zero_block) ;;;
  log_block_write bp ;;;
  brelse bp.

(** *** Block allocator *)

(** The inner loop of [balloc] from bit [bi] on: the first clear bit. *)
Fixpoint balloc_bits (fuel : nat) (data : block) (b bi size : Z) : option Z :=
  match fuel with
  | O => None
  | S fuel' =>
      if (bi <? BPB) && (b + bi <? size) then
        let m := Z.shiftl 1 (bi mod 8) in
        if Z.land (get_u8 data (bi / 8)) m =? 0 then Some bi
        else balloc_bits fuel' data b (bi + 1) size
      else None
  end.

(** The outer loop of [balloc] from block [b] on. *)
Fixpoint balloc_blocks (fuel : nat) (dev b : Z) : M fs Z :=
  match fuel with
  | O => ret 0
  | S fuel' =>
      s <- get ;;
      if b <? sb_size (sb s) then
        bp <- bread_deref dev (BBLOCK b (sb s)) ;;
        data <- buf_data bp ;;
        match balloc_bits (Z.to_nat BPB) data b 0 (sb_size (sb s)) with
        | Some bi =>
            let m := Z.shiftl 1 (bi mod 8) in
            buf_store bp (fun d => put_u8 d (bi / 8)
                                     (Z.lor (get_u8 d (bi / 8)) m)) ;;;
            log_block_write bp ;;;
            brelse bp ;;;
            bzero dev (b + bi) ;;;
            ret (b + bi)
        | None =>
            brelse bp ;;;
            balloc_blocks fuel' dev (b + BPB)
        end
      else ret 0
  end.

(** [balloc]: the block number, or 0 when the device is full.  The
    outer loop runs once per bitmap block. *)
Definition balloc (dev : Z) : M fs Z :=
  s <- get ;;
  balloc_blocks (Z.to_nat (sb_size (sb s) / BPB + 1)) dev 0.

(** [bfree] *)
Definition bfree (dev b : Z) : M fs unit :=
  s <- get ;;
  bp <- bread_deref dev (BBLOCK b (sb s)) ;;
  data <- buf_data bp ;;
  let bi := b mod BPB in
  let m := Z.shiftl 1 (bi mod 8) in
  if Z.land (get_u8 data (bi / 8)) m =? 0 then panic "freeing free block"
  else
    buf_store bp (fun d => put_u8 d (bi / 8)
                             (Z.land (get_u8 d (bi / 8)) (Z.lnot m))) ;;;
    log_block_write bp ;;;
    brelse bp.

(** *** The inode table *)

Definition ip_get (ip : nat) : M fs inode :=
  s <- get ;;
  match itable s !! ip with
  | Some i => ret i
  | None => fault
  end.

Definition ip_upd (ip : nat) (f : inode -> inode) : M fs unit :=
  modify (fun s => set_itable (alter f ip (itable s)) s).

(** The loop of [iget] from slot [k] on: the slot that holds
    ([dev], [inum]) if there is one, else the first empty slot seen. *)
Fixpoint iget_scan (tbl : list inode) (k : nat) (dv inm : Z)
         (empty : option nat) : option nat * option nat :=
  match tbl with
  | [] => (None, empty)
  | i :: rest =>
      if (ref i >? 0) && (dev i =? dv) && (inum i =? inm)
      then (Some k, empty)
      else iget_scan rest (S k) dv inm
             (match empty with
              | None => if ref i =? 0 then Some k else None
              | Some e => Some e
              end)
  end.

Definition iget (dv inm : Z) : M fs nat :=
  s <- get ;;
  match iget_scan (take (Z.to_nat NINODE) (itable s)) 0%nat dv inm None with
  | (Some k, _) =>
      ip_upd k (fun i => set_ref (to_int (ref i + 1)) i) ;;; ret k
  | (None, None) => panic "iget: no inodes"
  | (None, Some e) =>
      ip_upd e (fun i => set_valid 0 (set_ref 1 (set_inum inm (set_dev dv i)))) ;;;
      ret e
  end.

Definition idup (ip : nat) : M fs nat :=
  ip_get ip ;;;
  ip_upd ip (fun i => set_ref (to_int (ref i + 1)) i) ;;;
  ret ip.

(** The members of the [k]-th [struct dinode] of an inode block. *)
Definition dinode_at (k : Z) (m : String.string) : Z :=
  k * sizeof_dinode + offsetof dinode_members m.

(** [ilock] *)
Definition ilock (ip : nat) : M fs unit :=
  i <- ip_get ip ;;
  if ref i <? 1 then panic "ilock"
  else if locked i then blocked
  else
    ip_upd ip (set_locked true) ;;;
    if valid i =? 0 then
      s <- get ;;
      bp <- bread_deref (dev i) (IBLOCK (inum i) (sb s)) ;;
      d <- buf_data bp ;;
      let k := inum i mod IPB in
      ip_upd ip (fun i =>
        set_padding (get_bytes d (dinode_at k "padding") 44)
        (set_blocks (get_u32 d (dinode_at k "blocks"))
        (set_ctime (get_u32 d (dinode_at k "ctime"))
        (set_mtime (get_u32 d (dinode_at k "mtime"))
        (set_atime (get_u32 d (dinode_at k "atime"))
        (set_uid (get_u16 d (dinode_at k "uid"))
        (set_mode (get_u16 d (dinode_at k "mode"))
        (set_addrs (map (fun j => get_u32 d (dinode_at k "addrs" + 4 * j))
                        (seqZ 0 (NDIRECT + 3)))
        (set_size (get_u32 d (dinode_at k "size"))
        (set_nlink (get_s16 d (dinode_at k "nlink"))
        (set_minor (get_s16 d (dinode_at k "minor"))
        (set_major (get_s16 d (dinode_at k "major"))
        (set_type (get_s16 d (dinode_at k "type")) i))))))))))))) ;;;
      brelse bp ;;;
      ip_upd ip (set_valid 1) ;;;
      i' <- ip_get ip ;;
      if type i' =? 0 then panic "ilock: no type" else ret tt
    else ret tt.

(** [iunlock] *)
Definition iunlock (ip : nat) : M fs unit :=
  i <- ip_get ip ;;
  if negb (locked i) || (ref i <? 1) then panic "iunlock"
  else ip_upd ip (set_locked false).

(** [iupdate] *)
Definition iupdate (ip : nat) : M fs unit :=
  i <- ip_get ip ;;
  s <- get ;;
  bp <- bread_deref (dev i) (IBLOCK (inum i) (sb s)) ;;
  let k := inum i mod IPB in
  buf_store bp (fun d =>
    put_bytes
    (put_u32 (put_u32 (put_u32 (put_u32 (put_u16 (put_u16
    (fold_left (fun d' j => put_u32 d' (dinode_at k "addrs" + 4 * j)
                              (addr_at i j))
               (seqZ 0 (NDIRECT + 3))
    (put_u32 (put_u16 (put_u16 (put_u16 (put_u16 d
      (dinode_at k "type") (type i))
      (dinode_at k "major") (major i))
      (dinode_at k "minor") (minor i))
      (dinode_at k "nlink") (nlink i))
      (dinode_at k "size") (size i)))
      (dinode_at k "mode") (mode i))
      (dinode_at k "uid") (uid i))
      (dinode_at k "atime") (atime i))
      (dinode_at k "mtime") (mtime i))
      (dinode_at k "ctime") (ctime i))
      (dinode_at k "blocks") (blocks i))
    (dinode_at k "padding") (take 44 (padding i ++ replicate 44 0))) ;;;
  log_block_write bp ;;;
  brelse bp.

(** *** Block mapping *)

(** [a[k]] and [a[k] = v] for [a = (uint* )bp->data]. *)
Definition buf_uint (bp : buf) (k : Z) : M fs Z :=
  d <- buf_data bp ;; ret (get_u32 d (sizeof_uint * k)).
Definition buf_set_uint (bp : buf) (k v : Z) : M fs unit :=
  buf_store bp (fun d => put_u32 d (sizeof_uint * k) v).

(** [bmap]: the disk block of logical block [bn] of the inode, allocated
    on the way if it is missing; 0 when the allocator has no block. *)
Definition bmap (ip : nat) (bn : Z) : M fs Z :=
  i <- ip_get ip ;;
  if bn <? NDIRECT then
    let addr := addr_at i bn in
    if addr =? 0 then
      addr <- balloc (dev i) ;;
      if addr =? 0 then ret 0
      else ip_upd ip (set_addr bn addr) ;;; ret addr
    else ret addr
  else
  let bn := bn - NDIRECT in
  if bn <? NINDIRECT then
    let addr := addr_at i NDIRECT in
    oaddr <- (if addr =? 0 then
                addr <- balloc (dev i) ;;
                if addr =? 0 then ret None
                else ip_upd ip (set_addr NDIRECT addr) ;;; ret (Some addr)
              else ret (Some addr)) ;;
    match oaddr with
    | None => ret 0
    | Some addr =>
        bp <- bread_deref (dev i) addr ;;
        addr <- buf_uint bp bn ;;
        addr <- (if addr =? 0 then
                   addr <- balloc (dev i) ;;
                   (if addr =? 0 then ret tt
                    else buf_set_uint bp bn addr ;;; log_block_write bp) ;;;
                   ret addr
                 else ret addr) ;;
        brelse bp ;;;
        ret addr
    end
  else
  let bn := bn - NINDIRECT in
  if bn <? NINDIRECT2 then
    let addr := addr_at i (NDIRECT + 1) in
    oaddr <- (if addr =? 0 then
                addr <- balloc (dev i) ;;
                if addr =? 0 then ret None
                else ip_upd ip (set_addr (NDIRECT + 1) addr) ;;; ret (Some addr)
              else ret (Some addr)) ;;
    match oaddr with
    | None => ret 0
    | Some addr =>
        bp <- bread_deref (dev i) addr ;;
        addr <- buf_uint bp (bn / NINDIRECT) ;;
        addr <- (if addr =? 0 then
                   addr <- balloc (dev i) ;;
                   (if addr =? 0 then ret tt
                    else buf_set_uint bp (bn / NINDIRECT) addr ;;;
                         log_block_write bp) ;;;
                   ret addr
                 else ret addr) ;;
        brelse bp ;;;
        if addr =? 0 then ret 0
        else
          bp2 <- bread_deref (dev i) addr ;;
          addr <- buf_uint bp2 (bn mod NINDIRECT) ;;
          addr <- (if addr =? 0 then
                     addr <- balloc (dev i) ;;
                     (if addr =? 0 then ret tt
                      else buf_set_uint bp2 (bn mod NINDIRECT) addr ;;;
                           log_block_write bp2) ;;;
                     ret addr
                   else ret addr) ;;
          brelse bp2 ;;;
          ret addr
    end
  else
  let bn := bn - NINDIRECT2 in
  if bn <? NINDIRECT3 then
    let addr := addr_at i (NDIRECT + 2) in
    oaddr <- (if addr =? 0 then
                addr <- balloc (dev i) ;;
                if addr =? 0 then ret None
                else ip_upd ip (set_addr (NDIRECT + 2) addr) ;;; ret (Some addr)
              else ret (Some addr)) ;;
    match oaddr with
    | None => ret 0
    | Some addr =>
        bp <- bread_deref (dev i) addr ;;
        addr <- buf_uint bp (bn / NINDIRECT2) ;;
        addr <- (if addr =? 0 then
                   addr <- balloc (dev i) ;;
                   (if addr =? 0 then ret tt
                    else buf_set_uint bp (bn / NINDIRECT2) addr ;;;
                         log_block_write bp) ;;;
                   ret addr
                 else ret addr) ;;
        brelse bp ;;;
        if addr =? 0 then ret 0
        else
          bp2 <- bread_deref (dev i) addr ;;
          addr <- buf_uint bp2 ((bn mod NINDIRECT2) / NINDIRECT) ;;
          addr <- (if addr =? 0 then
                     addr <- balloc (dev i) ;;
                     (if addr =? 0 then ret tt
                      else buf_set_uint bp2 ((bn mod NINDIRECT2) / NINDIRECT) addr ;;;
                           log_block_write bp2) ;;;
                     ret addr
                   else ret addr) ;;
          brelse bp2 ;;;
          if addr =? 0 then ret 0
          else
            bp3 <- bread_deref (dev i) addr ;;
            addr <- buf_uint bp3 (bn mod NINDIRECT) ;;
            addr <- (if addr =? 0 then
                       addr <- balloc (dev i) ;;
                       (if addr =? 0 then ret tt
                        else buf_set_uint bp3 (bn mod NINDIRECT) addr ;;;
                             log_block_write bp3) ;;;
                       ret addr
                     else ret addr) ;;
            brelse bp3 ;;;
            ret addr
    end
  else panic "bmap: out of range".

(** [for(j = 0; j < n; j++) body(j)] *)
Fixpoint for_loop (n : nat) (j : Z) (body : Z -> M fs unit) : M fs unit :=
  match n with
  | O => ret tt
  | S n' => body j ;;; for_loop n' (j + 1) body
  end.

(** [itrunc] *)
Definition itrunc (ip : nat) : M fs unit :=
  i <- ip_get ip ;;
  for_loop (Z.to_nat NDIRECT) 0 (fun k =>
    i <- ip_get ip ;;
    if addr_at i k =? 0 then ret tt
    else bfree (dev i) (addr_at i k) ;;; ip_upd ip (set_addr k 0)) ;;;
  i <- ip_get ip ;;
  (if addr_at i NDIRECT =? 0 then ret tt
   else
     bp <- bread_deref (dev i) (addr_at i NDIRECT) ;;
     for_loop (Z.to_nat NINDIRECT) 0 (fun j =>
       aj <- buf_uint bp j ;;
       if aj =? 0 then ret tt else bfree (dev i) aj) ;;;
     brelse bp ;;;
     bfree (dev i) (addr_at i NDIRECT) ;;;
     ip_upd ip (set_addr NDIRECT 0)) ;;;
  i <- ip_get ip ;;
  (if addr_at i (NDIRECT + 1) =? 0 then ret tt
   else
     bp <- bread_deref (dev i) (addr_at i (NDIRECT + 1)) ;;
     for_loop (Z.to_nat NINDIRECT) 0 (fun j =>
       aj <- buf_uint bp j ;;
       if aj =? 0 then ret tt
       else
         bp2 <- bread_deref (dev i) aj ;;
         for_loop (Z.to_nat NINDIRECT) 0 (fun k =>
           a2k <- buf_uint bp2 k ;;
           if a2k =? 0 then ret tt else bfree (dev i) a2k) ;;;
         brelse bp2 ;;;
         aj <- buf_uint bp j ;;
         bfree (dev i) aj) ;;;
     brelse bp ;;;
     bfree (dev i) (addr_at i (NDIRECT + 1)) ;;;
     ip_upd ip (set_addr (NDIRECT + 1) 0)) ;;;
  i <- ip_get ip ;;
  (if addr_at i (NDIRECT + 2) =? 0 then ret tt
   else
     bp <- bread_deref (dev i) (addr_at i (NDIRECT + 2)) ;;
     for_loop (Z.to_nat NINDIRECT) 0 (fun j =>
       aj <- buf_uint bp j ;;
       if aj =? 0 then ret tt
       else
         bp2 <- bread_deref (dev i) aj ;;
         for_loop (Z.to_nat NINDIRECT) 0 (fun k =>
           a2k <- buf_uint bp2 k ;;
           if a2k =? 0 then ret tt
           else
             bp3 <- bread_deref (dev i) a2k ;;
             for_loop (Z.to_nat NINDIRECT) 0 (fun l =>
               a3l <- buf_uint bp3 l ;;
               if a3l =? 0 then ret tt else bfree (dev i) a3l) ;;;
             brelse bp3 ;;;
             a2k <- buf_uint bp2 k ;;
             bfree (dev i) a2k) ;;;
         brelse bp2 ;;;
         aj <- buf_uint bp j ;;
         bfree (dev i) aj) ;;;
     brelse bp ;;;
     bfree (dev i) (addr_at i (NDIRECT + 2)) ;;;
     ip_upd ip (set_addr (NDIRECT + 2) 0)) ;;;
  ip_upd ip (set_size 0) ;;;
  iupdate ip.

(** [iput] *)
Definition iput (ip : nat) : M fs unit :=
  i <- ip_get ip ;;
  (if (ref i =? 1) && negb (valid i =? 0) && (nlink i =? 0) then
     (if locked i then blocked else ip_upd ip (set_locked true)) ;;;
     itrunc ip ;;;
     ip_upd ip (set_type 0) ;;;
     iupdate ip ;;;
     ip_upd ip (set_valid 0) ;;;
     ip_upd ip (set_locked false)
   else ret tt) ;;;
  ip_upd ip (fun i => set_ref (to_int (ref i - 1)) i).

(** [iunlockput] *)
Definition iunlockput (ip : nat) : M fs unit :=
  iunlock ip ;;; iput ip.

(** *** Reading *)

(** [iupdatatime], with its static counter. *)
Definition iupdatatime (ip : nat) : M fs unit :=
  s <- get ;;
  let current_time := to_uint (atime_clock s + 1) in
  put (set_atime_clock current_time s) ;;;
  ip_upd ip (set_atime current_time).

(** [either_copyout] succeeds on a kernel destination; a user
    destination is up to the page table of the process. *)
Definition either_copyout (user_dst dst len : Z) : bool :=
  if user_dst =? 0 then true else copyout_ok dst len.

(** The loop of [readi].  [out] collects the bytes handed to
    [either_copyout] so far. *)
Fixpoint readi_loop (fuel : nat) (ip : nat) (user_dst dst off n tot : Z)
         (out : list Z) : M fs (Z * list Z) :=
  match fuel with
  | O => ret (tot, out)
  | S fuel' =>
      if tot <? n then
        addr <- bmap ip (off / BSIZE) ;;
        if addr =? 0 then ret (tot, out)
        else
          i <- ip_get ip ;;
          bp <- bread_deref (dev i) addr ;;
          d <- buf_data bp ;;
          let m := Z.min (n - tot) (BSIZE - off mod BSIZE) in
          if either_copyout user_dst dst m then
            brelse bp ;;;
            readi_loop fuel' ip user_dst (to_uint64 (dst + m))
                       (to_uint (off + m)) n (to_uint (tot + m))
                       (out ++ get_bytes d (off mod BSIZE) m)
          else
            brelse bp ;;; ret (to_uint (-1), out)
      else ret (tot, out)
  end.

(** [readi]: the value returned and the bytes copied out.  Every turn
    of the loop copies at least one byte, so [n] turns are enough. *)
Definition readi (ip : nat) (user_dst dst off n : Z) : M fs (Z * list Z) :=
  i <- ip_get ip ;;
  if (off >? size i) || (to_uint (off + n) <? off) then ret (0, [])
  else
    let n := if to_uint (off + n) >? size i then to_uint (size i - off) else n in
    r <- readi_loop (Z.to_nat n) ip user_dst dst off n 0 [] ;;
    (if fst r >? 0 then iupdatatime ip else ret tt) ;;;
    ret (to_int (fst r), snd r).

(** *** Directories *)

(** A C string is the list of its bytes before the terminator; reading
    at its end gives the terminator.  [strncmp] is the one of string.c:
    it walks both strings while [n > 0], [*p] is not 0 and [*p == *q]. *)
Fixpoint strncmp (p q : list Z) (n : nat) : Z :=
  match n with
  | O => 0
  | S n' =>
      let a := hd 0 p in
      let b := hd 0 q in
      if negb (a =? 0) && (a =? b) then strncmp (tl p) (tl q) n'
      else a - b
  end.

Definition namecmp (s t : list Z) : Z := strncmp s t (Z.to_nat DIRSIZ).

(** The loop of [dirlookup] from offset [off] on. *)
Fixpoint dirlookup_loop (fuel : nat) (dp : nat) (name : list Z) (off : Z)
  : M fs (iptr * Z) :=
  match fuel with
  | O => ret (INull, 0)
  | S fuel' =>
      d <- ip_get dp ;;
      if off <? size d then
        r <- readi dp 0 0 off sizeof_dirent ;;
        if negb (fst r =? sizeof_dirent) then panic "dirlookup read"
        else
          let de := snd r in
          let de_inum := get_u16 de (offsetof dirent_members "inum") in
          let de_name := get_bytes de (offsetof dirent_members "name") DIRSIZ in
          if de_inum =? 0 then
            dirlookup_loop fuel' dp name (to_uint (off + sizeof_dirent))
          else if namecmp name de_name =? 0 then
            ip <- iget (dev d) de_inum ;;
            ret (ISlot ip, off)
          else dirlookup_loop fuel' dp name (to_uint (off + sizeof_dirent))
      else ret (INull, 0)
  end.

(** [dirlookup]: the inode of the entry and its byte offset ([*poff]).
    The loop runs once per directory entry. *)
Definition dirlookup (dp : nat) (name : list Z) : M fs (iptr * Z) :=
  d <- ip_get dp ;;
  if negb (type d =? T_DIR) then panic "dirlookup not DIR"
  else dirlookup_loop (Z.to_nat (size d / sizeof_dirent + 1)) dp name 0.

(** *** Paths *)

Definition slash : Z := 47.

(** [while( *path == '/') path++;] *)
Fixpoint skip_slashes (path : list Z) : list Z :=
  match path with
  | c :: rest => if c =? slash then skip_slashes rest else path
  | [] => []
  end.

(** [while( *path != '/' && *path != 0) path++;] : the bytes passed over
    and the rest. *)
Fixpoint scan_elem (path : list Z) : list Z * list Z :=
  match path with
  | c :: rest =>
      if (c =? slash) || (c =? 0) then ([], path)
      else let '(s, r) := scan_elem rest in (c :: s, r)
  | [] => ([], [])
  end.

(** [skipelem]: the name copied out and the path that follows, or
    [None] for the null pointer.  The name buffer has [DIRSIZ] bytes;
    it is given as the string [strncmp] with bound [DIRSIZ] reads from
    it: all of the element and a terminator when the element is shorter
    than [DIRSIZ], else its first [DIRSIZ] bytes and no terminator. *)
Definition skipelem (path : list Z) : option (list Z * list Z) :=
  let path := skip_slashes path in
  if hd 0 path =? 0 then None
  else
    let '(s, path) := scan_elem path in
    let len := Z.of_nat (length s) in
    let name := if len >=? DIRSIZ then take (Z.to_nat DIRSIZ) s else s in
    Some (name, skip_slashes path).

(** The inner loop of [namex] that walks the target of a symbolic link. *)
Fixpoint namex_target (fuel : nat) (ip : nat) (newpath name : list Z)
  : M fs (option nat * list Z) :=
  match fuel with
  | O => fault
  | S fuel' =>
      match skipelem newpath with
      | None => ret (Some ip, name)
      | Some (name, newpath) =>
          ilock ip ;;;
          i <- ip_get ip ;;
          if negb (type i =? T_DIR) then
            iunlockput ip ;;; ret (None, name)
          else
            r <- dirlookup ip name ;;
            match fst r with
            | ISlot next =>
                iunlockput ip ;;;
                namex_target fuel' next newpath name
            | _ => iunlockput ip ;;; ret (None, name)
            end
      end
  end.

(** The outer loop of [namex]. *)
Fixpoint namex_loop (fuel : nat) (ip : nat) (path name : list Z)
         (nameiparent : Z) (symlink_depth : Z) : M fs (iptr * list Z) :=
  match fuel with
  | O => fault
  | S fuel' =>
      match skipelem path with
      | None =>
          if negb (nameiparent =? 0) then iput ip ;;; ret (INull, name)
          else ret (ISlot ip, name)
      | Some (name, path) =>
          ilock ip ;;;
          i <- ip_get ip ;;
          if negb (type i =? T_DIR) then
            iunlockput ip ;;; ret (INull, name)
          else if negb (nameiparent =? 0) && (hd 0 path =? 0) then
            iunlock ip ;;; ret (ISlot ip, name)
          else
            r <- dirlookup ip name ;;
            match fst r with
            | ISlot next =>
                iunlockput ip ;;;
                let ip := next in
                ilock ip ;;;
                i <- ip_get ip ;;
                if type i =? T_SYMLINK then
                  let symlink_depth := to_int (symlink_depth + 1) in
                  if symlink_depth >? MAX_SYMLINK_DEPTH then
                    iunlockput ip ;;; ret (INull, name)
                  else
                    r <- readi ip 0 0 0 MAXPATH ;;
                    if fst r <=? 0 then
                      iunlockput ip ;;; ret (INull, name)
                    else
                      i <- ip_get ip ;;
                      if size i >=? MAXPATH then fault
                      else
                        let symlink_target := take (Z.to_nat (size i)) (snd r) in
                        iunlockput ip ;;;
                        iput ip ;;;
                        if hd 0 symlink_target =? slash then
                          ip <- iget ROOTDEV ROOTINO ;;
                          t <- namex_target (S (length symlink_target)) ip
                                            symlink_target name ;;
                          match fst t with
                          | None => ret (INull, snd t)
                          | Some ip =>
                              namex_loop fuel' ip path (snd t) nameiparent
                                         symlink_depth
                          end
                        else ret (INull, name)
                else
                  iunlock ip ;;;
                  namex_loop fuel' ip path name nameiparent symlink_depth
            | _ => iunlockput ip ;;; ret (INull, name)
            end
      end
  end.

(** [namex].  [cwd] is [myproc()->cwd]; [name] is the caller's buffer.
    Every turn of the loop takes at least one byte off [path]. *)
Definition namex (cwd : option nat) (path : list Z) (nameiparent : Z)
           (name : list Z) : M fs (iptr * list Z) :=
  if hd 0 path =? 0 then ret (INull, name)
  else
    ip <- (if hd 0 path =? slash then iget ROOTDEV ROOTINO
           else match cwd with
                | Some c => idup c
                | None => fault
                end) ;;
    namex_loop (S (length path)) ip path name nameiparent 0.

(** [namei]; its name buffer is a local whose content is not read. *)
Definition namei (cwd : option nat) (path : list Z) : M fs iptr :=
  r <- namex cwd path 0 [] ;; ret (fst r).

Definition nameiparent (cwd : option nat) (path name : list Z)
  : M fs (iptr * list Z) :=
  namex cwd path 1 name.

(** *** Inode allocation *)

(** The loop of [ialloc] from inode number [inm] on. *)
Fixpoint ialloc_loop (fuel : nat) (dv : Z) (typ : Z) (inm : Z) : M fs iptr :=
  match fuel with
  | O => ret (IErr (- Errno.EFS_INODE_FULL))
  | S fuel' =>
      s <- get ;;
      if inm <? sb_ninodes (sb s) then
        obp <- bread dv (IBLOCK inm (sb s)) ;;
        match obp with
        | None => ret (IErr (- Errno.EIO))
        | Some bp =>
            d <- buf_data bp ;;
            let k := inm mod IPB in
            if get_s16 d (dinode_at k "type") =? 0 then
              buf_store bp (fun d =>
                put_bytes
                (put_u32 (put_u32 (put_u32 (put_u32 (put_u16 (put_u16 (put_u16
                  (put_bytes d (dinode_at k "type")
                             (replicate (Z.to_nat sizeof_dinode) 0))
                  (dinode_at k "type") typ)
                  (dinode_at k "mode") 420 (* 0644 *))
                  (dinode_at k "uid") 0)
                  (dinode_at k "atime") 0)
                  (dinode_at k "mtime") 0)
                  (dinode_at k "ctime") 0)
                  (dinode_at k "blocks") 0)
                (dinode_at k "padding") (replicate 44 0)) ;;;
              log_block_write bp ;;;
              brelse bp ;;;
              ip <- iget dv inm ;;
              ret (ISlot ip)
            else
              brelse bp ;;;
              ialloc_loop fuel' dv typ (inm + 1)
        end
      else ret (IErr (- Errno.EFS_INODE_FULL))
  end.

(** [ialloc].  The loop runs once per inode number. *)
Definition ialloc (dv : Z) (typ : Z) : M fs iptr :=
  if negb (typ =? T_FILE) && negb (typ =? T_DIR) && negb (typ =? T_DEVICE)
  then ret (IErr (- Errno.EINVAL))
  else
    s <- get ;;
    ialloc_loop (Z.to_nat (sb_ninodes (sb s))) dv typ 1.

(** *** Writing *)

(** [iupdatemtime], with its static counter. *)
Definition iupdatemtime (ip : nat) : M fs unit :=
  s <- get ;;
  let current_time := to_uint (mtime_clock s + 1) in
  put (set_mtime_clock current_time s) ;;;
  ip_upd ip (set_mtime current_time).

(** [either_copyin]: the [len] bytes at [src], or [None] for -1.  For a
    kernel source [mem] holds the bytes from [src0] on. *)
Definition either_copyin (user_src src src0 : Z) (mem : list Z) (len : Z)
  : option (list Z) :=
  if user_src =? 0 then Some (get_bytes mem (src - src0) len)
  else copyin src len.

(** The loop of [writei]; it hands back [tot] and [off]. *)
Fixpoint writei_loop (fuel : nat) (ip : nat) (user_src src src0 : Z)
         (mem : list Z) (off n tot : Z) : M fs (Z * Z) :=
  match fuel with
  | O => ret (tot, off)
  | S fuel' =>
      if tot <? n then
        addr <- bmap ip (off / BSIZE) ;;
        if addr =? 0 then ret (tot, off)
        else
          i <- ip_get ip ;;
          bp <- bread_deref (dev i) addr ;;
          let m := Z.min (n - tot) (BSIZE - off mod BSIZE) in
          match either_copyin user_src src src0 mem m with
          | None => brelse bp ;;; ret (tot, off)
          | Some bytes =>
              buf_store bp (fun d => put_bytes d (off mod BSIZE) bytes) ;;;
              log_block_write bp ;;;
              brelse bp ;;;
              writei_loop fuel' ip user_src (to_uint64 (src + m)) src0 mem
                          (to_uint (off + m)) n (to_uint (tot + m))
          end
      else ret (tot, off)
  end.

(** [writei].  [mem] is the memory at [src] when [src] is a kernel
    address.  [MAXFILE*BSIZE] is computed in 64 bits. *)
Definition writei (ip : nat) (user_src src : Z) (mem : list Z) (off n : Z)
  : M fs Z :=
  i <- ip_get ip ;;
  if (off >? size i) || (to_uint (off + n) <? off) then ret (-1)
  else if to_uint (off + n) >? MAXFILE * BSIZE then ret (-1)
  else
    r <- writei_loop (Z.to_nat n) ip user_src src src mem off n 0 ;;
    let tot := fst r in
    let off := snd r in
    i <- ip_get ip ;;
    (if off >? size i then ip_upd ip (set_size off) else ret tt) ;;;
    (if tot >? 0 then iupdatemtime ip else ret tt) ;;;
    iupdate ip ;;;
    ret (to_int tot).

(** The second loop of [dirlink]: the offset of the first free entry,
    or the size of the directory. *)
Fixpoint dirlink_loop (fuel : nat) (dp : nat) (off : Z) : M fs Z :=
  match fuel with
  | O => ret off
  | S fuel' =>
      d <- ip_get dp ;;
      if off <? size d then
        r <- readi dp 0 0 off sizeof_dirent ;;
        if negb (fst r =? sizeof_dirent) then panic "dirlink read"
        else if get_u16 (snd r) (offsetof dirent_members "inum") =? 0
             then ret off
             else dirlink_loop fuel' dp (to_int (off + sizeof_dirent))
      else ret off
  end.

(** [strncpy(dst, s, n)]: the string [s] cut at [n] bytes and padded
    with zero bytes up to [n]. *)
Fixpoint strncpy (s : list Z) (n : nat) : list Z :=
  match n with
  | O => []
  | S n' =>
      if hd 0 s =? 0 then replicate n 0
      else hd 0 s :: strncpy (tl s) n'
  end.

(** [dirlink] *)
Definition dirlink (dp : nat) (name : list Z) (inm : Z) : M fs Z :=
  r <- dirlookup dp name ;;
  match fst r with
  | ISlot ip => iput ip ;;; ret (-1)
  | _ =>
      d <- ip_get dp ;;
      off <- dirlink_loop (Z.to_nat (size d / sizeof_dirent + 1)) dp 0 ;;
      let de := put_u16 (replicate 2 0) 0 inm
                ++ strncpy name (Z.to_nat DIRSIZ) in
      w <- writei dp 0 0 de (to_uint off) sizeof_dirent ;;
      if negb (w =? sizeof_dirent) then ret (-1) else ret 0
  end.

End WithParams.
End Fs.

(** ** kernel/sysfile.c, kernel/sysproc.c, kernel/syscall.c *)

Module Sys.
Import Layout FsLayout Fs.

(** [struct file] (file.h) with the members sysfile.c sets. *)
Inductive fdtype : Type := FD_NONE | FD_PIPE | FD_INODE | FD_DEVICE.

Record file : Type := {
  f_type : fdtype;
  f_ref : Z;
  f_readable : bool;
  f_writable : bool;
  f_ip : iptr;
  f_off : Z;
  f_major : Z;
}.

(** The kernel: process table, file system and file table. *)
Record kernel : Type := {
  pstate : Proc.kstate;
  fstate : fs;
  ftable : list file;
}.

Definition set_pstate (v : Proc.kstate) (k : kernel) : kernel :=
  {| pstate := v; fstate := fstate k; ftable := ftable k |}.
Definition set_fstate (v : fs) (k : kernel) : kernel :=
  {| pstate := pstate k; fstate := v; ftable := ftable k |}.
Definition set_ftable (v : list file) (k : kernel) : kernel :=
  {| pstate := pstate k; fstate := fstate k; ftable := v |}.

(** Running file-system code and process code inside the kernel. *)
Definition in_fs {A} (m : M fs A) : M kernel A :=
  fun k => match m (fstate k) with
           | Done a s => Done a (set_fstate s k)
           | Panic msg => Panic msg
           | Fault => Fault
           | Blocked => Blocked
           end.

Definition in_proc {A} (m : M Proc.kstate A) : M kernel A :=
  fun k => match m (pstate k) with
           | Done a s => Done a (set_pstate s k)
           | Panic msg => Panic msg
           | Fault => Fault
           | Blocked => Blocked
           end.

(** [myproc()] with the slot it points to. *)
Definition myproc : M kernel (nat * Proc.proc) :=
  k <- get ;;
  match Proc.cur (pstate k) with
  | None => fault
  | Some i =>
      match Proc.procs (pstate k) !! i with
      | Some p => ret (i, p)
      | None => fault
      end
  end.

Definition upd_myproc (f : Proc.proc -> Proc.proc) : M kernel unit :=
  ip <- myproc ;;
  modify (fun k => set_pstate (Proc.upd_proc (fst ip) f (pstate k)) k).

Definition mytrapframe : M kernel Proc.trapframe :=
  ip <- myproc ;;
  match Proc.tf (snd ip) with
  | Some t => ret t
  | None => fault
  end.

Section WithParams.
Context {P : KernelParams} {U : UserMem}.

(** The file table is kept in file.c, which is not among the sources:
    [filealloc] hands out a free entry or null, [fileclose] drops a
    reference. *)
Context (filealloc : M kernel (option nat)).
Context (fileclose : nat -> M kernel unit).

(** The handlers of the dispatch table that are not modelled, by
    system-call number. *)
Context (other_syscalls : Z -> M kernel Z).

(** *** syscall.c: arguments *)

Definition argraw (n : Z) : M kernel Z :=
  t <- mytrapframe ;;
  if n =? 0 then ret (Proc.a0 t)
  else if n =? 1 then ret (Proc.a1 t)
  else if n =? 2 then ret (Proc.a2 t)
  else if n =? 3 then ret (Proc.a3 t)
  else if n =? 4 then ret (Proc.a4 t)
  else if n =? 5 then ret (Proc.a5 t)
  else panic "argraw".

Definition argint (n : Z) : M kernel Z :=
  v <- argraw n ;; ret (to_int v).

Definition argaddr (n : Z) : M kernel Z := argraw n.

(** [fetchstr]: the string, or [None] for -1. *)
Definition fetchstr (addr max : Z) : M kernel (option (list Z)) :=
  myproc ;;; ret (copyinstr addr max).

Definition argstr (n max : Z) : M kernel (option (list Z)) :=
  addr <- argaddr n ;; fetchstr addr max.

(** *** sysfile.c *)

Definition mycwd : M kernel (option nat) :=
  ip <- myproc ;; ret (Proc.cwd (snd ip)).

Fixpoint fdalloc_scan (ofiles : list (option Z)) (fd : Z) : option Z :=
  match ofiles with
  | [] => None
  | None :: _ => Some fd
  | Some _ :: rest => fdalloc_scan rest (fd + 1)
  end.

(** [fdalloc] *)
Definition fdalloc (f : nat) : M kernel Z :=
  ip <- myproc ;;
  match fdalloc_scan (take (Z.to_nat NOFILE) (Proc.ofile (snd ip))) 0 with
  | Some fd =>
      upd_myproc (fun p =>
        Proc.set_ofile (<[Z.to_nat fd := Some (Z.of_nat f)]> (Proc.ofile p)) p) ;;;
      ret fd
  | None => ret (-1)
  end.

Definition dot : list Z := [46].
Definition dotdot : list Z := [46; 46].

(** [create]: a locked inode, or an error pointer. *)
Definition create (cwd : option nat) (path : list Z) (typ major minor : Z)
  : M fs iptr :=
  r <- nameiparent cwd path [] ;;
  match fst r with
  | ISlot dp =>
      let name := snd r in
      ilock dp ;;;
      l <- dirlookup dp name ;;
      match fst l with
      | ISlot ip =>
          iunlockput dp ;;;
          ilock ip ;;;
          i <- ip_get ip ;;
          if (typ =? T_FILE) && ((type i =? T_FILE) || (type i =? T_DEVICE))
          then ret (ISlot ip)
          else iunlockput ip ;;; ret (IErr (- Errno.EEXIST))
      | _ =>
          d <- ip_get dp ;;
          a <- ialloc (dev d) typ ;;
          if IS_ERR_PTR a then iunlockput dp ;;; ret a
          else
            match a with
            | ISlot ip =>
                ilock ip ;;;
                ip_upd ip (fun i => set_nlink 1 (set_minor minor (set_major major i))) ;;;
                iupdate ip ;;;
                i <- ip_get ip ;;
                d <- ip_get dp ;;
                failed <-
                  (if typ =? T_DIR then
                     r1 <- dirlink ip dot (inum i) ;;
                     if r1 <? 0 then ret true
                     else r2 <- dirlink ip dotdot (inum d) ;; ret (r2 <? 0)
                   else ret false) ;;
                failed <-
                  (if (failed : bool) then ret true
                   else r3 <- dirlink dp name (inum i) ;; ret (r3 <? 0)) ;;
                if (failed : bool) then
                  ip_upd ip (set_nlink 0) ;;;
                  iupdate ip ;;;
                  iunlockput ip ;;;
                  iunlockput dp ;;;
                  ret (IErr (- Errno.ENOSPC))
                else
                  (if typ =? T_DIR then
                     ip_upd dp (fun d => set_nlink (to_short (nlink d + 1)) d) ;;;
                     iupdate dp
                   else ret tt) ;;;
                  iunlockput dp ;;;
                  ret (ISlot ip)
            | _ => fault
            end
      end
  | _ => ret (IErr (- Errno.ENOENT))
  end.

Definition file_upd (f : nat) (g : file -> file) : M kernel unit :=
  modify (fun k => set_ftable (alter g f (ftable k)) k).

(** [sys_open] *)
Definition sys_open : M kernel Z :=
  omode <- argint 1 ;;
  opath <- argstr 0 MAXPATH ;;
  match opath with
  | None => ret (to_uint64 (- Errno.EINVAL))
  | Some path =>
      cwd <- mycwd ;;
      r <- (if negb (Z.land omode O_CREATE =? 0) then
              ip <- in_fs (create cwd path T_FILE 0 0) ;;
              if IS_ERR_PTR ip then
                match ip with
                | IErr code => ret (inr (to_uint64 (to_int code)))
                | _ => fault
                end
              else ret (inl ip)
            else
              ip <- in_fs (namei cwd path) ;;
              match ip with
              | INull => ret (inr (to_uint64 (- Errno.ENOENT)))
              | ISlot s =>
                  in_fs (ilock s) ;;;
                  i <- in_fs (ip_get s) ;;
                  if (type i =? T_DIR) && negb (omode =? O_RDONLY) then
                    in_fs (iunlockput s) ;;;
                    ret (inr (to_uint64 (- Errno.EISDIR)))
                  else ret (inl ip)
              | IErr _ => fault
              end) ;;
      match r with
      | inr code => ret code
      | inl (ISlot ip) =>
          i <- in_fs (ip_get ip) ;;
          if (type i =? T_DEVICE) && ((major i <? 0) || (major i >=? NDEV)) then
            in_fs (iunlockput ip) ;;;
            ret (to_uint64 (- Errno.ENXIO))
          else
            nf <- filealloc ;;
            ofd <- (match nf with
                    | None => ret None
                    | Some f =>
                        fd <- fdalloc f ;;
                        if fd <? 0 then fileclose f ;;; ret None
                        else ret (Some (f, fd))
                    end) ;;
            match ofd with
            | None =>
                in_fs (iunlockput ip) ;;;
                ret (to_uint64 (- Errno.EMFILE))
            | Some (f, fd) =>
                file_upd f (fun x =>
                  {| f_type := if type i =? T_DEVICE then FD_DEVICE else FD_INODE;
                     f_ref := f_ref x;
                     f_readable := Z.land omode O_WRONLY =? 0;
                     f_writable := negb (Z.land omode O_WRONLY =? 0)
                                   || negb (Z.land omode O_RDWR =? 0);
                     f_ip := ISlot ip;
                     f_off := if type i =? T_DEVICE then f_off x else 0;
                     f_major := if type i =? T_DEVICE then major i else f_major x |}) ;;;
                (if negb (Z.land omode O_TRUNC =? 0) && (type i =? T_FILE)
                 then in_fs (itrunc ip) else ret tt) ;;;
                in_fs (iunlock ip) ;;;
                ret (to_uint64 fd)
            end
      | inl _ => fault
      end
  end.

(** [sys_symlink].  The result of [ialloc] is compared with the null
    pointer only; locking anything but a table slot dereferences a wild
    pointer. *)
Definition sys_symlink : M kernel Z :=
  otarget <- argstr 0 MAXPATH ;;
  match otarget with
  | None => ret (to_uint64 (-1))
  | Some target =>
      olinkpath <- argstr 1 MAXPATH ;;
      match olinkpath with
      | None => ret (to_uint64 (-1))
      | Some linkpath =>
          cwd <- mycwd ;;
          r <- in_fs (nameiparent cwd linkpath []) ;;
          match fst r with
          | ISlot dp =>
              let name := snd r in
              in_fs (ilock dp) ;;;
              l <- in_fs (dirlookup dp name) ;;
              match fst l with
              | ISlot ip =>
                  in_fs (iunlockput dp) ;;;
                  in_fs (iput ip) ;;;
                  ret (to_uint64 (-1))
              | _ =>
                  d <- in_fs (ip_get dp) ;;
                  a <- in_fs (ialloc (dev d) T_SYMLINK) ;;
                  match a with
                  | INull =>
                      in_fs (iunlockput dp) ;;;
                      ret (to_uint64 (-1))
                  | IErr _ => fault
                  | ISlot ip =>
                      in_fs (ilock ip) ;;;
                      in_fs (ip_upd ip (set_nlink 1)) ;;;
                      in_fs (iupdate ip) ;;;
                      let len := Z.of_nat (length target) in
                      w <- in_fs (writei ip 0 0 target 0 len) ;;
                      if negb (w =? len) then
                        in_fs (ip_upd ip (set_nlink 0)) ;;;
                        in_fs (iupdate ip) ;;;
                        in_fs (iunlockput ip) ;;;
                        in_fs (iunlockput dp) ;;;
                        ret (to_uint64 (-1))
                      else
                        i <- in_fs (ip_get ip) ;;
                        dl <- in_fs (dirlink dp name (inum i)) ;;
                        if dl <? 0 then
                          in_fs (ip_upd ip (set_nlink 0)) ;;;
                          in_fs (iupdate ip) ;;;
                          in_fs (iunlockput ip) ;;;
                          in_fs (iunlockput dp) ;;;
                          ret (to_uint64 (-1))
                        else
                          in_fs (iunlockput dp) ;;;
                          in_fs (iunlockput ip) ;;;
                          ret 0
                  end
              end
          | _ => ret (to_uint64 (-1))
          end
      end
  end.

(** *** sysproc.c *)

Definition sys_getpid : M kernel Z :=
  ip <- myproc ;; ret (to_uint64 (Proc.pid (snd ip))).

Definition sys_geterrno : M kernel Z :=
  ip <- myproc ;; ret (to_uint64 (Proc.errno (snd ip))).

(** *** syscall.c: the dispatcher *)

Definition SYS_getpid : Z := 11.
Definition SYS_open : Z := 15.
Definition SYS_geterrno : Z := 24.
Definition SYS_symlink : Z := 26.

(** [NELEM(syscalls)]: the table is indexed up to [SYS_readlink] = 27. *)
Definition NELEM_syscalls : Z := 28.

(** [syscalls[num]]; entry 0 is null. *)
Definition syscalls (num : Z) : option (M kernel Z) :=
  if num =? SYS_getpid then Some sys_getpid
  else if num =? SYS_open then Some sys_open
  else if num =? SYS_geterrno then Some sys_geterrno
  else if num =? SYS_symlink then Some sys_symlink
  else if (1 <=? num) && (num <? NELEM_syscalls) then Some (other_syscalls num)
  else None.

(** [syscall] *)
Definition syscall : M kernel unit :=
  t <- mytrapframe ;;
  let num := to_int (Proc.a7 t) in
  match (if (num >? 0) && (num <? NELEM_syscalls) then syscalls num else None) with
  | Some handler =>
      r <- handler ;;
      t <- mytrapframe ;;
      if to_long r <? 0 then
        upd_myproc (fun p =>
          Proc.set_tf (Some (Proc.set_a0 (to_uint64 (-1)) t))
            (Proc.set_errno (to_int (- to_long r)) p))
      else
        upd_myproc (fun p =>
          Proc.set_tf (Some (Proc.set_a0 r t))
            (Proc.set_errno Errno.EOK p))
  | None =>
      upd_myproc (fun p =>
        Proc.set_tf (Some (Proc.set_a0 (to_uint64 (-1)) t))
          (Proc.set_errno Errno.ENOSYS p))
  end.

(** A system call as the user program issues it (usys.S): the number in
    [a7], the arguments in [a0], [a1], [a2], then [ecall]; the result is
    the [int] left in [a0]. *)
Definition ecall (num arg0 arg1 arg2 : Z) : M kernel Z :=
  t <- mytrapframe ;;
  upd_myproc (Proc.set_tf (Some
    {| Proc.epc := Proc.epc t; Proc.sp := Proc.sp t;
       Proc.a0 := to_uint64 arg0; Proc.a1 := to_uint64 arg1;
       Proc.a2 := to_uint64 arg2; Proc.a3 := Proc.a3 t;
       Proc.a4 := Proc.a4 t; Proc.a5 := Proc.a5 t;
       Proc.a7 := num |})) ;;;
  syscall ;;;
  t <- mytrapframe ;;
  ret (to_int (Proc.a0 t)).

(** The user program of the errno test: a failing [open] of the string
    at [path], two [geterrno], a [getpid] and a last [geterrno]. *)
Definition errno_persistence (path : Z) : M kernel (Z * Z * Z * Z * Z) :=
  fd <- ecall SYS_open path O_RDONLY 0 ;;
  err1 <- ecall SYS_geterrno 0 0 0 ;;
  err2 <- ecall SYS_geterrno 0 0 0 ;;
  pid <- ecall SYS_getpid 0 0 0 ;;
  err3 <- ecall SYS_geterrno 0 0 0 ;;
  ret (fd, err1, err2, pid, err3).

End WithParams.
End Sys.

(** ** kernel/proc.c: fork

    [kfork] reads and writes the process table, the inode table (the
    reference that [idup] takes on the working directory) and the file
    table, so it runs on the whole kernel state. *)

Module Fork.
Import Layout FsLayout Fs Sys.

(** [*q] for a pointer [q] into the process table. *)
Definition proc_at (i : nat) : M kernel Proc.proc :=
  k <- get ;;
  match Proc.procs (pstate k) !! i with
  | Some p => ret p
  | None => fault
  end.

(** [proc[i].f = ...] *)
Definition upd_at (i : nat) (f : Proc.proc -> Proc.proc) : M kernel unit :=
  modify (fun k => set_pstate (Proc.upd_proc i f (pstate k)) k).

(** [sizeof(p->name)], for [char name[16]] of proc.h. *)
Definition sizeof_name : Z := 16.

(** A collaborator that returns and touches the file table only. *)
Definition file_table_only (filedup : Z -> M kernel Z) : Prop :=
  forall f k, exists f' k',
    filedup f k = Done f' k' /\ pstate k' = pstate k /\ fstate k' = fstate k.

Section WithParams.
Context {P : KernelParams} {U : UserMem}.

(** file.c and string.c are not among the sources.  [filedup f] takes a
    reference on the open file [f] and returns the file to store;
    [safestrcpy s t n] is the content of the buffer [s] after the
    call. *)
Context (filedup : Z -> M kernel Z).
Context (safestrcpy : list Z -> list Z -> Z -> list Z).

(** [for(i = 0; i < NOFILE; i++) if(p->ofile[i]) np->ofile[i] =
    filedup(p->ofile[i]);] with [turns] turns left, at index [i].  An
    index outside a descriptor array does not occur in a table whose
    arrays have [NOFILE] entries. *)
Fixpoint dup_files (turns : nat) (i : nat) (pi np : nat) : M kernel unit :=
  match turns with
  | O => ret tt
  | S turns' =>
      p <- proc_at pi ;;
      match Proc.ofile p !! i with
      | None => fault
      | Some None => ret tt
      | Some (Some f) =>
          f' <- filedup f ;;
          c <- proc_at np ;;
          if (i <? length (Proc.ofile c))%nat then
            upd_at np (fun c =>
              Proc.set_ofile (<[i := Some f']> (Proc.ofile c)) c)
          else fault
      end ;;;
      dup_files turns' (S i) pi np
  end.

(** [kfork].  The result is the value returned to the parent. *)
Definition kfork (env : Proc.fork_env) : M kernel Z :=
  me <- myproc ;;
  let pi := fst me in
  onp <- in_proc (Proc.allocproc env) ;;
  match onp with
  | None => ret (-1)
  | Some np =>
      if Proc.uvmcopy_ret env <? 0 then
        upd_at np Proc.freeproc ;;; ret (-1)
      else
        p <- proc_at pi ;;
        upd_at np (Proc.set_sz (Proc.sz p)) ;;;
        p <- proc_at pi ;;
        c <- proc_at np ;;
        match Proc.tf p, Proc.tf c with
        | Some ptf, Some _ =>
            upd_at np (Proc.set_tf (Some ptf)) ;;;
            upd_at np (Proc.set_tf (Some (Proc.set_a0 0 ptf))) ;;;
            dup_files (Z.to_nat NOFILE) 0 pi np ;;;
            p <- proc_at pi ;;
            match Proc.cwd p with
            | None => fault
            | Some d =>
                ip <- in_fs (idup d) ;;
                upd_at np (Proc.set_cwd (Some ip)) ;;;
                p <- proc_at pi ;;
                upd_at np (fun c =>
                  Proc.set_name
                    (safestrcpy (Proc.name c) (Proc.name p) sizeof_name) c) ;;;
                c <- proc_at np ;;
                let pid := Proc.pid c in
                upd_at np (Proc.set_parent (Some pi)) ;;;
                upd_at np (Proc.set_state Proc.RUNNABLE) ;;;
                c <- proc_at np ;;
                let child_priority := Proc.priority c in
                let child_level := Proc.mlfq_level c in
                k <- get ;;
                (if Proc.is_mlfq (Proc.select_next_proc (pstate k))
                 then in_proc (modify (Proc.mlfq_add_process np child_level))
                 else ret tt) ;;;
                p <- proc_at pi ;;
                (if child_priority >? Proc.priority p
                 then in_proc Proc.yield else ret tt) ;;;
                ret pid
            end
        | _, _ => fault
        end
  end.

End WithParams.
End Fork.

(** ** More of kernel/proc.c: kill, sleep, the scheduler loop, wait *)

Module ProcExt.
Import Proc.

Definition set_chan (v : Z) (p : proc) : proc :=
  {| state := state p; chan := v; killed := killed p; xstate := xstate p;
     pid := pid p; priority := priority p; errno := errno p;
     mlfq_level := mlfq_level p; time_used := time_used p;
     time_quantum := time_quantum p; parent := parent p; sz := sz p;
     pagetable := pagetable p; tf := tf p; ofile := ofile p; cwd := cwd p;
     name := name p |}.

Definition set_killed (v : Z) (p : proc) : proc :=
  {| state := state p; chan := chan p; killed := v; xstate := xstate p;
     pid := pid p; priority := priority p; errno := errno p;
     mlfq_level := mlfq_level p; time_used := time_used p;
     time_quantum := time_quantum p; parent := parent p; sz := sz p;
     pagetable := pagetable p; tf := tf p; ofile := ofile p; cwd := cwd p;
     name := name p |}.

Definition set_priority (v : Z) (p : proc) : proc :=
  {| state := state p; chan := chan p; killed := killed p; xstate := xstate p;
     pid := pid p; priority := v; errno := errno p;
     mlfq_level := mlfq_level p; time_used := time_used p;
     time_quantum := time_quantum p; parent := parent p; sz := sz p;
     pagetable := pagetable p; tf := tf p; ofile := ofile p; cwd := cwd p;
     name := name p |}.

(** [p->mlfq_level], [p->time_quantum] and [p->time_used] together. *)
Definition set_mlfq_fields (level quantum used : Z) (p : proc) : proc :=
  {| state := state p; chan := chan p; killed := killed p; xstate := xstate p;
     pid := pid p; priority := priority p; errno := errno p;
     mlfq_level := level; time_used := used;
     time_quantum := quantum; parent := parent p; sz := sz p;
     pagetable := pagetable p; tf := tf p; ofile := ofile p; cwd := cwd p;
     name := name p |}.


Definition set_select_next_proc (v : selector) (k : kstate) : kstate :=
  {| procs := procs k; cur := cur k; nextpid := nextpid k;
     select_next_proc := v; mlfq_sched := mlfq_sched k |}.

(** [set_scheduler]; [None] is the null pointer. *)
Definition set_scheduler (sel : option selector) (k : kstate) : kstate :=
  match sel with
  | None => set_select_next_proc RoundRobin k
  | Some s => set_select_next_proc s k
  end.

(** scheduler_ext.c: [use_round_robin], [use_priority_scheduler],
    [use_mlfq_scheduler]. *)
Definition use_round_robin : kstate -> kstate := set_scheduler None.
Definition use_priority_scheduler : kstate -> kstate :=
  set_scheduler (Some Priority).
Definition use_mlfq_scheduler : kstate -> kstate := set_scheduler (Some Mlfq).

Section WithParams.
Context {P : KernelParams} {U : Fs.UserMem}.

(** The loop [for(p = proc; p < &proc[NPROC]; p++) if(p->pid == pid)] of
    [kkill], [sys_setpriority] and [sys_getpriority], from slot [i] on. *)
Fixpoint pid_scan (pd : Z) (ps : list proc) (i : nat) : option nat :=
  match ps with
  | [] => None
  | p :: rest => if pid p =? pd then Some i else pid_scan pd rest (S i)
  end.

(** [kkill] *)
Definition kkill (pd : Z) : M kstate Z :=
  k <- get ;;
  match pid_scan pd (firstn (Z.to_nat NPROC) (procs k)) 0%nat with
  | Some i =>
      modify (upd_proc i (set_killed 1)) ;;;
      modify (upd_proc i (fun p =>
        if procstate_eqb (state p) SLEEPING then set_state RUNNABLE p
        else p)) ;;;
      ret 0
  | None => ret (-1)
  end.

(** [setkilled] and [killed] *)
Definition setkilled (i : nat) : M kstate unit :=
  modify (upd_proc i (set_killed 1)).

Definition is_killed (i : nat) : M kstate Z :=
  k <- get ;;
  match procs k !! i with
  | Some p => ret (killed p)
  | None => fault
  end.

(** [sleep] up to its call of [sched]: the caller is off the queue of
    its level under MLFQ, and SLEEPING on the channel. *)
Definition sleep_enter (chn : Z) : M kstate unit :=
  k <- get ;;
  match cur k with
  | None => fault
  | Some i =>
      match procs k !! i with
      | None => fault
      | Some p =>
          (if is_mlfq (select_next_proc k)
           then modify (mlfq_remove_process i (mlfq_level p))
           else ret tt) ;;;
          modify (upd_proc i (set_chan chn)) ;;;
          modify (upd_proc i (set_state SLEEPING))
      end
  end.

(** [sleep] from the return of [sched] on: the caller runs again. *)
Definition sleep_return : M kstate unit :=
  k <- get ;;
  match cur k with
  | None => fault
  | Some i =>
      match procs k !! i with
      | None => fault
      | Some p =>
          modify (upd_proc i (set_chan 0)) ;;;
          if is_mlfq (select_next_proc k) then
            let level :=
              if mlfq_level p >? 0 then to_int (mlfq_level p - 1)
              else mlfq_level p in
            (if mlfq_level p >? 0 then
               modify (upd_proc i
                 (set_mlfq_fields level (to_int (Z.shiftl 1 level)) 0))
             else ret tt) ;;;
            modify (mlfq_add_process i level)
          else ret tt
      end
  end.



(** Process-table slots are also sleep channels: [proc_addr i] is the
    address [&proc[i]]; [initproc] is the slot of the first process. *)
Context (proc_addr : nat -> Z).
Context (initproc : nat).

(** The loop of [reparent] from slot [i] on. *)
Fixpoint reparent_scan (p : nat) (n : nat) (i : nat) (k : kstate) : kstate :=
  match n with
  | O => k
  | S n' =>
      match procs k !! i with
      | Some pp =>
          if bool_decide (parent pp = Some p) then
            reparent_scan p n' (S i)
              (wakeup (proc_addr initproc)
                 (upd_proc i (set_parent (Some initproc)) k))
          else reparent_scan p n' (S i) k
      | None => k
      end
  end.

Definition reparent (p : nat) (k : kstate) : kstate :=
  reparent_scan p (Z.to_nat NPROC) 0%nat k.

(** The scan of [kwait] over the table from slot [i] on: the first
    child that is a ZOMBIE, and [havekids]. *)
Fixpoint kwait_scan (self : nat) (ps : list proc) (i : nat) (havekids : bool)
  : option nat * bool :=
  match ps with
  | [] => (None, havekids)
  | pp :: rest =>
      if bool_decide (parent pp = Some self) then
        if procstate_eqb (state pp) ZOMBIE then (Some i, true)
        else kwait_scan self rest (S i) true
      else kwait_scan self rest (S i) havekids
  end.

(** One turn of the loop of [kwait]: [Some (r, st)] when [kwait] returns
    [r], with [st] the exit status it has copied out to [addr] if any;
    [None] when the caller goes to sleep on its own address, up to
    [sched]. *)
Definition kwait_turn (addr : Z) : M kstate (option (Z * option Z)) :=
  k <- get ;;
  match cur k with
  | None => fault
  | Some self =>
      match procs k !! self with
      | None => fault
      | Some p =>
          match kwait_scan self (firstn (Z.to_nat NPROC) (procs k)) 0%nat false with
          | (Some i, _) =>
              match procs k !! i with
              | None => fault
              | Some pp =>
                  if negb (addr =? 0) && negb (Fs.copyout_ok addr 4)
                  then ret (Some (-1, None))
                  else
                    modify (upd_proc i freeproc) ;;;
                    ret (Some (pid pp,
                               if addr =? 0 then None else Some (xstate pp)))
              end
          | (None, havekids) =>
              if negb havekids || negb (killed p =? 0)
              then ret (Some (-1, None))
              else sleep_enter (proc_addr self) ;;; ret None
          end
      end
  end.

End WithParams.
End ProcExt.


(** ** More of kernel/sysproc.c *)

Module SysProc.
Import Proc ProcExt Sys.

Section WithParams.
Context {P : KernelParams}.

(** [sys_setpriority] *)
Definition sys_setpriority : M kernel Z :=
  pd <- argint 0 ;;
  prio <- argint 1 ;;
  if (prio <? 0) || (prio >? 9) then ret (to_uint64 (- Errno.EINVAL))
  else if pd =? 0 then
    upd_myproc (set_priority prio) ;;; ret 0
  else
    k <- get ;;
    match pid_scan pd (firstn (Z.to_nat NPROC) (procs (pstate k))) 0%nat with
    | Some i =>
        in_proc (modify (upd_proc i (set_priority prio))) ;;; ret 0
    | None => ret (to_uint64 (- Errno.ESRCH))
    end.

(** [sys_getpriority] *)
Definition sys_getpriority : M kernel Z :=
  pd <- argint 0 ;;
  if pd =? 0 then
    ip <- myproc ;; ret (to_uint64 (priority (snd ip)))
  else
    k <- get ;;
    match pid_scan pd (firstn (Z.to_nat NPROC) (procs (pstate k))) 0%nat with
    | Some i =>
        match procs (pstate k) !! i with
        | Some p => ret (to_uint64 (priority p))
        | None => fault
        end
    | None => ret (to_uint64 (- Errno.ESRCH))
    end.

(** [sys_set_scheduler] *)
Definition sys_set_scheduler : M kernel Z :=
  ty <- argint 0 ;;
  if (ty <? 0) || (ty >? 2) then ret (to_uint64 (- Errno.EINVAL))
  else
    in_proc (modify (if ty =? 0 then use_round_robin
                     else if ty =? 1 then use_priority_scheduler
                     else use_mlfq_scheduler)) ;;;
    ret 0.

(** [sys_kill] *)
Definition sys_kill : M kernel Z :=
  pd <- argint 0 ;;
  r <- in_proc (kkill pd) ;;
  ret (to_uint64 r).

End WithParams.
End SysProc.

(** ** The specification's view of block mapping and of paths

    These definitions follow the words of the specification, to be compared
    with the code above. *)

Module FsSpec.
Import Layout FsLayout Fs.

(** "N = BLOCK_SIZE/4" *)
Definition N : Z := BSIZE / 4.

(** Where logical block [b] lives: a direct slot, an entry of the single
    indirect block, or a path through the double or triple indirect
    tree, one index per level. *)
Inductive location : Type :=
| Direct (slot : Z)
| Single (i : Z)
| Double (i j : Z)
| Triple (i j k : Z)
| Beyond.

(** "b < NDIRECT => direct slot; b < NDIRECT + N => single indirect;
    b < NDIRECT + N + N^2 => double indirect; otherwise triple indirect",
    up to the capacity NDIRECT + N + N^2 + N^3; the residual index is
    split by quotient and remainder by N at each level. *)
Definition locate (b : Z) : location :=
  if b <? NDIRECT then Direct b
  else if b <? NDIRECT + N then Single (b - NDIRECT)
  else if b <? NDIRECT + N + N ^ 2 then
    let r := b - NDIRECT - N in
    Double (r / N) (r mod N)
  else if b <? NDIRECT + N + N ^ 2 + N ^ 3 then
    let r := b - NDIRECT - N - N ^ 2 in
    Triple (r / N / N) (r / N mod N) (r mod N)
  else Beyond.

(** A location names the block it was computed from. *)
Definition names (l : location) (b : Z) : Prop :=
  match l with
  | Direct slot => b = slot /\ 0 <= slot < NDIRECT
  | Single i => b = NDIRECT + i /\ 0 <= i < N
  | Double i j => b = NDIRECT + N + (i * N + j) /\ 0 <= i < N /\ 0 <= j < N
  | Triple i j k =>
      b = NDIRECT + N + N ^ 2 + ((i * N + j) * N + k)
      /\ 0 <= i < N /\ 0 <= j < N /\ 0 <= k < N
  | Beyond => NDIRECT + N + N ^ 2 + N ^ 3 <= b
  end.

Section WithParams.
Context {P : KernelParams} {U : UserMem}.

(** The pointer in slot [slot] of the inode [i] held in table slot
    [ip], allocated if missing; [None] when there is no block to
    allocate. *)
Definition root_pointer (ip : nat) (i : inode) (slot : Z) : M fs (option Z) :=
  let addr := addr_at i slot in
  if addr =? 0 then
    addr <- balloc (dev i) ;;
    if addr =? 0 then ret None
    else ip_upd ip (set_addr slot addr) ;;; ret (Some addr)
  else ret (Some addr).

(** Entry [idx] of the indirect block [blk], allocated if missing; 0
    when there is no block to allocate. *)
Definition entry_pointer (dv blk idx : Z) : M fs Z :=
  bp <- bread_deref dv blk ;;
  addr <- buf_uint bp idx ;;
  if addr =? 0 then
    addr <- balloc dv ;;
    (if addr =? 0 then ret tt else buf_set_uint bp idx addr) ;;;
    ret addr
  else ret addr.

(** Down the tree from block [blk], one index per level. *)
Fixpoint descend (dv blk : Z) (idxs : list Z) : M fs Z :=
  match idxs with
  | [] => ret blk
  | idx :: rest =>
      addr <- entry_pointer dv blk idx ;;
      if addr =? 0 then ret 0 else descend dv addr rest
  end.

Definition through (ip : nat) (i : inode) (slot : Z) (idxs : list Z) : M fs Z :=
  r <- root_pointer ip i slot ;;
  match r with
  | None => ret 0
  | Some blk => descend (dev i) blk idxs
  end.

(** Block mapping by location. *)
Definition bmap_at (ip : nat) (l : location) : M fs Z :=
  i <- ip_get ip ;;
  match l with
  | Direct slot => through ip i slot []
  | Single x => through ip i NDIRECT [x]
  | Double x y => through ip i (NDIRECT + 1) [x; y]
  | Triple x y z => through ip i (NDIRECT + 2) [x; y; z]
  | Beyond => panic "bmap: out of range"
  end.

End WithParams.

(** *** What a mapping holds, without touching it *)

(** Entry [idx] of indirect block [blk], 0 if the block is missing. *)
Definition entry (s : fs) (dv blk idx : Z) : Z :=
  if blk =? 0 then 0
  else match disk s !! (dv, blk) with
       | Some d => get_u32 d (sizeof_uint * idx)
       | None => 0
       end.

(** The disk block of logical block [b], 0 if it or a block on the way
    to it is missing. *)
Definition resolve (s : fs) (i : inode) (b : Z) : Z :=
  match locate b with
  | Direct slot => addr_at i slot
  | Single x => entry s (dev i) (addr_at i NDIRECT) x
  | Double x y =>
      entry s (dev i) (entry s (dev i) (addr_at i (NDIRECT + 1)) x) y
  | Triple x y z =>
      entry s (dev i)
        (entry s (dev i) (entry s (dev i) (addr_at i (NDIRECT + 2)) x) y) z
  | Beyond => 0
  end.

(** Logical block [b] is allocated and its block is on the device. *)
Definition mapped (s : fs) (i : inode) (b : Z) : Prop :=
  resolve s i b <> 0 /\ is_Some (disk s !! (dev i, resolve s i b)).

(** The inode has no hole: every block below its size is mapped. *)
Definition dense (s : fs) (i : inode) : Prop :=
  forall b, 0 <= b -> b * BSIZE < size i -> mapped s i b.

(** *** Paths *)


(** The fields of a path between its slashes, empty ones included. *)
Fixpoint fields (path : list Z) : list (list Z) :=
  match path with
  | [] => [[]]
  | c :: rest =>
      if c =? slash then [] :: fields rest
      else match fields rest with
           | f :: fs => (c :: f) :: fs
           | [] => [[c]]
           end
  end.

Definition nonempty (f : list Z) : bool :=
  match f with [] => false | _ => true end.

(** The components of a path. *)
Definition components (path : list Z) : list (list Z) :=
  filter (fun f => nonempty f = true) (fields path).

(** The first [DIRSIZ] bytes of every component. *)
Definition truncated (path : list Z) : list (list Z) :=
  map (take (Z.to_nat DIRSIZ)) (components path).


Section Lookup.
Context {P : KernelParams} {U : UserMem}.



End Lookup.

(** The name field of a directory entry as [namecmp] reads it: its bytes
    up to the first zero byte, and at most [DIRSIZ] of them. *)
Fixpoint until_nul (d : list Z) : list Z :=
  match d with
  | [] => []
  | c :: d' => if c =? 0 then [] else c :: until_nul d'
  end.



End FsSpec.


(** ** Well-formedness of inodes and blocks *)

Module FsInv.
Import Layout FsLayout Fs.

(** Every member of the inode that is written to disk is within the
    range of its C type. *)
Definition dinode_fields_ok (i : inode) : Prop :=
  (- 2 ^ 15 <= type i < 2 ^ 15)
  /\ (- 2 ^ 15 <= major i < 2 ^ 15)
  /\ (- 2 ^ 15 <= minor i < 2 ^ 15)
  /\ (- 2 ^ 15 <= nlink i < 2 ^ 15)
  /\ (0 <= size i < 2 ^ 32)
  /\ length (addrs i) = Z.to_nat (NDIRECT + 3)
  /\ Forall (fun a => 0 <= a < 2 ^ 32) (addrs i)
  /\ (0 <= mode i < 2 ^ 16)
  /\ (0 <= uid i < 2 ^ 16)
  /\ (0 <= atime i < 2 ^ 32)
  /\ (0 <= mtime i < 2 ^ 32)
  /\ (0 <= ctime i < 2 ^ 32)
  /\ (0 <= blocks i < 2 ^ 32)
  /\ length (padding i) = 44%nat.

(** A block of [BSIZE] bytes. *)
Definition block_ok (d : list Z) : Prop :=
  length d = Z.to_nat BSIZE /\ Forall (fun x => 0 <= x < 256) d.

(** The bit of block [b] in the free bitmap of device [dv]. *)
Definition bitmap_bit (s : fs) (dv b : Z) : option bool :=
  match disk s !! (dv, BBLOCK b (sb s)) with
  | Some d =>
      Some (negb (Z.land (get_u8 d (b mod BPB / 8))
                         (Z.shiftl 1 (b mod BPB mod 8)) =? 0))
  | None => None
  end.

(** Two byte sequences that agree outside the bytes [lo .. hi). *)
Definition same_outside (lo hi : Z) (b b' : list Z) : Prop :=
  forall x, 0 <= x -> x < lo \/ hi <= x -> get_u8 b' x = get_u8 b x.

(** The stores of [iupdate] into the [k]-th dinode of a block, and the
    loads of [ilock] from it. *)
Definition dinode_put (k : Z) (i : inode) (d : list Z) : list Z :=
  put_bytes
  (put_u32 (put_u32 (put_u32 (put_u32 (put_u16 (put_u16
  (fold_left (fun d' j => put_u32 d' (dinode_at k "addrs" + 4 * j)
                            (addr_at i j))
             (seqZ 0 (NDIRECT + 3))
  (put_u32 (put_u16 (put_u16 (put_u16 (put_u16 d
    (dinode_at k "type") (type i))
    (dinode_at k "major") (major i))
    (dinode_at k "minor") (minor i))
    (dinode_at k "nlink") (nlink i))
    (dinode_at k "size") (size i)))
    (dinode_at k "mode") (mode i))
    (dinode_at k "uid") (uid i))
    (dinode_at k "atime") (atime i))
    (dinode_at k "mtime") (mtime i))
    (dinode_at k "ctime") (ctime i))
    (dinode_at k "blocks") (blocks i))
  (dinode_at k "padding") (take 44 (padding i ++ replicate 44 0)).

Definition dinode_get (k : Z) (d : list Z) (i : inode) : inode :=
  set_padding (get_bytes d (dinode_at k "padding") 44)
  (set_blocks (get_u32 d (dinode_at k "blocks"))
  (set_ctime (get_u32 d (dinode_at k "ctime"))
  (set_mtime (get_u32 d (dinode_at k "mtime"))
  (set_atime (get_u32 d (dinode_at k "atime"))
  (set_uid (get_u16 d (dinode_at k "uid"))
  (set_mode (get_u16 d (dinode_at k "mode"))
  (set_addrs (map (fun j => get_u32 d (dinode_at k "addrs" + 4 * j))
                  (seqZ 0 (NDIRECT + 3)))
  (set_size (get_u32 d (dinode_at k "size"))
  (set_nlink (get_s16 d (dinode_at k "nlink"))
  (set_minor (get_s16 d (dinode_at k "minor"))
  (set_major (get_s16 d (dinode_at k "major"))
  (set_type (get_s16 d (dinode_at k "type")) i)))))))))))).

End FsInv.

(** ** Concrete states

    A small formatted device and a process table, for running the code.
    The device has 64 blocks: boot block, super block, 30 log blocks, one
    block of inodes (block 32), one bitmap block (block 33) and data blocks
    from 34 on.  The root directory holds two symbolic links that point at
    each other, a file whose only block was never allocated, and a file
    with a name of [DIRSIZ] bytes. *)

Module Image.
Import Layout FsLayout Fs.

Definition chars (s : String.string) : list Z :=
  map (fun a => Z.of_nat (Ascii.nat_of_ascii a)) (String.list_ascii_of_string s).

Definition pad (n : nat) (l : list Z) : list Z := take n (l ++ replicate n 0).

(** The bytes of a [struct dinode]. *)
Definition dinode_bytes (typ nlnk sz : Z) (adrs : list Z) : list Z :=
  put_u32
    (put_u16
       (put_u16
          (fold_left (fun d j => put_u32 d (offsetof dinode_members "addrs" + 4 * j)
                                   (default 0 (adrs !! Z.to_nat j)))
                     (seqZ 0 (NDIRECT + 3))
                     (replicate (Z.to_nat sizeof_dinode) 0))
          (offsetof dinode_members "type") typ)
       (offsetof dinode_members "nlink") nlnk)
    (offsetof dinode_members "size") sz.

(** The bytes of a [struct dirent]. *)
Definition dirent_bytes (inm : Z) (nm : list Z) : list Z :=
  put_u16 (replicate 2 0) 0 inm ++ pad (Z.to_nat DIRSIZ) nm.

Definition empty_inode : inode :=
  Build_inode 0 0 0 false 0 0 0 0 0 0 (replicate 13 0) 0 0 0 0 0 0
              (replicate 44 0).

Definition sb0 : superblock :=
  {| sb_magic := FSMAGIC; sb_size := 64; sb_nblocks := 30; sb_ninodes := 32;
     sb_nlog := 30; sb_logstart := 2; sb_inodestart := 32; sb_bmapstart := 33 |}.

(** A name of exactly [DIRSIZ] bytes, and longer ones that start with it. *)
Definition long_name : list Z := replicate (Z.to_nat DIRSIZ) 97.

Definition blocks0 : list ((Z * Z) * block) :=
  [ ((1, 32), pad 4096 (replicate 128 0
                        ++ dinode_bytes 1 1 384 [34]
                        ++ dinode_bytes 4 1 3 [35]
                        ++ dinode_bytes 4 1 3 [36]
                        ++ dinode_bytes 2 1 4096 []
                        ++ dinode_bytes 2 1 0 []));
    ((1, 33), pad 4096 [255; 255; 255; 255; 31]);
    ((1, 34), pad 4096 (dirent_bytes 1 (chars ".")
                        ++ dirent_bytes 1 (chars "..")
                        ++ dirent_bytes 2 (chars "l1")
                        ++ dirent_bytes 3 (chars "l2")
                        ++ dirent_bytes 4 (chars "hole")
                        ++ dirent_bytes 5 long_name));
    ((1, 35), pad 4096 (chars "/l2"));
    ((1, 36), pad 4096 (chars "/l1")) ].

Definition img : fs :=
  {| disk := list_to_map
               (blocks0 ++ map (fun b => ((1, b), zero_block)) (seqZ 0 64));
     sb := sb0;
     itable := replicate 50 empty_inode;
     atime_clock := 0;
     mtime_clock := 0 |}.

#[local] Existing Instance xv6_params.

(** Two paths whose only component starts with the 62 bytes of
    [long_name]. *)
Definition path_a : list Z := chars "/" ++ long_name ++ chars "xyz".

(** The image once the root directory is referenced and locked: its
    inode sits in slot 0 of the inode table. *)
Definition img_root : fs :=
  match (bind (iget 1 1) (ilock)) img with
  | Done _ s => s
  | _ => img
  end.

Definition root_inode : inode :=
  default empty_inode (itable img_root !! 0%nat).

(** User memory that holds the strings "/nonexistent" at address 4096,
    "/target" at 8192 and "/newlink" at 12288, and accepts every store. *)
Definition umem : UserMem :=
  {| copyout_ok := fun _ _ => true;
     copyin := fun _ _ => None;
     copyinstr := fun addr max =>
       if (addr =? 4096) && (12 <? max) then Some (chars "/nonexistent")
       else if (addr =? 8192) && (7 <? max) then Some (chars "/target")
       else if (addr =? 12288) && (8 <? max) then Some (chars "/newlink")
       else None |}.

Definition tf0 : Proc.trapframe :=
  {| Proc.epc := 0; Proc.sp := 0; Proc.a0 := 0; Proc.a1 := 0; Proc.a2 := 0;
     Proc.a3 := 0; Proc.a4 := 0; Proc.a5 := 0; Proc.a7 := 0 |}.

Definition unused_proc : Proc.proc :=
  {| Proc.state := Proc.UNUSED; Proc.chan := 0; Proc.killed := 0;
     Proc.xstate := 0; Proc.pid := 0; Proc.priority := 0; Proc.errno := 0;
     Proc.mlfq_level := 0; Proc.time_used := 0; Proc.time_quantum := 0;
     Proc.parent := None; Proc.sz := 0; Proc.pagetable := 0;
     Proc.tf := None; Proc.ofile := replicate 16 None; Proc.cwd := None;
     Proc.name := replicate 16 0 |}.

(** A process in state [st] with the given pid, priority, level and
    sleep channel. *)
Definition a_proc (st : Proc.procstate) (pd prio level chn : Z) : Proc.proc :=
  {| Proc.state := st; Proc.chan := chn; Proc.killed := 0;
     Proc.xstate := 0; Proc.pid := pd; Proc.priority := prio; Proc.errno := 0;
     Proc.mlfq_level := level; Proc.time_used := 0;
     Proc.time_quantum := 2 ^ level;
     Proc.parent := None; Proc.sz := 4096; Proc.pagetable := 1;
     Proc.tf := Some tf0; Proc.ofile := replicate 16 None; Proc.cwd := None;
     Proc.name := replicate 16 0 |}.

Definition table (ps : list Proc.proc) : list Proc.proc :=
  take 64 (ps ++ replicate 64 unused_proc).

Definition mlfq0 (qs : list Proc.priority_queue) : Proc.mlfq :=
  {| Proc.queues := qs; Proc.current_level := 0;
     Proc.time_slices := [1; 2; 4; 8; 16] |}.

(** Process 3 runs in slot 0 at MLFQ level 2, under the MLFQ selector. *)
Definition k_mlfq : Proc.kstate :=
  {| Proc.procs := table [a_proc Proc.RUNNING 3 5 2 0];
     Proc.cur := Some 0%nat;
     Proc.nextpid := 4;
     Proc.select_next_proc := Proc.Mlfq;
     Proc.mlfq_sched := mlfq0 [[]; []; []; []; []] |}.

Definition env_ok : Proc.fork_env :=
  {| Proc.kalloc_page := Some tf0; Proc.new_pagetable := 2;
     Proc.uvmcopy_ret := 0 |}.

(** Slot 0 runs; slots 1 to 4 are runnable with priorities 3, 9, 6, 9. *)
Definition k_prio : Proc.kstate :=
  {| Proc.procs := table [a_proc Proc.RUNNING 1 5 0 0;
                          a_proc Proc.RUNNABLE 2 3 0 0;
                          a_proc Proc.RUNNABLE 3 9 0 0;
                          a_proc Proc.RUNNABLE 4 6 0 0;
                          a_proc Proc.RUNNABLE 5 9 0 0];
     Proc.cur := Some 0%nat;
     Proc.nextpid := 6;
     Proc.select_next_proc := Proc.Priority;
     Proc.mlfq_sched := mlfq0 [[]; []; []; []; []] |}.

(** Slot 0 runs; slots 1 and 3 sleep on channel 7, slot 2 on channel 8. *)
Definition k_sleep : Proc.kstate :=
  {| Proc.procs := table [a_proc Proc.RUNNING 1 5 0 0;
                          a_proc Proc.SLEEPING 2 5 0 7;
                          a_proc Proc.SLEEPING 3 5 0 8;
                          a_proc Proc.SLEEPING 4 5 0 7];
     Proc.cur := Some 0%nat;
     Proc.nextpid := 5;
     Proc.select_next_proc := Proc.RoundRobin;
     Proc.mlfq_sched := mlfq0 [[]; []; []; []; []] |}.

(** The kernel with process 3 running on the image. *)
Definition kernel0 : Sys.kernel :=
  {| Sys.pstate := k_mlfq; Sys.fstate := img; Sys.ftable := [] |}.


(** The image after [namei("/")], as [userinit] takes the working
    directory of the first process: the root inode sits in slot 0 of the
    inode table, referenced once. *)
Definition img_cwd : fs :=
  match namei (U := umem) None (chars "/") img with
  | Done _ s => s
  | _ => img
  end.

Definition cwd_inode : inode :=
  default empty_inode (itable img_cwd !! 0%nat).

(** The console, open once. *)
Definition console : Sys.file :=
  {| Sys.f_type := Sys.FD_DEVICE; Sys.f_ref := 1; Sys.f_readable := true;
     Sys.f_writable := true; Sys.f_ip := INull; Sys.f_off := 0;
     Sys.f_major := 1 |}.

(** Modelled from the spec: "duplicate open files (bump file
    refcounts)".  The reference count of entry [f] of the file table goes
    up by one and [f] is handed back; it stands for [filedup] of file.c
    in the runs of fork. *)
Definition bump_ref (f : Z) : M Sys.kernel Z :=
  modify (fun k =>
    Sys.set_ftable
      (alter (fun e =>
         {| Sys.f_type := Sys.f_type e; Sys.f_ref := to_int (Sys.f_ref e + 1);
            Sys.f_readable := Sys.f_readable e;
            Sys.f_writable := Sys.f_writable e; Sys.f_ip := Sys.f_ip e;
            Sys.f_off := Sys.f_off e; Sys.f_major := Sys.f_major e |})
         (Z.to_nat f) (Sys.ftable k)) k) ;;;
  ret f.

(** A bounded string copy, which stands for [safestrcpy] of string.c in
    the runs of fork: at most [n - 1] bytes of [t] before its terminator
    and a zero byte after them; the rest of [s] stays. *)
Definition copy_name (s t : list Z) (n : Z) : list Z :=
  if n <=? 0 then s
  else
    let body := take (Z.to_nat (n - 1)) (FsSpec.until_nul t) in
    body ++ [0] ++ drop (S (length body)) s.

(** A shell, pid 3, that runs in slot 0 at MLFQ level 2 and stands on
    the queue of that level; its working directory is the root directory
    and its descriptor 0 is the console. *)
Definition sh : Proc.proc :=
  Proc.set_name (pad 16 (chars "sh"))
    (Proc.set_cwd (Some 0%nat)
       (Proc.set_ofile (<[0%nat := Some 0]> (replicate 16 None))
          (a_proc Proc.RUNNING 3 5 2 0))).

Definition k_fork : Sys.kernel :=
  {| Sys.pstate :=
       {| Proc.procs := table [sh];
          Proc.cur := Some 0%nat;
          Proc.nextpid := 4;
          Proc.select_next_proc := Proc.Mlfq;
          Proc.mlfq_sched := mlfq0 [[]; []; [0%nat]; []; []] |};
     Sys.fstate := img_cwd;
     Sys.ftable := [console] |}.

(** The address [&proc[i]] of a slot of the process table, on which a
    process sleeps in [kwait]. *)
Definition proc_addr (i : nat) : Z := 65536 + 512 * Z.of_nat i.

(** The first process (pid 1) sleeps in [kwait] on its own address; the
    shell (pid 2), its child, runs in slot 1 and has two children: a
    ZOMBIE (pid 3) in slot 2 and a process that sleeps on channel 9 in
    slot 3. *)
Definition k_wait : Proc.kstate :=
  {| Proc.procs :=
       table [a_proc Proc.SLEEPING 1 5 0 (proc_addr 0);
              Proc.set_parent (Some 0%nat) (a_proc Proc.RUNNING 2 5 0 0);
              Proc.set_parent (Some 1%nat) (a_proc Proc.ZOMBIE 3 5 0 0);
              Proc.set_parent (Some 1%nat) (a_proc Proc.SLEEPING 4 5 0 9)];
     Proc.cur := Some 1%nat;
     Proc.nextpid := 5;
     Proc.select_next_proc := Proc.RoundRobin;
     Proc.mlfq_sched := mlfq0 [[]; []; []; []; []] |}.

(** The kernel [k] when the process in slot 0 has trapped for the
    system call [num] with the arguments [x] and [y], its last error
    being [e]. *)
Definition at_call (num x y e : Z) (k : Sys.kernel) : Sys.kernel :=
  Sys.set_pstate
    (Proc.upd_proc 0
       (fun p =>
          Proc.set_errno e
            (Proc.set_tf
               (Some {| Proc.epc := 0; Proc.sp := 0; Proc.a0 := x;
                        Proc.a1 := y; Proc.a2 := 0; Proc.a3 := 0;
                        Proc.a4 := 0; Proc.a5 := 0; Proc.a7 := num |}) p))
       (Sys.pstate k)) k.

(** The state in which a run ends, the initial state if it does not
    return. *)
Definition final {S A} (m : M S A) (s : S) : S :=
  match m s with
  | Done _ s' => s'
  | _ => s
  end.

(** A fork environment without memory for the trap frame. *)
Definition env_nomem : Proc.fork_env :=
  {| Proc.kalloc_page := None; Proc.new_pagetable := 2;
     Proc.uvmcopy_ret := 0 |}.

(** The image once the root inode has been read in and unlocked again:
    the inode sits in slot 0, valid, with one reference. *)
Definition img_unlocked : fs :=
  final (bind (iget 1 1)
           (fun ip => bind (ilock ip) (fun _ => iunlock ip))) img.

Definition unlocked_root : inode :=
  default empty_inode (itable img_unlocked !! 0%nat).

End Image.

(** * Properties *)

(** ** The kernel monad *)

Lemma bind_assoc {S A B C} (m : M S A) (f : A -> M S B) (g : B -> M S C) s :
  bind (bind m f) g s = bind m (fun x => bind (f x) g) s.
Proof. unfold bind. destruct (m s); reflexivity. Qed.

Lemma bind_ret_l {S A B} (a : A) (k : A -> M S B) s : bind (ret a) k s = k a s.
Proof. reflexivity. Qed.

Lemma bind_done {S A B} (m : M S A) (f : A -> M S B) s a s' :
  m s = Done a s' -> bind m f s = f a s'.
Proof. intros H. unfold bind. rewrite H. reflexivity. Qed.

Lemma get_bind {S B} (f : S -> M S B) s : bind get f s = f s s.
Proof. reflexivity. Qed.

Lemma bind_ext {S A B} (m : M S A) (k1 k2 : A -> M S B) s :
  (forall a s', k1 a s' = k2 a s') -> bind m k1 s = bind m k2 s.
Proof. intros H. unfold bind. destruct (m s); auto. Qed.

(** Two runs of monadic code are compared head by head: the heads are
    brought into the form [bind m k] with [m] not itself a [bind], equal
    heads are stripped, and tests are split. *)
Ltac norm :=
  repeat first
    [ rewrite bind_assoc
    | rewrite bind_ret_l
    | progress unfold Fs.log_block_write, Fs.brelse ].

Ltac mstep :=
  norm;
  match goal with
  | |- ?x = ?x => reflexivity
  | |- bind ?m _ ?s = bind ?m _ ?s => apply bind_ext; intros
  | |- context [if ?c then _ else _] => destruct c eqn:?
  | |- context [match ?o with Some _ => _ | None => _ end] => destruct o eqn:?
  end.

Ltac mdone :=
  repeat match goal with
         | H : (_ =? _) = true |- _ => apply Z.eqb_eq in H; subst
         end;
  try reflexivity; try congruence.

(** ** Machine integers *)

Lemma to_int_small x : - 2 ^ 31 <= x < 2 ^ 31 -> to_int x = x.
Proof.
  intros H. unfold to_int, swrap. change (32 - 1) with 31.
  rewrite Z.mod_small; [lia|].
  change (2 ^ 32) with (2 * 2 ^ 31). lia.
Qed.

(** ** On-disk layout *)

Module LayoutFacts.
Import Layout FsLayout.

Lemma dinode_member_offsets :
  fst (place dinode_members 0)
  = [("type", 0); ("major", 2); ("minor", 4); ("nlink", 6); ("size", 8);
     ("addrs", 12); ("mode", 64); ("uid", 66); ("atime", 68); ("mtime", 72);
     ("ctime", 76); ("blocks", 80); ("padding", 84)].
Proof. reflexivity. Qed.

Lemma sizeof_dirent_64 : sizeof_dirent = 64.
Proof. reflexivity. Qed.

(** C9, as stated: the record has 128 bytes and IPB is 16.  The second
    half fails: the code computes IPB as 4096 / 128. *)
Lemma dinode_sixteen_per_block_fails :
  ~ (sizeof_dinode = 128 /\ IPB = 16).
Proof. intros [_ H]. vm_compute in H. discriminate H. Qed.

(** C9, amended: the dinode record, explicit padding included, is exactly
    128 bytes, and exactly thirty-two dinodes fit per 4096-byte block:
    IPB = BSIZE / sizeof(struct dinode) = 32, with no byte left over. *)
Theorem dinode_packing :
  sizeof_dinode = 128
  /\ offsetof dinode_members "padding" + 44 = sizeof_dinode
  /\ BSIZE = 4096
  /\ IPB = 32
  /\ IPB * sizeof_dinode = BSIZE.
Proof. repeat split; reflexivity. Qed.

End LayoutFacts.

(** ** Process table *)

Module ProcFacts.
Import Proc.

Lemma procstate_eqb_eq a b : procstate_eqb a b = true <-> a = b.
Proof. destruct a, b; simpl; split; intros H; congruence. Qed.

Section WithParams.
Context {P : KernelParams}.

(** *** wakeup *)

Lemma wakeup_scan_lookup self chn ps i0 j p :
  ps !! j = Some p ->
  wakeup_scan self chn ps i0 !! j
  = Some (if wakes self chn (i0 + j) p then set_state RUNNABLE p else p).
Proof.
  revert i0 j. induction ps as [|q ps IH]; intros i0 j Hj; [discriminate|].
  destruct j as [|j]; simpl in *.
  - inversion Hj; subst q. unfold wakes. rewrite Nat.add_0_r.
    destruct (bool_decide (Some i0 = self)); simpl; [reflexivity|].
    destruct (procstate_eqb (state p) SLEEPING && (chan p =? chn));
      reflexivity.
  - rewrite (IH (S i0) j Hj).
    now replace (S i0 + j)%nat with (i0 + S j)%nat by lia.
Qed.

Lemma wakeup_scan_length self chn ps i0 :
  length (wakeup_scan self chn ps i0) = length ps.
Proof.
  revert i0. induction ps as [|q ps IH]; intros i0; simpl; [reflexivity|].
  now rewrite IH.
Qed.

Lemma wakes_spec self chn i p :
  wakes self chn i p = true
  <-> Some i <> self /\ state p = SLEEPING /\ chan p = chn.
Proof.
  unfold wakes. rewrite !andb_true_iff, negb_true_iff, bool_decide_eq_false,
    procstate_eqb_eq, Z.eqb_eq. tauto.
Qed.

(** C8: for every channel, [wakeup] walks the process table, skips the
    calling process, and makes runnable exactly the other processes that
    sleep on that channel; every other slot, and everything else in the
    kernel state, is left as it was. *)
Theorem wakeup_spec (chn : Z) (k : kstate) (i : nat) (p : proc) :
  procs k !! i = Some p ->
  (i < Z.to_nat NPROC)%nat ->
  (Some i <> cur k /\ state p = SLEEPING /\ chan p = chn ->
     procs (wakeup chn k) !! i = Some (set_state RUNNABLE p))
  /\ (~ (Some i <> cur k /\ state p = SLEEPING /\ chan p = chn) ->
     procs (wakeup chn k) !! i = Some p)
  /\ length (procs (wakeup chn k)) = length (procs k)
  /\ cur (wakeup chn k) = cur k
  /\ nextpid (wakeup chn k) = nextpid k
  /\ select_next_proc (wakeup chn k) = select_next_proc k
  /\ mlfq_sched (wakeup chn k) = mlfq_sched k.
Proof.
  intros Hi Hlt.
  assert (Hlook : procs (wakeup chn k) !! i
                  = Some (if wakes (cur k) chn i p
                          then set_state RUNNABLE p else p)).
  { unfold wakeup; simpl.
    rewrite lookup_app_l
      by (rewrite wakeup_scan_length, length_take; apply lookup_lt_Some in Hi; lia).
    rewrite (wakeup_scan_lookup (cur k) chn _ 0%nat i p)
      by (rewrite lookup_take_lt by lia; exact Hi).
    reflexivity. }
  repeat split; try reflexivity.
  - intros Hw. apply wakes_spec in Hw. now rewrite Hlook, Hw.
  - intros Hw. rewrite Hlook.
    destruct (wakes (cur k) chn i p) eqn:E; [|reflexivity].
    apply wakes_spec in E. contradiction.
  - unfold wakeup; simpl.
    rewrite length_app, wakeup_scan_length, <- length_app, take_drop.
    reflexivity.
Qed.

(** *** priority_scheduler *)

Lemma priority_scan_spec ps i0 best hi :
  (priority_scan ps i0 best hi = best
   /\ forall j q, ps !! j = Some q -> state q = RUNNABLE -> priority q <= hi)
  \/ (exists j p,
        priority_scan ps i0 best hi = Some (i0 + j)%nat
        /\ ps !! j = Some p /\ state p = RUNNABLE /\ hi < priority p
        /\ forall j' q, ps !! j' = Some q -> state q = RUNNABLE ->
             priority q <= priority p
             /\ (priority q = priority p -> (j <= j')%nat)).
Proof.
  revert i0 best hi. induction ps as [|p ps IH]; intros i0 best hi.
  - left. split; [reflexivity|]. intros j q Hq. discriminate Hq.
  - simpl.
    destruct (procstate_eqb (state p) RUNNABLE && (priority p >? hi)) eqn:E.
    + apply andb_true_iff in E as [Er Ep].
      apply procstate_eqb_eq in Er. apply Z.gtb_lt in Ep.
      right.
      destruct (IH (S i0) (Some i0) (priority p))
        as [[Hr Hall] | (j & p' & Hr & Hj & Hs & Hlt & Hall)].
      * exists 0%nat, p. rewrite Hr, Nat.add_0_r.
        repeat split; try assumption; try reflexivity.
        -- destruct j' as [|j']; simpl in H.
           ++ inversion H; subst q. lia.
           ++ eapply Hall; eassumption.
        -- lia.
      * exists (S j), p'. rewrite Hr.
        replace (S i0 + j)%nat with (i0 + S j)%nat by lia.
        repeat split; try assumption; try lia.
        -- destruct j' as [|j']; simpl in H.
           ++ inversion H; subst q. lia.
           ++ eapply Hall; eassumption.
        -- destruct j' as [|j']; simpl in H; intros Heq.
           ++ inversion H; subst q. lia.
           ++ apply le_n_S. eapply Hall; eassumption.
    + assert (Hp : state p = RUNNABLE -> priority p <= hi).
      { intros Hs. apply procstate_eqb_eq in Hs. rewrite Hs in E.
        simpl in E. rewrite Z.gtb_ltb in E. apply Z.ltb_ge in E. exact E. }
      destruct (IH (S i0) best hi)
        as [[Hr Hall] | (j & p' & Hr & Hj & Hs & Hlt & Hall)].
      * left. split; [assumption|].
        intros [|j] q Hq Hs; simpl in Hq.
        -- inversion Hq; subst q. auto.
        -- eapply Hall; eassumption.
      * right. exists (S j), p'. rewrite Hr.
        replace (S i0 + j)%nat with (i0 + S j)%nat by lia.
        repeat split; try assumption; try lia.
        -- destruct j' as [|j']; simpl in H.
           ++ inversion H; subst q. specialize (Hp H0). lia.
           ++ eapply Hall; eassumption.
        -- destruct j' as [|j']; simpl in H; intros Heq.
           ++ inversion H; subst q. specialize (Hp H0). lia.
           ++ apply le_n_S. eapply Hall; eassumption.
Qed.

(** C7: on a process table whose runnable processes have priorities in
    0..9, the priority selector returns none exactly when no process is
    runnable, and otherwise a runnable process of maximal priority, the
    one in the lowest slot among those of that priority; so it never
    picks a process while a runnable one of higher priority exists. *)
Theorem priority_scheduler_spec (k : kstate) :
  Z.of_nat (length (procs k)) = NPROC ->
  (forall i p, procs k !! i = Some p -> state p = RUNNABLE ->
               0 <= priority p <= 9) ->
  (priority_scheduler k = None
   <-> forall i p, procs k !! i = Some p -> state p <> RUNNABLE)
  /\ (forall i, priority_scheduler k = Some i ->
       exists p, procs k !! i = Some p /\ state p = RUNNABLE
         /\ forall j q, procs k !! j = Some q -> state q = RUNNABLE ->
              priority q <= priority p
              /\ (priority q = priority p -> (i <= j)%nat)).
Proof.
  intros Hlen Hrange. unfold priority_scheduler.
  rewrite firstn_all2 by lia.
  destruct (priority_scan_spec (procs k) 0%nat None (-1))
    as [[Hr Hall] | (j & p & Hr & Hj & Hs & Hlt & Hall)]; rewrite Hr.
  - split.
    + split; [|reflexivity].
      intros _ i p Hp Hs.
      specialize (Hall i p Hp Hs). specialize (Hrange i p Hp Hs). lia.
    + intros i Hi. discriminate Hi.
  - split.
    + split; [intros Hn; discriminate Hn|].
      intros Hnone. exfalso. exact (Hnone j p Hj Hs).
    + intros i Hi. inversion Hi; subst i. exists p.
      split; [exact Hj|]. split; [exact Hs|]. exact Hall.
Qed.

Lemma find_unused_spec ps i0 n :
  find_unused ps i0 = Some n ->
  exists j p, n = (i0 + j)%nat /\ ps !! j = Some p /\ state p = UNUSED.
Proof.
  revert i0. induction ps as [|q ps IH]; intros i0 H; [discriminate|].
  simpl in H. destruct (procstate_eqb (state q) UNUSED) eqn:E.
  - inversion H; subst n. exists 0%nat, q. apply procstate_eqb_eq in E.
    repeat split; [lia|assumption].
  - destruct (IH _ H) as (j & p & -> & Hj & Hs). exists (S j), p.
    repeat split; [lia|assumption|assumption].
Qed.

Lemma remove_first_elem n n' q :
  n' <> n -> n' ∈ remove_first n q <-> n' ∈ q.
Proof.
  intros Hne. induction q as [|x q IH]; simpl; [reflexivity|].
  destruct (Nat.eqb x n) eqn:E.
  - apply Nat.eqb_eq in E. subst x. rewrite elem_of_cons. tauto.
  - rewrite !elem_of_cons, IH. reflexivity.
Qed.

Lemma mlfq_add_frame n l k :
  procs (mlfq_add_process n l k) = procs k
  /\ cur (mlfq_add_process n l k) = cur k
  /\ select_next_proc (mlfq_add_process n l k) = select_next_proc k.
Proof.
  unfold mlfq_add_process.
  destruct ((l <? 0) || (l >=? MAX_PRIORITY_LEVELS)); [auto|].
  destruct (queues (mlfq_sched k) !! Z.to_nat l) as [q|]; [|auto].
  destruct (Z.of_nat (length q) <? NPROC); auto.
Qed.

Lemma mlfq_remove_frame n l k :
  procs (mlfq_remove_process n l k) = procs k
  /\ cur (mlfq_remove_process n l k) = cur k
  /\ select_next_proc (mlfq_remove_process n l k) = select_next_proc k.
Proof.
  unfold mlfq_remove_process.
  destruct ((l <? 0) || (l >=? MAX_PRIORITY_LEVELS)); [auto|].
  destruct (queues (mlfq_sched k) !! Z.to_nat l); auto.
Qed.

Lemma mlfq_add_enqueued_other n l k n' l' :
  n' <> n \/ l' <> Z.to_nat l ->
  enqueued (mlfq_add_process n l k) n' l' <-> enqueued k n' l'.
Proof.
  intros Hne. unfold mlfq_add_process, enqueued.
  destruct ((l <? 0) || (l >=? MAX_PRIORITY_LEVELS)); [reflexivity|].
  destruct (queues (mlfq_sched k) !! Z.to_nat l) as [q0|] eqn:Eq; [|reflexivity].
  destruct (Z.of_nat (length q0) <? NPROC); [|reflexivity]. simpl.
  destruct (decide (l' = Z.to_nat l)) as [->|Hl].
  - rewrite list_lookup_insert_eq by (eapply lookup_lt_Some; eassumption).
    destruct Hne as [Hne|Hne]; [|contradiction].
    split; intros (q & Hq & Hin).
    + inversion Hq; subst q. exists q0. split; [exact Eq|].
      apply elem_of_app in Hin as [Hin|Hin]; [exact Hin|].
      apply list_elem_of_singleton in Hin. contradiction.
    + assert (Heq : Some q0 = Some q) by (rewrite <- Eq; exact Hq).
      inversion Heq; subst q. exists (q0 ++ [n]).
      split; [reflexivity|]. apply elem_of_app. now left.
  - rewrite list_lookup_insert_ne by congruence. reflexivity.
Qed.

Lemma mlfq_add_enqueued n l k q0 :
  0 <= l < MAX_PRIORITY_LEVELS ->
  queues (mlfq_sched k) !! Z.to_nat l = Some q0 ->
  Z.of_nat (length q0) < NPROC ->
  enqueued (mlfq_add_process n l k) n (Z.to_nat l).
Proof.
  intros Hl Hq Hlen. unfold mlfq_add_process, enqueued.
  replace ((l <? 0) || (l >=? MAX_PRIORITY_LEVELS)) with false
    by (symmetry; apply orb_false_iff; split; [apply Z.ltb_ge|rewrite Z.geb_leb; apply Z.leb_gt]; lia).
  rewrite Hq.
  replace (Z.of_nat (length q0) <? NPROC) with true
    by (symmetry; apply Z.ltb_lt; lia).
  simpl. exists (q0 ++ [n]).
  rewrite list_lookup_insert_eq by (eapply lookup_lt_Some; eassumption).
  split; [reflexivity|]. apply elem_of_app. right. apply list_elem_of_singleton. reflexivity.
Qed.

Lemma mlfq_remove_enqueued_other n l k n' l' :
  n' <> n ->
  enqueued (mlfq_remove_process n l k) n' l' <-> enqueued k n' l'.
Proof.
  intros Hne. unfold mlfq_remove_process, enqueued.
  destruct ((l <? 0) || (l >=? MAX_PRIORITY_LEVELS)); [reflexivity|].
  destruct (queues (mlfq_sched k) !! Z.to_nat l) as [q0|] eqn:Eq; [|reflexivity].
  simpl.
  destruct (decide (l' = Z.to_nat l)) as [->|Hl].
  - rewrite list_lookup_insert_eq by (eapply lookup_lt_Some; eassumption).
    split; intros (q & Hq & Hin).
    + inversion Hq; subst q. exists q0. split; [exact Eq|].
      now apply remove_first_elem in Hin.
    + assert (Heq : Some q0 = Some q) by (rewrite <- Eq; exact Hq).
      inversion Heq; subst q. exists (remove_first n q0).
      split; [reflexivity|]. now apply remove_first_elem.
  - rewrite list_lookup_insert_ne by congruence. reflexivity.
Qed.

Lemma upd_proc_enqueued i f k n l :
  enqueued (upd_proc i f k) n l <-> enqueued k n l.
Proof. reflexivity. Qed.

(** [yield] by the process in slot [i] leaves the other slots and their
    queue membership alone. *)
Lemma yield_other (k : kstate) (i : nat) (p : proc) :
  cur k = Some i -> procs k !! i = Some p ->
  exists k', yield k = Done tt k'
    /\ (forall j, j <> i -> procs k' !! j = procs k !! j)
    /\ (forall n l, n <> i -> enqueued k' n l <-> enqueued k n l).
Proof.
  intros Hcur Hp. unfold yield, bind, get. rewrite Hcur, Hp.
  destruct (is_mlfq (select_next_proc k)); unfold modify, ret; simpl;
    eexists; (split; [reflexivity|]); split.
  - intros j Hj. destruct (mlfq_add_frame i (mlfq_level p)
      (upd_proc i (set_state RUNNABLE) (mlfq_remove_process i (mlfq_level p) k))) as (-> & _).
    unfold upd_proc; simpl.
    rewrite list_lookup_alter_ne by congruence.
    now destruct (mlfq_remove_frame i (mlfq_level p) k) as (-> & _).
  - intros n l Hn.
    rewrite mlfq_add_enqueued_other by (left; exact Hn).
    rewrite upd_proc_enqueued.
    now apply mlfq_remove_enqueued_other.
  - intros j Hj. unfold upd_proc; simpl.
    now rewrite list_lookup_alter_ne by congruence.
  - intros n l Hn. apply upd_proc_enqueued.
Qed.

End WithParams.

(** *** Runs on concrete tables *)

Lemma runnable_range_check (ps : list proc) :
  forallb (fun p => negb (procstate_eqb (state p) RUNNABLE)
                    || ((0 <=? priority p) && (priority p <=? 9))) ps = true ->
  forall i p, ps !! i = Some p -> state p = RUNNABLE -> 0 <= priority p <= 9.
Proof.
  intros Hall i p Hp Hs.
  rewrite forallb_forall in Hall.
  assert (Hin : In p ps) by (apply list_elem_of_In, list_elem_of_lookup; eauto).
  specialize (Hall p Hin).
  apply procstate_eqb_eq in Hs. rewrite Hs in Hall. simpl in Hall.
  apply andb_true_iff in Hall as [H0 H9].
  apply Z.leb_le in H0. apply Z.leb_le in H9. lia.
Defined.

(** Slots 2 and 4 both have priority 9; slot 2 is selected. *)
Lemma priority_scheduler_witness :
  exists p, procs Image.k_prio !! 2%nat = Some p /\ state p = RUNNABLE
    /\ forall j q, procs Image.k_prio !! j = Some q -> state q = RUNNABLE ->
         priority q <= priority p /\ (priority q = priority p -> (2 <= j)%nat).
Proof.
  apply (proj2 (priority_scheduler_spec (P := xv6_params) Image.k_prio
                  eq_refl
                  (runnable_range_check (procs Image.k_prio) eq_refl))).
  reflexivity.
Defined.

(** Slot 1 sleeps on channel 7 and is woken by slot 0. *)
Lemma wakeup_witness :
  procs (wakeup (P := xv6_params) 7 Image.k_sleep) !! 1%nat
  = Some (set_state RUNNABLE (Image.a_proc SLEEPING 2 5 0 7)).
Proof.
  apply (wakeup_spec (P := xv6_params) 7 Image.k_sleep 1
                     (Image.a_proc SLEEPING 2 5 0 7) eq_refl).
  - vm_compute. lia.
  - repeat split; try reflexivity. discriminate.
Defined.

End ProcFacts.

(** ** File system *)

Module FsFacts.
Import Layout FsLayout Fs FsSpec.

Section WithParams.
Context {P : KernelParams} {U : UserMem}.

Lemma ltb_shift a b c : (a - b <? c) = (a <? b + c).
Proof. destruct (Z.ltb_spec (a - b) c), (Z.ltb_spec a (b + c)); lia. Qed.

Lemma div_div_1024 r : r / 1048576 = r / 1024 / 1024.
Proof. rewrite Z.div_div by lia. reflexivity. Qed.

Lemma mod_div_1024 r : r mod 1048576 / 1024 = r / 1024 mod 1024.
Proof.
  change 1048576 with (1024 * 1024).
  rewrite Z.rem_mul_r by lia.
  replace (r mod 1024 + 1024 * (r / 1024 mod 1024))
    with ((r / 1024 mod 1024) * 1024 + r mod 1024) by lia.
  rewrite Z.div_add_l by lia.
  rewrite (Z.div_small (r mod 1024)) by (apply Z.mod_pos_bound; lia). lia.
Qed.

Lemma bmap_refines ip bn s : bmap ip bn s = (bmap_at ip (locate bn)) s.
Proof.
  unfold bmap, bmap_at, locate.
  change N with 1024. change NDIRECT with 10. change NINDIRECT with 1024.
  change NINDIRECT2 with 1048576. change NINDIRECT3 with 1073741824.
  change (1024 ^ 2) with 1048576. change (1024 ^ 3) with 1073741824.
  apply bind_ext; intros i s1.
  destruct (bn <? 10) eqn:E1.
  { unfold through, root_pointer, descend. repeat mstep; mdone. }
  rewrite !ltb_shift.
  destruct (bn <? 10 + 1024) eqn:E2.
  { unfold through, root_pointer, descend, entry_pointer. repeat mstep; mdone. }
  change (10 + 1024 + 1048576) with 1049610.
  change (1024 + 1048576) with 1049600. change (10 + 1049600) with 1049610.
  destruct (bn <? 1049610) eqn:E3.
  { unfold through, root_pointer, descend, entry_pointer. repeat mstep; mdone. }
  change (1049610 + 1073741824) with 1074791434.
  change (1048576 + 1073741824) with 1074790400.
  change (1024 + 1074790400) with 1074791424.
  change (10 + 1074791424) with 1074791434.
  destruct (bn <? 1074791434) eqn:E4.
  { unfold through, root_pointer, descend, entry_pointer.
    rewrite div_div_1024, mod_div_1024.
    repeat mstep; mdone. }
  reflexivity.
Qed.

Lemma locate_names bn : 0 <= bn -> names (locate bn) bn.
Proof.
  intros Hbn. unfold locate, names.
  change N with 1024. change NDIRECT with 10.
  change (1024 ^ 2) with 1048576. change (1024 ^ 3) with 1073741824.
  destruct (Z.ltb_spec bn 10); [lia|].
  destruct (Z.ltb_spec bn (10 + 1024)); [lia|].
  destruct (Z.ltb_spec bn (10 + 1024 + 1048576)).
  { cbv zeta. pose proof (Z.div_mod (bn - 10 - 1024) 1024 ltac:(lia)).
    pose proof (Z.mod_pos_bound (bn - 10 - 1024) 1024 ltac:(lia)).
    assert (0 <= (bn - 10 - 1024) / 1024 < 1024)
      by (split; [apply Z.div_pos; lia | apply Z.div_lt_upper_bound; lia]).
    lia. }
  destruct (Z.ltb_spec bn (10 + 1024 + 1048576 + 1073741824)); [|lia].
  cbv zeta. set (r := bn - 10 - 1024 - 1048576) in *.
  pose proof (Z.div_mod r 1024 ltac:(lia)).
  pose proof (Z.mod_pos_bound r 1024 ltac:(lia)).
  pose proof (Z.div_mod (r / 1024) 1024 ltac:(lia)).
  pose proof (Z.mod_pos_bound (r / 1024) 1024 ltac:(lia)).
  assert (0 <= r / 1024 / 1024 < 1024).
  { rewrite Z.div_div by lia. split; [apply Z.div_pos; lia | apply Z.div_lt_upper_bound; lia]. }
  lia.
Qed.

Lemma entry_nonzero s dv blk idx :
  entry s dv blk idx <> 0 ->
  blk <> 0 /\ exists d, disk s !! (dv, blk) = Some d
                  /\ entry s dv blk idx = get_u32 d (sizeof_uint * idx).
Proof.
  unfold entry. destruct (Z.eqb_spec blk 0); [congruence|].
  destruct (disk s !! (dv, blk)) as [d|]; [|congruence].
  intros _. split; [assumption|]. exists d. split; reflexivity.
Qed.

Lemma entry_pointer_mapped s dv blk idx :
  entry s dv blk idx <> 0 ->
  entry_pointer dv blk idx s = Done (entry s dv blk idx) s.
Proof.
  intros H. destruct (entry_nonzero _ _ _ _ H) as (Hblk & d & Hd & He).
  rewrite He in *.
  unfold entry_pointer, bread_deref, bread, buf_uint, buf_data, bind, get, ret.
  rewrite Hd. simpl. rewrite ?Hd. simpl.
  destruct (Z.eqb_spec (get_u32 d (sizeof_uint * idx)) 0); [contradiction|reflexivity].
Qed.

Lemma root_pointer_mapped s ip i slot :
  addr_at i slot <> 0 -> root_pointer ip i slot s = Done (Some (addr_at i slot)) s.
Proof.
  intros H. unfold root_pointer.
  destruct (Z.eqb_spec (addr_at i slot) 0); [contradiction|reflexivity].
Qed.

Lemma bmap_mapped ip i bn s :
  itable s !! ip = Some i -> resolve s i bn <> 0 ->
  bmap ip bn s = Done (resolve s i bn) s.
Proof.
  intros Hi Hr. rewrite bmap_refines. unfold bmap_at, resolve in *.
  unfold bind at 1. unfold ip_get at 1. unfold bind, get. rewrite Hi. simpl.
  destruct (locate bn) as [slot|x|x y|x y z|]; unfold through, bind.
  - rewrite root_pointer_mapped by assumption. reflexivity.
  - destruct (entry_nonzero _ _ _ _ Hr) as (H0 & _).
    rewrite root_pointer_mapped by assumption. simpl. unfold bind.
    rewrite entry_pointer_mapped by assumption.
    destruct (Z.eqb_spec (entry s (dev i) (addr_at i NDIRECT) x) 0); [contradiction|reflexivity].
  - destruct (entry_nonzero _ _ _ _ Hr) as (H1 & _).
    destruct (entry_nonzero _ _ _ _ H1) as (H0 & _).
    rewrite root_pointer_mapped by assumption. simpl. unfold bind.
    rewrite entry_pointer_mapped by assumption.
    destruct (Z.eqb_spec (entry s (dev i) (addr_at i (NDIRECT + 1)) x) 0); [contradiction|].
    rewrite entry_pointer_mapped by assumption.
    match goal with |- context [if ?c =? 0 then _ else _] => destruct (Z.eqb_spec c 0); [contradiction|reflexivity] end.
  - destruct (entry_nonzero _ _ _ _ Hr) as (H2 & _).
    destruct (entry_nonzero _ _ _ _ H2) as (H1 & _).
    destruct (entry_nonzero _ _ _ _ H1) as (H0 & _).
    rewrite root_pointer_mapped by assumption. simpl. unfold bind.
    rewrite entry_pointer_mapped by assumption.
    destruct (Z.eqb_spec (entry s (dev i) (addr_at i (NDIRECT + 2)) x) 0); [contradiction|].
    rewrite entry_pointer_mapped by assumption.
    match goal with |- context [if ?c =? 0 then _ else _] => destruct (Z.eqb_spec c 0); [contradiction|] end.
    rewrite entry_pointer_mapped by assumption.
    match goal with |- context [if ?c =? 0 then _ else _] => destruct (Z.eqb_spec c 0); [contradiction|reflexivity] end.
  - contradiction.
Qed.

Lemma to_uint_small x : 0 <= x < 4294967296 -> to_uint x = x.
Proof. intros H. unfold to_uint, wrap. apply Z.mod_small. exact H. Qed.

Lemma readi_loop_dense fuel ip i s user_dst n :
  itable s !! ip = Some i -> dense s i -> 0 <= size i < 2 ^ 32 ->
  0 <= n < 2 ^ 32 ->
  forall dst off tot out,
    0 <= tot <= n -> 0 <= off -> off + (n - tot) <= size i ->
    exists r, readi_loop fuel ip user_dst dst off n tot out s = Done r s.
Proof.
  intros Hi Hd Hsz Hn. induction fuel as [|fuel IH]; intros dst off tot out Htot Hoff Hend.
  - eexists; reflexivity.
  - simpl. destruct (Z.ltb_spec tot n); [|eexists; reflexivity].
    assert (Hb : mapped s i (off / BSIZE)).
    { apply Hd; [apply Z.div_pos; unfold BSIZE; lia|].
      pose proof (Z.mul_div_le off BSIZE ltac:(unfold BSIZE; lia)). lia. }
    destruct Hb as [Hnz [d Hpres]].
    unfold bind at 1. rewrite (bmap_mapped ip i _ s Hi Hnz).
    destruct (Z.eqb_spec (resolve s i (off / BSIZE)) 0); [contradiction|].
    unfold bind at 1. unfold ip_get at 1. unfold bind, get. rewrite Hi. simpl.
    unfold bread_deref, bread, buf_data, bind, get, ret. rewrite Hpres. simpl. rewrite ?Hpres. simpl.
    destruct (either_copyout user_dst dst _); [|eexists; reflexivity].
    unfold brelse, ret.
    pose proof (Z.mod_pos_bound off BSIZE ltac:(unfold BSIZE; lia)).
    set (m := Z.min (n - tot) (BSIZE - off mod BSIZE)) in *.
    assert (0 < m <= n - tot) by (subst m; change BSIZE with 4096 in *; lia).
    change (2 ^ 32) with 4294967296 in *. clearbody m.

    rewrite (to_uint_small (off + m)) by lia.
    rewrite (to_uint_small (tot + m)) by lia.
    apply IH; lia.
Qed.

(** C5, amended: a read maps every block through the same [bmap] as a
    write, so a missing block is allocated on the way, on reads too: for a
    direct block the block that the allocator hands out is entered in
    [addrs].  When the mapping of the block at the current offset is zero
    the read stops at that point with what it has copied.  A read of an
    inode without holes (every block below its size is mapped) returns
    and leaves every disk block, and in the inode table everything but
    the access time of the inode, as it was: [addrs] and the set of
    allocated data and indirect blocks are unchanged. *)
Theorem readi_block_mapping ip i s user_dst dst off n :
  itable s !! ip = Some i ->
  (forall bn a s1,
      0 <= bn < NDIRECT -> addr_at i bn = 0 ->
      balloc (dev i) s = Done a s1 -> a <> 0 ->
      bmap ip bn s
      = Done a (set_itable (alter (set_addr bn a) ip (itable s1)) s1))
  /\ (forall fuel tot out s1,
        tot < n -> bmap ip (off / BSIZE) s = Done 0 s1 ->
        readi_loop (S fuel) ip user_dst dst off n tot out s = Done (tot, out) s1)
  /\ (dense s i ->
      0 <= size i < 2 ^ 32 -> 0 <= off < 2 ^ 32 -> 0 <= n < 2 ^ 32 ->
      exists r s', readi ip user_dst dst off n s = Done r s'
        /\ disk s' = disk s /\ sb s' = sb s
        /\ (itable s' = itable s
            \/ exists t, itable s' = alter (set_atime t) ip (itable s))).
Proof.
  intros Hi. split; [|split].
  - intros bn a s1 Hbn H0 Hb Ha. unfold bmap.
    unfold bind at 1. unfold ip_get at 1. unfold bind, get. rewrite Hi. simpl.
    destruct (Z.ltb_spec bn NDIRECT); [|lia].
    rewrite H0. simpl. rewrite Hb.
    destruct (Z.eqb_spec a 0); [contradiction|]. reflexivity.
  - intros fuel tot out s1 Hlt Hb. simpl.
    destruct (Z.ltb_spec tot n); [|lia].
    unfold bind. rewrite Hb. reflexivity.
  - intros Hd Hsz Hoff Hn.
    unfold readi. unfold bind at 1. unfold ip_get at 1. unfold bind, get.
    rewrite Hi. simpl.
    change (2 ^ 32) with 4294967296 in *.
    destruct ((off >? size i) || (to_uint (off + n) <? off)) eqn:E.
    { exists (0, []), s. repeat split; auto. }
    apply orb_false_iff in E as [E1 E2].
    rewrite Z.gtb_ltb in E1. apply Z.ltb_ge in E1. apply Z.ltb_ge in E2.
    assert (Hsum : off + n < 4294967296).
    { destruct (Z.lt_ge_cases (off + n) 4294967296) as [|Hge]; [assumption|].
      exfalso. unfold to_uint, wrap in E2. change (2 ^ 32) with 4294967296 in E2.
      replace (off + n) with ((off + n - 4294967296) + 1 * 4294967296) in E2 by lia.
      rewrite Z.mod_add in E2 by lia.
      rewrite Z.mod_small in E2 by lia. lia. }
    rewrite (to_uint_small (off + n)) by lia.
    set (n' := if off + n >? size i then to_uint (size i - off) else n).
    assert (Hn' : 0 <= n' < 4294967296 /\ off + n' <= size i).
    { unfold n'. destruct (off + n >? size i) eqn:E3.
      - rewrite to_uint_small by lia. lia.
      - rewrite Z.gtb_ltb in E3. apply Z.ltb_ge in E3. lia. }
    destruct (readi_loop_dense (Z.to_nat n') ip i s user_dst n' Hi Hd
                ltac:(change (2 ^ 32) with 4294967296; lia)
                ltac:(change (2 ^ 32) with 4294967296; lia)
                dst off 0 [] ltac:(lia) ltac:(lia) ltac:(lia)) as [r Hr].
    rewrite Hr.
    destruct (fst r >? 0).
    + unfold iupdatatime, bind, get, put, ip_upd, modify, ret. simpl.
      eexists _, _. split; [reflexivity|]. simpl. repeat split. right.
      eexists. reflexivity.
    + eexists _, _. split; [reflexivity|]. auto.
Qed.

(** C4: for every inode and logical block number, [bmap] is block
    mapping at the location the specification names: a direct slot
    below 10, an entry of the single indirect block below 10 + N, a path
    through the double indirect tree below 10 + N + N^2 and through the
    triple indirect tree below the capacity 10 + N + N^2 + N^3, with
    N = 1024 and the residual index split by quotient and remainder by
    N at each level. *)
Theorem bmap_locates ip bn s :
  0 <= bn < 2 ^ 32 ->
  bmap ip bn s = bmap_at ip (locate bn) s
  /\ names (locate bn) bn
  /\ N = 1024
  /\ MAXFILE = NDIRECT + N + N ^ 2 + N ^ 3.
Proof.
  intros Hbn. split; [apply bmap_refines|].
  split; [apply locate_names; lia|]. split; reflexivity.
Qed.

(** *** Paths *)

Lemma fields_nonnil p : fields p <> [].
Proof.
  destruct p as [|c p]; simpl; [discriminate|].
  destruct (c =? slash); [discriminate|]. destruct (fields p); discriminate.
Qed.








Lemma truncated_cons p e es :
  components p = e :: es ->
  truncated p = take (Z.to_nat DIRSIZ) e :: map (take (Z.to_nat DIRSIZ)) es.
Proof. intros H. unfold truncated. rewrite H. reflexivity. Qed.








Lemma skip_slashes_length p : (length (skip_slashes p) <= length p)%nat.
Proof.
  induction p as [|c p IH]; simpl; [lia|].
  destruct (c =? slash); simpl; lia.
Qed.

Lemma scan_elem_length p :
  (length (snd (scan_elem p)) <= length p)%nat
  /\ (hd 0 p <> 0 -> hd 0 p <> slash ->
      (length (snd (scan_elem p)) < length p)%nat).
Proof.
  induction p as [|c p IH]; simpl.
  - split; [lia|]. intros H. contradiction.
  - destruct (Z.eqb_spec c slash); simpl.
    + split; [lia|]. intros _ H. contradiction.
    + destruct (Z.eqb_spec c 0); simpl.
      * split; [lia|]. intros H. contradiction.
      * destruct (scan_elem p) as [s0 r]. simpl in *. lia.
Qed.

Lemma skipelem_shorter p nm r :
  skipelem p = Some (nm, r) -> (length r < length p)%nat.
Proof.
  unfold skipelem. pose proof (skip_slashes_length p) as Hl.
  assert (Hh : hd 0 (skip_slashes p) <> slash).
  { clear. induction p as [|c p IH]; simpl; [discriminate|].
    destruct (Z.eqb_spec c slash); [exact IH|exact n]. }
  destruct (Z.eqb_spec (hd 0 (skip_slashes p)) 0); [discriminate|].
  pose proof (scan_elem_length (skip_slashes p)) as [_ Hs].
  specialize (Hs n Hh).
  destruct (scan_elem (skip_slashes p)) as [s0 r0]. simpl in Hs.
  intros H. inversion H; subst.
  pose proof (skip_slashes_length r0). lia.
Qed.

(** The fuel of the loops of [namex] is never used up. *)
Lemma namex_target_fuel fuel1 :
  forall fuel2 ip path name s,
    (length path < fuel1)%nat -> (length path < fuel2)%nat ->
    namex_target fuel1 ip path name s = namex_target fuel2 ip path name s.
Proof.
  induction fuel1 as [|fuel1 IH]; intros fuel2 ip path name s H1 H2; [lia|].
  destruct fuel2 as [|fuel2]; [lia|].
  cbn [namex_target].
  destruct (skipelem path) as [[nm r]|] eqn:E; [|reflexivity].
  apply skipelem_shorter in E.
  assert (Hrec : forall ip name s,
             namex_target fuel1 ip r name s = namex_target fuel2 ip r name s)
    by (intros; apply IH; lia).
  repeat first
    [ reflexivity
    | apply Hrec
    | apply bind_ext; intros
    | match goal with
      | |- (if ?c then _ else _) _ = (if ?c then _ else _) _ => destruct c
      | |- (match ?o with ISlot _ => _ | _ => _ end) _ = _ => destruct o
      end ].
Qed.

Lemma namex_loop_fuel fuel1 :
  forall fuel2 ip path name nip depth s,
    (length path < fuel1)%nat -> (length path < fuel2)%nat ->
    namex_loop fuel1 ip path name nip depth s
    = namex_loop fuel2 ip path name nip depth s.
Proof.
  induction fuel1 as [|fuel1 IH]; intros fuel2 ip path name nip depth s H1 H2;
    [lia|].
  destruct fuel2 as [|fuel2]; [lia|].
  cbn [namex_loop].
  destruct (skipelem path) as [[nm r]|] eqn:E; [|reflexivity].
  apply skipelem_shorter in E.
  assert (Hrec : forall ip name depth s,
             namex_loop fuel1 ip r name nip depth s
             = namex_loop fuel2 ip r name nip depth s)
    by (intros; apply IH; lia).
  repeat first
    [ reflexivity
    | apply Hrec
    | apply bind_ext; intros
    | match goal with
      | |- (if ?c then _ else _) _ = (if ?c then _ else _) _ => destruct c
      | |- (match ?o with ISlot _ => _ | _ => _ end) _ = _ => destruct o
      | |- (match ?o with Some _ => _ | None => _ end) _ = _ => destruct o
      end ].
Qed.








End WithParams.
End FsFacts.

(** ** Runs of the file-system code on the image *)

Module FsRuns.
Import Layout FsLayout Fs FsSpec FsFacts Image.

#[local] Existing Instance xv6_params.
#[local] Existing Instance umem.


(** C2, the code at the failing input: on every device and in every
    state, [ialloc] turns down the type of symbolic links as an invalid
    type, with error code EINVAL, and allocates nothing. *)
Theorem ialloc_rejects_symlink (dv : Z) (s : fs) :
  ialloc dv (T_SYMLINK) s
  = Done (IErr (- Errno.EINVAL)) s
  /\ IS_ERR_PTR (IErr (- Errno.EINVAL)) = true.
Proof. split; reflexivity. Qed.

(** The type test of [ialloc] lets through files, directories and
    devices only. *)
Lemma ialloc_invalid_type (P : KernelParams) (dv typ : Z) (s : fs) :
  typ <> T_FILE -> typ <> T_DIR -> typ <> T_DEVICE ->
  ialloc dv typ s = Done (IErr (- Errno.EINVAL)) s.
Proof.
  intros H1 H2 H3. unfold ialloc.
  destruct (Z.eqb_spec typ T_FILE); [contradiction|].
  destruct (Z.eqb_spec typ T_DIR); [contradiction|].
  destruct (Z.eqb_spec typ T_DEVICE); [contradiction|].
  reflexivity.
Qed.

(** C3, the code at the failing input: "/l1" and "/l2" are symbolic links
    to each other, and resolving "/l1" does not fail: it follows one link
    and returns the inode of "/l2" (inode 3), itself a symbolic link. *)
Theorem namei_symlink_cycle_returns_inode :
  match (bind (namei None (chars "/l1"))
           (fun ip => match ip with
                      | ISlot k =>
                          bind (ilock k) (fun _ =>
                          bind (ip_get k) (fun i => ret (Some (inum i, type i))))
                      | _ => ret None
                      end)) img with
  | Done r _ => r = Some (3, T_SYMLINK)
  | _ => False
  end.
Proof. vm_compute. reflexivity. Qed.

(** C5, as stated, fails: inode 4 has size 4096 and no block.  Reading
    it does not stop with zero bytes: the read returns 4096, and it has
    allocated block 37 and entered it in [addrs]; the bitmap byte of
    blocks 32 to 39 changes from 31 to 63. *)
Lemma readi_allocates_a_missing_block :
  match (bind (iget 1 4) (fun ip =>
         bind (ilock ip) (fun _ =>
         bind (ip_get ip) (fun i0 =>
         bind (readi ip 0 0 0 4096) (fun r =>
         bind (ip_get ip) (fun i1 =>
         bind (buf_data (1, 33)) (fun bits =>
         ret (size i0, addr_at i0 0, fst r, addr_at i1 0, get_u8 bits 4)))))))) img with
  | Done r _ =>
      r = (4096, 0, 4096, 37, 63)
      /\ (fun bits => get_u8 bits 4) <$> disk img !! (1, 33) = Some 31
  | _ => False
  end.
Proof. vm_compute. split; reflexivity. Qed.

(** Logical block 6161 = 10 + 1024 + 5 * 1024 + 7 lies in the double
    indirect tree, at entry 5 and then entry 7. *)
Lemma bmap_locates_witness :
  bmap 0 6161 img
  = bmap_at 0 (locate 6161) img
  /\ names (locate 6161) 6161
  /\ N = 1024
  /\ MAXFILE = NDIRECT + N + N ^ 2 + N ^ 3.
Proof.
  apply (bmap_locates 0 6161 img).
  split; [discriminate|reflexivity].
Defined.

Lemma root_dense : dense img_root root_inode.
Proof.
  intros b Hb Hsz.
  assert (Hs : size root_inode = 384) by (vm_compute; reflexivity).
  rewrite Hs in Hsz. change BSIZE with 4096 in Hsz.
  assert (b = 0) by lia. subst b.
  split; [vm_compute; discriminate|].
  eexists. vm_compute. reflexivity.
Defined.

(** Reading the first entry of the root directory, whose only block is
    mapped. *)
Lemma readi_block_mapping_witness :
  exists r s', readi 0 0 0 0 64 img_root = Done r s'
    /\ disk s' = disk img_root /\ sb s' = sb img_root
    /\ (itable s' = itable img_root
        \/ exists t, itable s' = alter (set_atime t) 0%nat (itable img_root)).
Proof.
  assert (Hi : itable img_root !! 0%nat = Some root_inode)
    by (vm_compute; reflexivity).
  assert (Hsz : 0 <= size root_inode < 2 ^ 32)
    by (vm_compute; split; [discriminate|reflexivity]).
  assert (Hoff : 0 <= 0 < 2 ^ 32) by (split; [discriminate|reflexivity]).
  assert (Hn : 0 <= 64 < 2 ^ 32) by (split; [discriminate|reflexivity]).
  exact (proj2 (proj2 (readi_block_mapping 0 root_inode img_root 0 0 0 64 Hi))
           root_dense Hsz Hoff Hn).
Defined.


(** Both resolve to inode 5, the file whose name is the shared prefix. *)
Lemma long_names_resolve :
  match (bind (namei None path_a)
           (fun ip => match ip with
                      | ISlot k => bind (ip_get k) (fun i => ret (Some (inum i)))
                      | _ => ret None
                      end)) img with
  | Done r _ => r = Some 5
  | _ => False
  end.
Proof. vm_compute. reflexivity. Qed.

End FsRuns.

(** ** System calls *)

Module SysFacts.
Import Layout FsLayout Fs Sys Image.

#[local] Existing Instance xv6_params.
#[local] Existing Instance umem.

Section WithCollaborators.
Context (filealloc : M kernel (option nat)).
Context (fileclose : nat -> M kernel unit).
Context (other_syscalls : Z -> M kernel Z).

(** C1, the code at the failing input: [open("/nonexistent")] returns
    -1 and leaves ENOENT in the last-error field; the first [geterrno]
    returns it, and being a successful system call itself it clears the
    field, so the second [geterrno] returns 0, not the same value.
    [getpid] then returns the pid and the last [geterrno] returns 0. *)
Theorem geterrno_clears_errno :
  match errno_persistence filealloc fileclose other_syscalls 4096 kernel0 with
  | Done r _ => r = (-1, Errno.ENOENT, 0, 3, 0)
  | _ => False
  end.
Proof. vm_compute. reflexivity. Qed.

(** The last-error field after the failing [open] alone, and after the
    first [geterrno]. *)
Lemma errno_after_open_and_geterrno :
  match ecall filealloc fileclose other_syscalls SYS_open 4096 O_RDONLY 0 kernel0 with
  | Done r k =>
      r = -1
      /\ Proc.errno <$> Proc.procs (pstate k) !! 0%nat = Some Errno.ENOENT
      /\ match ecall filealloc fileclose other_syscalls SYS_geterrno 0 0 0 k with
         | Done r' k' =>
             r' = Errno.ENOENT
             /\ Proc.errno <$> Proc.procs (pstate k') !! 0%nat = Some 0
         | _ => False
         end
  | _ => False
  end.
Proof. vm_compute. repeat split; reflexivity. Qed.

(** An unknown call number yields "function not implemented". *)
Lemma unknown_syscall :
  match ecall filealloc fileclose other_syscalls 99 0 0 0 kernel0 with
  | Done r k =>
      r = -1
      /\ Proc.errno <$> Proc.procs (pstate k) !! 0%nat = Some Errno.ENOSYS
  | _ => False
  end.
Proof. vm_compute. split; reflexivity. Qed.

(** [symlink("/target", "/newlink")] on the image: [ialloc] hands back
    the error pointer for EINVAL, which [sys_symlink] takes for an
    inode and locks. *)
Lemma sys_symlink_dereferences_error_pointer :
  ecall filealloc fileclose other_syscalls SYS_symlink 8192 12288 0 kernel0
  = Fault.
Proof. vm_compute. reflexivity. Qed.

End WithCollaborators.
End SysFacts.

(** ** Properties of the process table and of the selectors, continued *)

Module SchedFacts.
Import Proc ProcExt ProcFacts.

Section WithParams.
Context {P : KernelParams}.

Lemma level_in_range l :
  0 <= l < MAX_PRIORITY_LEVELS ->
  (l <? 0) || (l >=? MAX_PRIORITY_LEVELS) = false.
Proof.
  intros H. apply orb_false_iff.
  split; [apply Z.ltb_ge|rewrite Z.geb_leb; apply Z.leb_gt]; lia.
Qed.

Lemma remove_first_app_new p q : p ∉ q -> remove_first p (q ++ [p]) = q.
Proof.
  induction q as [|x q IH]; simpl; intros H.
  - now rewrite Nat.eqb_refl.
  - apply not_elem_of_cons in H as [Hne Hq].
    destruct (Nat.eqb x p) eqn:E; [apply Nat.eqb_eq in E; congruence|].
    f_equal. auto.
Qed.

Lemma remove_first_absent p q : p ∉ q -> remove_first p q = q.
Proof.
  induction q as [|x q IH]; simpl; intros H; [reflexivity|].
  apply not_elem_of_cons in H as [Hne Hq].
  destruct (Nat.eqb x p) eqn:E; [apply Nat.eqb_eq in E; congruence|].
  f_equal. auto.
Qed.

Lemma remove_first_length p q :
  p ∈ q -> S (length (remove_first p q)) = length q.
Proof.
  induction q as [|x q IH]; simpl; intros H; [now apply elem_of_nil in H|].
  destruct (Nat.eqb x p) eqn:E; [reflexivity|].
  apply elem_of_cons in H as [->|H]; [rewrite Nat.eqb_refl in E; discriminate|].
  simpl. f_equal. auto.
Qed.

Lemma kstate_eq (k k' : kstate) :
  procs k = procs k' -> cur k = cur k' -> nextpid k = nextpid k' ->
  select_next_proc k = select_next_proc k' -> mlfq_sched k = mlfq_sched k' ->
  k = k'.
Proof. destruct k, k'; simpl; congruence. Qed.

Lemma mlfq_eq (m m' : mlfq) :
  queues m = queues m' -> current_level m = current_level m' ->
  time_slices m = time_slices m' -> m = m'.
Proof. destruct m, m'; simpl; congruence. Qed.

(** [mlfq_add_process] appends the process to the queue of its level and
    [mlfq_remove_process] takes it out again: for a process that was not
    on the queue the two calls restore the scheduler state.  A queue
    that already holds NPROC entries drops the process silently. *)
Theorem mlfq_add_then_remove (p : nat) (l : Z) (k : kstate) (q : list nat) :
  0 <= l < MAX_PRIORITY_LEVELS ->
  queues (mlfq_sched k) !! Z.to_nat l = Some q ->
  p ∉ q ->
  (Z.of_nat (length q) < NPROC ->
     queues (mlfq_sched (mlfq_add_process p l k)) !! Z.to_nat l = Some (q ++ [p])
     /\ mlfq_remove_process p l (mlfq_add_process p l k) = k)
  /\ (NPROC <= Z.of_nat (length q) -> mlfq_add_process p l k = k).
Proof.
  intros Hl Hq Hp.
  assert (Hlt : (Z.to_nat l < length (queues (mlfq_sched k)))%nat)
    by (eapply lookup_lt_Some; eassumption).
  split.
  - intros Hlen. unfold mlfq_remove_process, mlfq_add_process.
    rewrite (level_in_range l Hl), Hq.
    replace (Z.of_nat (length q) <? NPROC) with true
      by (symmetry; apply Z.ltb_lt; lia).
    simpl. rewrite list_lookup_insert_eq by exact Hlt.
    split; [reflexivity|].
    apply kstate_eq; try reflexivity. simpl.
    apply mlfq_eq; try reflexivity. simpl.
    rewrite list_insert_insert_eq, remove_first_app_new by exact Hp.
    now apply list_insert_id.
  - intros Hlen. unfold mlfq_add_process.
    rewrite (level_in_range l Hl), Hq.
    replace (Z.of_nat (length q) <? NPROC) with false
      by (symmetry; apply Z.ltb_ge; lia).
    reflexivity.
Qed.

Lemma first_nonempty_spec qs l0 :
  match first_nonempty qs l0 with
  | None => forall j q, qs !! j = Some q -> q = []
  | Some (p, l) =>
      exists j q, l = l0 + Z.of_nat j /\ qs !! j = Some (p :: q)
        /\ forall j' q', (j' < j)%nat -> qs !! j' = Some q' -> q' = []
  end.
Proof.
  revert l0. induction qs as [|q qs IH]; intros l0; simpl.
  - intros j q H. discriminate.
  - destruct q as [|p q].
    + specialize (IH (l0 + 1)).
      destruct (first_nonempty qs (l0 + 1)) as [[p l]|].
      * destruct IH as (j & q & -> & Hj & Hbefore).
        exists (S j), q. split; [lia|]. split; [exact Hj|].
        intros [|j'] q' Hlt Hq'; [now inversion Hq'|].
        apply (Hbefore j'); [lia|exact Hq'].
      * intros [|j] q Hq; [now inversion Hq|]. now apply (IH j).
    + exists 0%nat, q. split; [lia|]. split; [reflexivity|].
      intros j' q' Hlt. lia.
Qed.

(** [mlfq_scheduler] returns the head of the first queue, from level 0
    up, that is not empty, and records that level; it does not look at
    the state of the process.  It returns null exactly when every queue
    is empty, and then changes nothing. *)
Theorem mlfq_scheduler_spec (k : kstate) :
  (fst (mlfq_scheduler k) = None
   <-> forall l q, queues (mlfq_sched k) !! l = Some q -> q = [])
  /\ (fst (mlfq_scheduler k) = None -> snd (mlfq_scheduler k) = k)
  /\ (forall p, fst (mlfq_scheduler k) = Some p ->
        exists l q,
          queues (mlfq_sched k) !! l = Some (p :: q)
          /\ (forall l' q', (l' < l)%nat ->
                queues (mlfq_sched k) !! l' = Some q' -> q' = [])
          /\ procs (snd (mlfq_scheduler k)) = procs k
          /\ queues (mlfq_sched (snd (mlfq_scheduler k))) = queues (mlfq_sched k)
          /\ current_level (mlfq_sched (snd (mlfq_scheduler k))) = Z.of_nat l).
Proof.
  unfold mlfq_scheduler.
  pose proof (first_nonempty_spec (queues (mlfq_sched k)) 0) as H.
  destruct (first_nonempty (queues (mlfq_sched k)) 0) as [[p l]|]; simpl.
  - destruct H as (j & q & -> & Hj & Hbefore).
    split; [|split].
    + split; [discriminate|]. intros Hall.
      specialize (Hall j _ Hj). discriminate.
    + discriminate.
    + intros p' Hp'. inversion Hp'; subst p'. exists j, q.
      repeat split; assumption.
  - split; [|split]; [tauto|reflexivity|discriminate].
Qed.




Lemma pid_scan_spec pd ps i0 :
  match pid_scan pd ps i0 with
  | None => forall j p, ps !! j = Some p -> pid p <> pd
  | Some n =>
      exists j p, n = (i0 + j)%nat /\ ps !! j = Some p /\ pid p = pd
        /\ forall j' q, (j' < j)%nat -> ps !! j' = Some q -> pid q <> pd
  end.
Proof.
  revert i0. induction ps as [|q ps IH]; intros i0; simpl.
  - intros j p H. discriminate.
  - destruct (Z.eqb_spec (pid q) pd) as [E|E].
    + exists 0%nat, q. repeat split; [lia|assumption|].
      intros j' q' Hlt. lia.
    + specialize (IH (S i0)).
      destruct (pid_scan pd ps (S i0)) as [n|].
      * destruct IH as (j & p & -> & Hj & Hs & Hbefore).
        exists (S j), p. repeat split; [lia|assumption|assumption|].
        intros [|j'] q' Hlt Hq'; [inversion Hq'; now subst|].
        apply (Hbefore j'); [lia|exact Hq'].
      * intros [|j] p Hp; [inversion Hp; now subst|]. now apply (IH j).
Qed.

(** [kkill] marks the first slot of the table whose pid is the given
    one, whatever the state of the slot, and makes it RUNNABLE if it was
    SLEEPING; every other slot and the queues stay as they are.  When no
    slot has the pid the result is -1 and nothing changes.  Slots that
    are UNUSED have pid 0, so pid 0 names the first free slot. *)
Theorem kkill_spec (pd : Z) (k : kstate) :
  ((forall i p, (i < Z.to_nat NPROC)%nat -> procs k !! i = Some p ->
                pid p <> pd)
   -> kkill pd k = Done (-1) k)
  /\ (forall i p,
        (i < Z.to_nat NPROC)%nat -> procs k !! i = Some p -> pid p = pd ->
        (forall j q, (j < i)%nat -> procs k !! j = Some q -> pid q <> pd) ->
        exists k',
          kkill pd k = Done 0 k'
          /\ procs k' !! i
             = Some (if procstate_eqb (state p) SLEEPING
                     then set_state RUNNABLE (set_killed 1 p)
                     else set_killed 1 p)
          /\ (forall j, j <> i -> procs k' !! j = procs k !! j)
          /\ cur k' = cur k /\ nextpid k' = nextpid k
          /\ select_next_proc k' = select_next_proc k
          /\ mlfq_sched k' = mlfq_sched k).
Proof.
  unfold kkill, bind, get.
  pose proof (pid_scan_spec pd (firstn (Z.to_nat NPROC) (procs k)) 0) as H.
  destruct (pid_scan pd (firstn (Z.to_nat NPROC) (procs k)) 0) as [n|].
  - destruct H as (j & p & -> & Hj & Hp & Hbefore). simpl.
    apply lookup_take_Some in Hj as [Hj Hlt].
    split.
    + intros Hall. now specialize (Hall j p Hlt Hj).
    + intros i p' Hi Hp' Hpid Hfirst.
      assert (i = j) as ->.
      { destruct (Nat.lt_trichotomy i j) as [Hc|[Hc|Hc]]; [|exact Hc|].
        - exfalso. apply (Hbefore i p' Hc); [|exact Hpid].
          rewrite lookup_take_lt by lia. exact Hp'.
        - exfalso. now apply (Hfirst j p Hc Hj). }
      assert (p' = p) as -> by congruence.
      unfold modify, ret. eexists. split; [reflexivity|].
      unfold upd_proc; simpl.
      rewrite !list_lookup_alter_eq, Hj. simpl.
      repeat split.
      intros j' Hj'. now rewrite !list_lookup_alter_ne by congruence.
  - split.
    + reflexivity.
    + intros i p Hi Hp Hpid _. exfalso. apply (H i p); [|exact Hpid].
      rewrite lookup_take_lt by lia. exact Hp.
Qed.

(** What [yield] does to the caller: it becomes RUNNABLE and, under the
    MLFQ selector, moves from its place on the queue of its level to the
    tail of that queue, so that the processes of one level take turns.
    Under the other selectors the queues are not touched. *)
Theorem yield_moves_caller_to_tail (k : kstate) (i : nat) (p : proc) (q : list nat) :
  cur k = Some i -> procs k !! i = Some p ->
  0 <= mlfq_level p < MAX_PRIORITY_LEVELS ->
  queues (mlfq_sched k) !! Z.to_nat (mlfq_level p) = Some q ->
  i ∈ q -> Z.of_nat (length q) <= NPROC ->
  exists k',
    yield k = Done tt k'
    /\ procs k' = alter (set_state RUNNABLE) i (procs k)
    /\ (select_next_proc k = Mlfq ->
        queues (mlfq_sched k')
        = <[Z.to_nat (mlfq_level p) := remove_first i q ++ [i]]>
            (queues (mlfq_sched k)))
    /\ (select_next_proc k <> Mlfq -> mlfq_sched k' = mlfq_sched k).
Proof.
  intros Hcur Hp Hl Hq Hin Hlen.
  assert (Hlt : (Z.to_nat (mlfq_level p) < length (queues (mlfq_sched k)))%nat)
    by (eapply lookup_lt_Some; eassumption).
  unfold yield, bind, get. rewrite Hcur, Hp.
  destruct (select_next_proc k) eqn:Hsel; simpl; unfold modify, ret;
    (eexists; split; [reflexivity|]); simpl.
  - split; [reflexivity|]. split; [discriminate|intros _; reflexivity].
  - split; [reflexivity|]. split; [discriminate|intros _; reflexivity].
  - unfold mlfq_add_process, mlfq_remove_process.
    rewrite (level_in_range _ Hl), Hq. simpl.
    rewrite list_lookup_insert_eq by exact Hlt.
    pose proof (remove_first_length i q Hin) as Hrl.
    replace (Z.of_nat (length (remove_first i q)) <? NPROC) with true
      by (symmetry; apply Z.ltb_lt; lia).
    simpl. split; [reflexivity|]. split; [|congruence].
    intros _. now rewrite list_insert_insert_eq.
Qed.






Lemma mlfq_add_nextpid n l k : nextpid (mlfq_add_process n l k) = nextpid k.
Proof.
  unfold mlfq_add_process.
  destruct ((l <? 0) || (l >=? MAX_PRIORITY_LEVELS)); [auto|].
  destruct (queues (mlfq_sched k) !! Z.to_nat l) as [q|]; [|auto].
  destruct (Z.of_nat (length q) <? NPROC); auto.
Qed.

Lemma mlfq_remove_nextpid n l k :
  nextpid (mlfq_remove_process n l k) = nextpid k.
Proof.
  unfold mlfq_remove_process.
  destruct ((l <? 0) || (l >=? MAX_PRIORITY_LEVELS)); [auto|].
  destruct (queues (mlfq_sched k) !! Z.to_nat l); auto.
Qed.

Lemma yield_procs (k : kstate) (i : nat) (p : proc) :
  cur k = Some i -> procs k !! i = Some p ->
  exists k', yield k = Done tt k'
    /\ procs k' = alter (set_state RUNNABLE) i (procs k)
    /\ nextpid k' = nextpid k /\ cur k' = cur k
    /\ select_next_proc k' = select_next_proc k.
Proof.
  intros Hcur Hp. unfold yield, bind, get. rewrite Hcur, Hp.
  destruct (is_mlfq (select_next_proc k)); unfold modify, ret; simpl;
    (eexists; split; [reflexivity|]).
  - rewrite mlfq_add_nextpid.
    match goal with
    | |- context [mlfq_add_process i ?l ?k0] =>
        destruct (mlfq_add_frame i l k0) as (-> & -> & ->)
    end.
    unfold upd_proc; simpl. rewrite mlfq_remove_nextpid.
    destruct (mlfq_remove_frame i (mlfq_level p) k) as (-> & -> & ->).
    auto.
  - auto.
Qed.

Lemma find_unused_none ps i0 :
  find_unused ps i0 = None ->
  forall j p, ps !! j = Some p -> state p <> UNUSED.
Proof.
  revert i0. induction ps as [|q ps IH]; intros i0 H j p Hp; [discriminate|].
  simpl in H. destruct (procstate_eqb (state q) UNUSED) eqn:E; [discriminate|].
  destruct j as [|j].
  - inversion Hp; subst q. intros Hs. apply procstate_eqb_eq in Hs. congruence.
  - now apply (IH _ H j).
Qed.


Section Wait.
Context {U : Fs.UserMem}.
Context (proc_addr : nat -> Z).

Lemma kwait_scan_spec self ps i0 hk :
  match kwait_scan self ps i0 hk with
  | (Some n, _) =>
      exists j pp, n = (i0 + j)%nat /\ ps !! j = Some pp
        /\ parent pp = Some self /\ state pp = ZOMBIE
        /\ forall j' q, (j' < j)%nat -> ps !! j' = Some q ->
             parent q = Some self -> state q <> ZOMBIE
  | (None, hk') =>
      (forall j q, ps !! j = Some q -> parent q = Some self ->
                   state q <> ZOMBIE)
      /\ (hk' = true <-> hk = true \/
                         exists j q, ps !! j = Some q /\ parent q = Some self)
  end.
Proof.
  revert i0 hk. induction ps as [|x ps IH]; intros i0 hk; simpl.
  - split; [intros j q H; discriminate|].
    split; [tauto|]. intros [H|(j & q & H & _)]; [exact H|discriminate].
  - destruct (bool_decide (parent x = Some self)) eqn:Ep.
    + apply bool_decide_eq_true in Ep.
      destruct (procstate_eqb (state x) ZOMBIE) eqn:Ez.
      * apply procstate_eqb_eq in Ez. exists 0%nat, x.
        repeat split; [lia|assumption|assumption|]. intros j' q Hlt. lia.
      * assert (Hx : state x <> ZOMBIE)
          by (intros Hs; apply procstate_eqb_eq in Hs; congruence).
        specialize (IH (S i0) true).
        destruct (kwait_scan self ps (S i0) true) as [[n|] hk'].
        -- destruct IH as (j & pp & -> & Hj & Hpar & Hs & Hbefore).
           exists (S j), pp. repeat split; [lia|assumption..|].
           intros [|j'] q Hlt Hq Hqp; [inversion Hq; now subst|].
           apply (Hbefore j' q); [lia|assumption..].
        -- destruct IH as [Hnz Hhk]. split.
           ++ intros [|j] q Hq Hqp; [inversion Hq; now subst|].
              now apply (Hnz j q).
           ++ split; [|intros _; apply Hhk; now left].
              intros _. right. exists 0%nat, x. auto.
    + apply bool_decide_eq_false in Ep.
      specialize (IH (S i0) hk).
      destruct (kwait_scan self ps (S i0) hk) as [[n|] hk'].
      * destruct IH as (j & pp & -> & Hj & Hpar & Hs & Hbefore).
        exists (S j), pp. repeat split; [lia|assumption..|].
        intros [|j'] q Hlt Hq Hqp; [inversion Hq; subst; contradiction|].
        apply (Hbefore j' q); [lia|assumption..].
      * destruct IH as [Hnz Hhk]. split.
        -- intros [|j] q Hq Hqp; [inversion Hq; subst; contradiction|].
           now apply (Hnz j q).
        -- rewrite Hhk. split; (intros [H|(j & q & Hq & Hqp)]; [now left|right]).
           ++ now exists (S j), q.
           ++ destruct j as [|j]; [inversion Hq; subst; contradiction|].
              now exists j, q.
Qed.

(** One turn of [kwait].  The first child in table order that is a
    ZOMBIE is reaped: its pid is returned, its exit status is copied out
    when the caller gave an address, and its slot is freed; when the
    copy fails the result is -1 and the child stays a ZOMBIE.  A caller
    without children, or one that has been killed, gets -1 at once.
    Otherwise the caller goes to sleep on its own address. *)
Theorem kwait_turn_spec (addr : Z) (k : kstate) (self : nat) (p : proc) :
  cur k = Some self -> procs k !! self = Some p ->
  (forall i pp,
      (i < Z.to_nat NPROC)%nat -> procs k !! i = Some pp ->
      parent pp = Some self -> state pp = ZOMBIE ->
      (forall j q, (j < i)%nat -> procs k !! j = Some q ->
                   parent q = Some self -> state q <> ZOMBIE) ->
      kwait_turn proc_addr addr k
      = if negb (addr =? 0) && negb (Fs.copyout_ok addr 4)
        then Done (Some (-1, None)) k
        else Done (Some (pid pp, if addr =? 0 then None else Some (xstate pp)))
                  (upd_proc i freeproc k))
  /\ ((forall i pp, (i < Z.to_nat NPROC)%nat -> procs k !! i = Some pp ->
                    parent pp = Some self -> state pp <> ZOMBIE) ->
      ((forall i pp, (i < Z.to_nat NPROC)%nat -> procs k !! i = Some pp ->
                     parent pp <> Some self)
       \/ killed p <> 0 ->
       kwait_turn proc_addr addr k = Done (Some (-1, None)) k)
      /\ ((exists i pp, (i < Z.to_nat NPROC)%nat /\ procs k !! i = Some pp
                        /\ parent pp = Some self) ->
          killed p = 0 ->
          kwait_turn proc_addr addr k
          = bind (sleep_enter (proc_addr self)) (fun _ => ret None) k)).
Proof.
  intros Hcur Hp.
  remember (kwait_turn proc_addr addr k) as r eqn:Hr.
  unfold kwait_turn, bind at 1, get in Hr. rewrite Hcur, Hp in Hr.
  pose proof (kwait_scan_spec self (firstn (Z.to_nat NPROC) (procs k)) 0 false) as H.
  destruct (kwait_scan self (firstn (Z.to_nat NPROC) (procs k)) 0 false)
    as [[n|] hk].
  - destruct H as (j & pp & -> & Hj & Hpar & Hs & Hbefore). simpl in Hr.
    apply lookup_take_Some in Hj as [Hj Hlt].
    rewrite Hj in Hr. subst r.
    split.
    + intros i pp' Hi Hpp' Hpar' Hs' Hfirst.
      assert (i = j) as ->.
      { destruct (Nat.lt_trichotomy i j) as [Hc|[Hc|Hc]]; [|exact Hc|].
        - exfalso. apply (Hbefore i pp' Hc); [|assumption..].
          rewrite lookup_take_lt by lia. exact Hpp'.
        - exfalso. now apply (Hfirst j pp Hc Hj). }
      assert (pp' = pp) as -> by congruence.
      destruct (negb (addr =? 0) && negb (Fs.copyout_ok addr 4)); reflexivity.
    + intros Hnz. exfalso. now apply (Hnz j pp Hlt Hj).
  - destruct H as [Hnz Hhk]. subst r. split.
    + intros i pp Hi Hpp Hpar Hs _. exfalso.
      apply (Hnz i pp); [|assumption..].
      rewrite lookup_take_lt by lia. exact Hpp.
    + intros _. split.
      * intros [Hnokids|Hkilled].
        -- destruct hk; [|reflexivity]. exfalso.
           destruct (proj1 Hhk eq_refl) as [H|(j & q & Hq & Hqp)];
             [discriminate|].
           apply lookup_take_Some in Hq as [Hq Hlt].
           now apply (Hnokids j q).
        -- apply Z.eqb_neq in Hkilled. rewrite Hkilled.
           now rewrite orb_true_r.
      * intros (i & pp & Hi & Hpp & Hpar) Hkilled.
        replace hk with true.
        -- rewrite Hkilled. reflexivity.
        -- symmetry. apply Hhk. right. exists i, pp.
           rewrite lookup_take_lt by lia. auto.
Qed.

End Wait.

Section Reparent.
Context (proc_addr : nat -> Z).
Context (initproc : nat).

Lemma wakeup_lookup chn k j :
  length (procs k) = Z.to_nat NPROC ->
  procs (wakeup chn k) !! j
  = (fun pp => if wakes (cur k) chn j pp then set_state RUNNABLE pp else pp)
      <$> procs k !! j.
Proof.
  intros Hlen. unfold wakeup. cbn [procs set_procs].
  rewrite take_ge, drop_ge, app_nil_r by lia.
  destruct (procs k !! j) as [pp|] eqn:Hj; simpl.
  - now rewrite (wakeup_scan_lookup _ _ _ 0 j pp Hj).
  - apply lookup_ge_None. rewrite wakeup_scan_length.
    now apply lookup_ge_None.
Qed.

Lemma wakeup_length chn k :
  length (procs (wakeup chn k)) = length (procs k).
Proof.
  unfold wakeup. cbn [procs set_procs].
  rewrite length_app, wakeup_scan_length, <- length_app, take_drop.
  reflexivity.
Qed.

Lemma wakes_runnable self chn j pp :
  wakes self chn j (set_state RUNNABLE pp) = false.
Proof. unfold wakes. simpl. now rewrite andb_false_r. Qed.

Lemma wakes_set_parent self chn j v pp :
  wakes self chn j (set_parent v pp) = wakes self chn j pp.
Proof. reflexivity. Qed.

Lemma reparent_scan_spec p n :
  forall i k (b : bool),
    length (procs k) = Z.to_nat NPROC -> (i + n)%nat = Z.to_nat NPROC ->
    (b = true <-> exists j pp, (i <= j)%nat /\ procs k !! j = Some pp
                               /\ parent pp = Some p) ->
    cur (reparent_scan proc_addr initproc p n i k) = cur k
    /\ nextpid (reparent_scan proc_addr initproc p n i k) = nextpid k
    /\ select_next_proc (reparent_scan proc_addr initproc p n i k)
       = select_next_proc k
    /\ mlfq_sched (reparent_scan proc_addr initproc p n i k) = mlfq_sched k
    /\ forall j pp, procs k !! j = Some pp ->
         procs (reparent_scan proc_addr initproc p n i k) !! j
         = Some (let pp1 :=
                   if (i <=? j)%nat && bool_decide (parent pp = Some p)
                   then set_parent (Some initproc) pp else pp in
                 if b && wakes (cur k) (proc_addr initproc) j pp
                 then set_state RUNNABLE pp1 else pp1).
Proof.
  induction n as [|n IH]; intros i k b Hlen Hin Hb.
  - simpl. do 4 (split; [reflexivity|]). intros j pp Hj.
    assert (Hlt : (j < i)%nat) by (apply lookup_lt_Some in Hj; lia).
    replace (i <=? j)%nat with false by (symmetry; apply Nat.leb_gt; lia).
    replace b with false; [now rewrite Hj|].
    destruct b; [|reflexivity]. exfalso.
    destruct (proj1 Hb eq_refl) as (j' & pp' & Hj' & Hpp' & _).
    apply lookup_lt_Some in Hpp'. lia.
  - simpl. destruct (procs k !! i) as [x|] eqn:Hx;
      [|apply lookup_ge_None in Hx; lia].
    destruct (bool_decide (parent x = Some p)) eqn:Ex.
    + apply bool_decide_eq_true in Ex.
      assert (b = true) as -> by (apply Hb; exists i, x; auto).
      set (k0 := upd_proc i (set_parent (Some initproc)) k).
      set (k1 := wakeup (proc_addr initproc) k0).
      assert (Hlen0 : length (procs k0) = Z.to_nat NPROC)
        by (unfold k0, upd_proc; cbn [procs set_procs];
            now rewrite length_alter).
      assert (Hlen1 : length (procs k1) = Z.to_nat NPROC)
        by (unfold k1; now rewrite wakeup_length).
      assert (Hlook : forall j pp, procs k !! j = Some pp ->
                procs k1 !! j
                = Some (let pp0 := if bool_decide (j = i)
                                   then set_parent (Some initproc) pp else pp in
                        if wakes (cur k) (proc_addr initproc) j pp
                        then set_state RUNNABLE pp0 else pp0)).
      { intros j pp Hj. unfold k1. rewrite wakeup_lookup by exact Hlen0.
        unfold k0, upd_proc; cbn [procs set_procs cur].
        destruct (decide (j = i)) as [->|Hne].
        - rewrite list_lookup_alter_eq, Hj, bool_decide_eq_true_2 by reflexivity.
          reflexivity.
        - rewrite list_lookup_alter_ne, Hj, bool_decide_eq_false_2 by congruence.
          reflexivity. }
      set (b1 := existsb (fun pp => bool_decide (parent pp = Some p))
                   (drop (S i) (procs k))).
      assert (Hb1 : b1 = true <-> exists j pp, (S i <= j)%nat
                      /\ procs k1 !! j = Some pp /\ parent pp = Some p).
      { unfold b1. rewrite existsb_exists. split.
        - intros (pp & Hin' & Hpp). apply bool_decide_eq_true in Hpp.
          apply list_elem_of_In, list_elem_of_lookup in Hin' as [j Hj].
          rewrite lookup_drop in Hj. exists (S i + j)%nat.
          rewrite (Hlook _ _ Hj).
          rewrite bool_decide_eq_false_2 by lia.
          eexists. split; [lia|]. split; [reflexivity|].
          cbv zeta. now destruct (wakes _ _ _ _).
        - intros (j & pp1 & Hle & Hj1 & Hpp1).
          destruct (procs k !! j) as [pp|] eqn:Hj;
            [|apply lookup_ge_None in Hj; apply lookup_lt_Some in Hj1; lia].
          rewrite (Hlook _ _ Hj) in Hj1.
          rewrite bool_decide_eq_false_2 in Hj1 by lia.
          exists pp. split.
          + apply list_elem_of_In, list_elem_of_lookup. exists (j - S i)%nat.
            rewrite lookup_drop. now replace (S i + (j - S i))%nat with j by lia.
          + apply bool_decide_eq_true. inversion Hj1; subst pp1.
            cbv zeta in Hpp1. now destruct (wakes _ _ _ _). }
      destruct (IH (S i) k1 b1 Hlen1 ltac:(lia) Hb1)
        as (Hc & Hn & Hs & Hm & Hprocs).
      do 4 (split; [first [exact Hc|exact Hn|exact Hs|exact Hm]|]).
      intros j pp Hj. rewrite (Hprocs _ _ (Hlook _ _ Hj)).
      f_equal. change (cur k1) with (cur k). cbv zeta.
      destruct (decide (j = i)) as [->|Hne].
      * assert (pp = x) as -> by congruence.
        rewrite bool_decide_eq_true_2 by reflexivity.
        rewrite Nat.leb_refl, (bool_decide_eq_true_2 _ Ex).
        replace (S i <=? i)%nat with false by (symmetry; apply Nat.leb_gt; lia).
        cbn [andb].
        destruct (wakes (cur k) (proc_addr initproc) i x) eqn:Ew.
        -- now rewrite wakes_runnable, andb_false_r.
        -- now rewrite wakes_set_parent, Ew, andb_false_r.
      * rewrite bool_decide_eq_false_2 by exact Hne.
        replace (S i <=? j)%nat with (i <=? j)%nat
          by (destruct (Nat.leb_spec i j), (Nat.leb_spec (S i) j); lia || reflexivity).
        cbn [andb].
        destruct (wakes (cur k) (proc_addr initproc) j pp) eqn:Ew.
        -- rewrite wakes_runnable, andb_false_r.
           change (parent (set_state RUNNABLE pp)) with (parent pp).
           now destruct ((i <=? j)%nat && bool_decide (parent pp = Some p)).
        -- now rewrite Ew, andb_false_r.
    + apply bool_decide_eq_false in Ex.
      assert (Hb' : b = true <-> exists j pp, (S i <= j)%nat
                      /\ procs k !! j = Some pp /\ parent pp = Some p).
      { rewrite Hb. split; intros (j & pp & Hle & Hj & Hpp).
        - exists j, pp. repeat split; [|assumption..].
          destruct (decide (j = i)) as [->|]; [congruence|lia].
        - exists j, pp. repeat split; [lia|assumption..]. }
      destruct (IH (S i) k b Hlen ltac:(lia) Hb')
        as (Hc & Hn & Hs & Hm & Hprocs).
      do 4 (split; [first [exact Hc|exact Hn|exact Hs|exact Hm]|]).
      intros j pp Hj. rewrite (Hprocs _ _ Hj). f_equal. cbv zeta.
      destruct (decide (j = i)) as [->|Hne].
      * assert (pp = x) as -> by congruence.
        rewrite (bool_decide_eq_false_2 _ Ex), !andb_false_r. reflexivity.
      * replace (S i <=? j)%nat with (i <=? j)%nat
          by (destruct (Nat.leb_spec i j), (Nat.leb_spec (S i) j); lia || reflexivity).
        reflexivity.
Qed.

(** [reparent] hands every child of the given process to [initproc] and
    calls [wakeup(initproc)] once per child.  The loop amounts to one
    pass that rewrites the parent pointers, followed, when there was a
    child at all, by one wakeup: a slot other than the caller's that
    sleeps on the address of [initproc] becomes RUNNABLE, and nothing
    else changes. *)
Theorem reparent_spec (p : nat) (k : kstate) :
  length (procs k) = Z.to_nat NPROC ->
  cur (reparent proc_addr initproc p k) = cur k
  /\ mlfq_sched (reparent proc_addr initproc p k) = mlfq_sched k
  /\ forall j pp, procs k !! j = Some pp ->
       procs (reparent proc_addr initproc p k) !! j
       = Some (let pp1 :=
                 if bool_decide (parent pp = Some p)
                 then set_parent (Some initproc) pp else pp in
               if existsb (fun q => bool_decide (parent q = Some p)) (procs k)
                  && wakes (cur k) (proc_addr initproc) j pp
               then set_state RUNNABLE pp1 else pp1).
Proof.
  intros Hlen. unfold reparent.
  destruct (reparent_scan_spec p (Z.to_nat NPROC) 0 k
              (existsb (fun q => bool_decide (parent q = Some p)) (procs k))
              Hlen eq_refl) as (Hc & _ & _ & Hm & Hprocs).
  - rewrite existsb_exists. split.
    + intros (pp & Hin & Hpp). apply bool_decide_eq_true in Hpp.
      apply list_elem_of_In, list_elem_of_lookup in Hin as [j Hj].
      exists j, pp. repeat split; [lia|assumption..].
    + intros (j & pp & _ & Hj & Hpp). exists pp. split.
      * apply list_elem_of_In, list_elem_of_lookup. now exists j.
      * now apply bool_decide_eq_true.
  - split; [exact Hc|]. split; [exact Hm|]. exact Hprocs.
Qed.

End Reparent.
End WithParams.
End SchedFacts.

(** ** Fork *)

Module ForkFacts.
Import Layout FsLayout Fs Sys Fork.

Ltac look :=
  cbn [pstate set_pstate set_fstate fstate ftable Proc.procs Proc.upd_proc
       Proc.set_procs fmap option_fmap option_map];
  repeat first
    [ rewrite list_lookup_alter_eq
    | rewrite list_lookup_alter_ne by congruence
    | rewrite list_lookup_insert_eq
        by (repeat first [rewrite length_alter | rewrite length_insert];
            assumption)
    | rewrite list_lookup_insert_ne by congruence
    | progress cbn [fmap option_fmap option_map] ].

Ltac flat :=
  cbn [pstate set_pstate set_fstate fstate ftable Proc.upd_proc
       Proc.set_procs Proc.procs Proc.cur Proc.nextpid
       Proc.select_next_proc Proc.mlfq_sched].

Section WithParams.
Context {P : KernelParams} {U : UserMem}.
Context (filedup : Z -> M kernel Z).
Context (safestrcpy : list Z -> list Z -> Z -> list Z).

Lemma proc_at_eval i k p :
  Proc.procs (pstate k) !! i = Some p -> proc_at i k = Done p k.
Proof. intros H. unfold proc_at, bind, get. cbv beta. rewrite H. reflexivity. Qed.

Lemma set_ofile_same c : Proc.set_ofile (Proc.ofile c) c = c.
Proof. destruct c; reflexivity. Qed.

Lemma alter_as_insert {A} (l : list A) i f x :
  l !! i = Some x -> alter f i l = <[i := f x]> l.
Proof.
  intros H. apply list_eq. intros j.
  destruct (decide (j = i)) as [->|Hne].
  - rewrite list_lookup_alter_eq, H.
    rewrite list_lookup_insert_eq by (eapply lookup_lt_Some; eassumption).
    reflexivity.
  - rewrite list_lookup_alter_ne, list_lookup_insert_ne by congruence.
    reflexivity.
Qed.

(** The loop over the descriptors changes the descriptor array of the
    child and, through [filedup], the file table; nothing else. *)
Lemma dup_files_spec turns :
  forall i pi np k p c,
    file_table_only filedup ->
    np <> pi ->
    Proc.procs (pstate k) !! pi = Some p ->
    Proc.procs (pstate k) !! np = Some c ->
    (i + turns <= length (Proc.ofile p))%nat ->
    length (Proc.ofile c) = length (Proc.ofile p) ->
    exists k' ol,
      dup_files filedup turns i pi np k = Done tt k'
      /\ fstate k' = fstate k
      /\ pstate k'
         = Proc.set_procs (<[np := Proc.set_ofile ol c]> (Proc.procs (pstate k)))
                          (pstate k)
      /\ length ol = length (Proc.ofile c).
Proof.
  induction turns as [|turns IH]; intros i pi np k p c Hfd Hne Hp Hc Hi Hl.
  - exists k, (Proc.ofile c). split; [reflexivity|]. split; [reflexivity|].
    split; [|reflexivity].
    rewrite set_ofile_same, list_insert_id by assumption.
    destruct (pstate k); reflexivity.
  - cbn [dup_files].
    rewrite (bind_done _ _ _ _ _ (proc_at_eval pi k p Hp)).
    destruct (Proc.ofile p !! i) as [[f|]|] eqn:Ef.
    + destruct (Hfd f k) as (f' & k2 & Hf & Hps & Hfs).
      rewrite bind_assoc, (bind_done _ _ _ _ _ Hf).
      assert (Hc2 : Proc.procs (pstate k2) !! np = Some c) by (rewrite Hps; exact Hc).
      rewrite bind_assoc, (bind_done _ _ _ _ _ (proc_at_eval np k2 c Hc2)).
      assert (Hlt : (i <? length (Proc.ofile c))%nat = true)
        by (apply Nat.ltb_lt; lia).
      rewrite Hlt.
      unfold upd_at at 1. unfold modify at 1. unfold bind at 1.
      set (c1 := Proc.set_ofile (<[i := Some f']> (Proc.ofile c)) c).
      set (k3 := set_pstate _ k2).
      assert (Hk3 : Proc.procs (pstate k3) = <[np := c1]> (Proc.procs (pstate k))).
      { unfold k3. simpl. rewrite Hps. rewrite (alter_as_insert _ np _ c Hc). reflexivity. }
      destruct (IH (S i) pi np k3 p c1 Hfd Hne) as (k' & ol & Hrun & Hfs' & Hps' & Hlen).
      * rewrite Hk3, list_lookup_insert_ne by congruence. exact Hp.
      * rewrite Hk3, list_lookup_insert_eq by (eapply lookup_lt_Some; eassumption).
        reflexivity.
      * lia.
      * unfold c1. simpl. rewrite length_insert. exact Hl.
      * exists k', ol. split; [exact Hrun|]. split.
        { rewrite Hfs'. unfold k3. simpl. exact Hfs. }
        split.
        { rewrite Hps', Hk3, list_insert_insert_eq. unfold k3. simpl. rewrite Hps.
          reflexivity. }
        rewrite Hlen. unfold c1. simpl. apply length_insert.
    + rewrite bind_ret_l.
      destruct (IH (S i) pi np k p c Hfd Hne Hp Hc) as (k' & ol & Hrun & Hrest);
        [lia|exact Hl|].
      exists k', ol. split; [exact Hrun|exact Hrest].
    + exfalso. apply lookup_ge_None in Ef. lia.
Qed.


Lemma myproc_eval k i p :
  Proc.cur (pstate k) = Some i -> Proc.procs (pstate k) !! i = Some p ->
  myproc k = Done (i, p) k.
Proof.
  intros Hc Hp. unfold myproc, bind, get. cbv beta. rewrite Hc, Hp. reflexivity.
Qed.

Lemma in_proc_eval {A} (m : M Proc.kstate A) k a s :
  m (pstate k) = Done a s -> in_proc m k = Done a (set_pstate s k).
Proof. intros H. unfold in_proc. rewrite H. reflexivity. Qed.

Lemma in_fs_eval {A} (m : M fs A) k a s :
  m (fstate k) = Done a s -> in_fs m k = Done a (set_fstate s k).
Proof. intros H. unfold in_fs. rewrite H. reflexivity. Qed.

Lemma idup_eval ip s i :
  itable s !! ip = Some i ->
  idup ip s
  = Done ip (set_itable (alter (fun i => set_ref (to_int (ref i + 1)) i) ip
                               (itable s)) s).
Proof.
  intros H. unfold idup, ip_get, ip_upd, get, modify, ret, bind. cbv beta.
  rewrite H. reflexivity.
Qed.

Lemma proc_at_bind {B} i k p (f : Proc.proc -> M kernel B) :
  Proc.procs (pstate k) !! i = Some p -> bind (proc_at i) f k = f p k.
Proof. intros H. apply bind_done, proc_at_eval, H. Qed.

Lemma upd_at_bind {B} i g k (f : unit -> M kernel B) :
  bind (upd_at i g) f k
  = f tt (set_pstate (Proc.upd_proc i g (pstate k)) k).
Proof. reflexivity. Qed.

(** [allocproc] on a table with an UNUSED slot, when the trap-frame page
    and the page table can be had: the first UNUSED slot is taken and
    set up, the pid counter moves on, and nothing else changes. *)
Lemma allocproc_found_spec env ks np c0 page :
  Proc.find_unused (firstn (Z.to_nat NPROC) (Proc.procs ks)) 0%nat = Some np ->
  Proc.procs ks !! np = Some c0 ->
  Proc.kalloc_page env = Some page -> Proc.new_pagetable env <> 0 ->
  exists ks1 c1,
    Proc.allocproc env ks = Done (Some np) ks1
    /\ Proc.procs ks1 = <[np := c1]> (Proc.procs ks)
    /\ Proc.cur ks1 = Proc.cur ks
    /\ Proc.select_next_proc ks1 = Proc.select_next_proc ks
    /\ Proc.mlfq_sched ks1 = Proc.mlfq_sched ks
    /\ Proc.nextpid ks1 = to_int (Proc.nextpid ks + 1)
    /\ Proc.state c1 = Proc.USED /\ Proc.pid c1 = Proc.nextpid ks
    /\ Proc.priority c1 = 5 /\ Proc.mlfq_level c1 = 0
    /\ Proc.tf c1 = Some page /\ Proc.ofile c1 = Proc.ofile c0
    /\ Proc.pagetable c1 = Proc.new_pagetable env
    /\ Proc.errno c1 = 0 /\ Proc.time_used c1 = 0 /\ Proc.time_quantum c1 = 1
    /\ Proc.name c1 = Proc.name c0.
Proof.
  intros Hfind Hc0 Hka Hpt.
  unfold Proc.allocproc, bind, get. cbv beta. rewrite Hfind.
  unfold Proc.allocproc_found, Proc.allocpid, bind, get, put, modify, ret.
  cbv beta. rewrite Hka. cbv beta iota.
  destruct (Proc.new_pagetable env =? 0) eqn:E;
    [apply Z.eqb_eq in E; contradiction|].
  eexists _, _. split; [reflexivity|].
  split.
  { unfold Proc.upd_proc. simpl. rewrite !list_alter_alter_eq.
    apply (alter_as_insert _ np _ c0 Hc0). }
  simpl. repeat split; reflexivity.
Qed.

(** What is left of [kfork] once the child is set up: the test that
    lets a parent of lower priority give up the CPU, and the result. *)
Lemma kfork_prefix (env : Proc.fork_env) (k : kernel)
      (pi np : nat) (p c0 : Proc.proc) (page ptf : Proc.trapframe)
      (cw : nat) (ci : inode) :
  file_table_only filedup ->
  Proc.cur (pstate k) = Some pi ->
  Proc.procs (pstate k) !! pi = Some p ->
  Proc.state p <> Proc.UNUSED ->
  Proc.tf p = Some ptf ->
  Proc.cwd p = Some cw -> itable (fstate k) !! cw = Some ci ->
  length (Proc.ofile p) = Z.to_nat NOFILE ->
  Proc.find_unused (firstn (Z.to_nat NPROC) (Proc.procs (pstate k))) 0%nat
  = Some np ->
  Proc.procs (pstate k) !! np = Some c0 ->
  length (Proc.ofile c0) = Z.to_nat NOFILE ->
  Proc.kalloc_page env = Some page -> Proc.new_pagetable env <> 0 ->
  0 <= Proc.uvmcopy_ret env ->
  exists k1 ft c,
    kfork filedup safestrcpy env k
    = (p0 <- proc_at pi ;;
       (if 5 >? Proc.priority p0 then in_proc Proc.yield else ret tt) ;;;
       ret (Proc.nextpid (pstate k)))
        {| pstate := if Proc.is_mlfq (Proc.select_next_proc (pstate k))
                     then Proc.mlfq_add_process np 0 k1 else k1;
           fstate := set_itable
                       (alter (fun i => set_ref (to_int (ref i + 1)) i) cw
                              (itable (fstate k))) (fstate k);
           ftable := ft |}
    /\ Proc.procs k1 = <[np := c]> (Proc.procs (pstate k))
    /\ Proc.cur k1 = Proc.cur (pstate k)
    /\ Proc.select_next_proc k1 = Proc.select_next_proc (pstate k)
    /\ Proc.mlfq_sched k1 = Proc.mlfq_sched (pstate k)
    /\ Proc.nextpid k1 = to_int (Proc.nextpid (pstate k) + 1)
    /\ Proc.state c = Proc.RUNNABLE
    /\ Proc.pid c = Proc.nextpid (pstate k)
    /\ Proc.parent c = Some pi
    /\ Proc.mlfq_level c = 0
    /\ Proc.cwd c = Some cw
    /\ Proc.tf c = Some (Proc.set_a0 0 ptf)
    /\ Proc.sz c = Proc.sz p
    /\ Proc.name c = safestrcpy (Proc.name c0) (Proc.name p) sizeof_name
    /\ Proc.pagetable c = Proc.new_pagetable env
    /\ Proc.priority c = 5 /\ Proc.errno c = 0
    /\ Proc.time_used c = 0 /\ Proc.time_quantum c = 1
    /\ length (Proc.ofile c) = Z.to_nat NOFILE.
Proof.
  intros Hfd Hcur Hp Hst Htf Hcwd Hci Hlp Hfind Hc0 Hlc Hka Hpt Huv.
  assert (Hs0 : Proc.state c0 = Proc.UNUSED).
  { destruct (ProcFacts.find_unused_spec _ _ _ Hfind) as (j & c0' & Hj & Hc0' & Hs0).
    simpl in Hj. subst j. apply lookup_take_Some in Hc0' as [Hc0' _].
    congruence. }
  assert (Hne : np <> pi) by (intros ->; congruence).
  destruct (allocproc_found_spec env (pstate k) np c0 page Hfind Hc0 Hka Hpt)
    as (ks1 & c1 & Hal & Hps1 & Hcur1 & Hsel1 & Hq1 & Hnext1 & Hst1 & Hpid1
        & Hprio1 & Hlev1 & Htf1 & Hof1 & Hpt1 & Herr1 & Htu1 & Htq1 & Hnm1).
  unfold kfork.
  rewrite (bind_done _ _ _ _ _ (myproc_eval k pi p Hcur Hp)). cbn [fst].
  rewrite (bind_done _ _ _ _ _ (in_proc_eval _ k _ _ Hal)).
  destruct (Proc.uvmcopy_ret env <? 0) eqn:E2; [apply Z.ltb_lt in E2; lia|].
  destruct ks1 as [procs1 cur1 next1 sel1 mq1].
  simpl in Hps1, Hcur1, Hsel1, Hq1, Hnext1.
  subst procs1 cur1 sel1 mq1 next1.
  assert (Hlt : (np < length (Proc.procs (pstate k)))%nat)
    by (eapply lookup_lt_Some; eassumption).
  rewrite (proc_at_bind pi _ p) by (look; exact Hp).
  rewrite upd_at_bind. flat.
  rewrite (proc_at_bind pi _ p) by (look; exact Hp).
  erewrite (proc_at_bind np) by (look; reflexivity).
  rewrite Htf. cbn [Proc.tf Proc.set_sz]. rewrite Htf1.
  rewrite !upd_at_bind. flat.
  match goal with
  | |- context [bind (dup_files _ _ _ _ _) _ ?K] => set (K3 := K)
  end.
  destruct (dup_files_spec (Z.to_nat NOFILE) 0 pi np K3 p
              (Proc.set_tf (Some (Proc.set_a0 0 ptf))
                 (Proc.set_tf (Some ptf) (Proc.set_sz (Proc.sz p) c1)))
              Hfd Hne)
    as (k4 & ol & Hrun & Hfs4 & Hps4 & Hlen4).
  { unfold K3. look. exact Hp. }
  { unfold K3. look. reflexivity. }
  { lia. }
  { cbn [Proc.ofile Proc.set_tf Proc.set_sz]. congruence. }
  rewrite (bind_done _ _ _ _ _ Hrun).
  destruct k4 as [ps4 fs4 ft4]. cbn [pstate fstate] in Hfs4, Hps4.
  subst ps4 fs4. unfold K3 in *. clear K3 Hrun. flat.
  rewrite (proc_at_bind pi _ p) by (look; exact Hp).
  rewrite Hcwd.
  match goal with
  | |- context [bind (in_fs (idup cw)) _ ?K] =>
      rewrite (bind_done _ _ K _ _
                 (in_fs_eval _ K _ _ (idup_eval cw (fstate k) ci Hci)))
  end. flat.
  rewrite upd_at_bind. flat.
  rewrite (proc_at_bind pi _ p) by (look; exact Hp).
  rewrite upd_at_bind. flat.
  erewrite (proc_at_bind np) by (look; reflexivity).
  rewrite !upd_at_bind. flat.
  erewrite (proc_at_bind np) by (look; reflexivity).
  rewrite get_bind. flat.
  cbn [Proc.mlfq_level Proc.priority Proc.pid Proc.set_state Proc.set_parent
       Proc.set_name Proc.set_cwd Proc.set_ofile Proc.set_tf Proc.set_sz].
  rewrite Hlev1, Hprio1, Hpid1.
  match goal with
  | |- context [Proc.is_mlfq _] => idtac
  end.
  match goal with
  | |- context [set_pstate ?K1 (set_pstate _ _)] => set (k1 := K1)
  end.
  assert (Hk1 : Proc.procs k1
                = <[np := Proc.set_state Proc.RUNNABLE
                            (Proc.set_parent (Some pi)
                               (Proc.set_name
                                  (safestrcpy (Proc.name c1) (Proc.name p)
                                              sizeof_name)
                                  (Proc.set_cwd (Some cw)
                                     (Proc.set_ofile ol
                                        (Proc.set_tf
                                           (Some (Proc.set_a0 0 ptf))
                                           (Proc.set_tf (Some ptf)
                                              (Proc.set_sz (Proc.sz p)
                                                           c1)))))))]>
                    (Proc.procs (pstate k))).
  { apply list_eq. intros j. unfold k1.
    destruct (decide (j = np)) as [->|Hj].
    - look. reflexivity.
    - look. reflexivity. }
  assert (Hrest : Proc.cur k1 = Proc.cur (pstate k)
                  /\ Proc.select_next_proc k1 = Proc.select_next_proc (pstate k)
                  /\ Proc.mlfq_sched k1 = Proc.mlfq_sched (pstate k)
                  /\ Proc.nextpid k1 = to_int (Proc.nextpid (pstate k) + 1))
    by (repeat split; reflexivity).
  clearbody k1.
  exists k1, ft4. eexists. split.
  { destruct (Proc.is_mlfq (Proc.select_next_proc (pstate k))).
    - match goal with
      | |- context [bind (in_proc (modify ?f)) _ ?K] =>
          rewrite (bind_done _ _ K _ _ (in_proc_eval (modify f) K _ _ eq_refl))
      end.
      reflexivity.
    - rewrite bind_ret_l. reflexivity. }
  split; [exact Hk1|].
  destruct Hrest as (H1 & H2 & H3 & H4).
  do 4 (split; [assumption|]).
  cbn [Proc.state Proc.pid Proc.parent Proc.mlfq_level Proc.cwd Proc.tf
       Proc.sz Proc.name Proc.pagetable Proc.priority Proc.errno
       Proc.time_used Proc.time_quantum Proc.ofile
       Proc.set_state Proc.set_parent Proc.set_name Proc.set_cwd
       Proc.set_ofile Proc.set_tf Proc.set_sz].
  rewrite Hnm1, Hlen4. cbn [Proc.ofile Proc.set_tf Proc.set_sz].
  rewrite Hof1. repeat split; assumption.
Qed.

(** C6, amended: under the MLFQ selector a fork that succeeds leaves
    the child runnable with the MLFQ level that [allocproc] gives every
    new process, level 0, whatever the level of the parent; the child
    is put on the queue of level 0 if that queue has room, and on no
    queue of another level.  The parent's working directory is a
    referenced inode, on which the child takes one more reference. *)
Theorem kfork_enqueues_child_at_level_0 (env : Proc.fork_env) (k : kernel)
        (pi np : nat) (p c0 : Proc.proc) (page ptf : Proc.trapframe)
        (cw : nat) (ci : inode) :
  file_table_only filedup ->
  Proc.cur (pstate k) = Some pi ->
  Proc.procs (pstate k) !! pi = Some p ->
  Proc.state p <> Proc.UNUSED ->
  Proc.tf p = Some ptf ->
  Proc.cwd p = Some cw -> itable (fstate k) !! cw = Some ci ->
  length (Proc.ofile p) = Z.to_nat NOFILE ->
  Proc.select_next_proc (pstate k) = Proc.Mlfq ->
  Proc.find_unused (firstn (Z.to_nat NPROC) (Proc.procs (pstate k))) 0%nat
  = Some np ->
  Proc.procs (pstate k) !! np = Some c0 ->
  length (Proc.ofile c0) = Z.to_nat NOFILE ->
  Proc.kalloc_page env = Some page -> Proc.new_pagetable env <> 0 ->
  0 <= Proc.uvmcopy_ret env ->
  exists k' c,
    kfork filedup safestrcpy env k = Done (Proc.nextpid (pstate k)) k'
    /\ Proc.procs (pstate k') !! np = Some c
    /\ Proc.state c = Proc.RUNNABLE /\ Proc.pid c = Proc.nextpid (pstate k)
    /\ Proc.parent c = Some pi
    /\ Proc.mlfq_level c = 0
    /\ Proc.cwd c = Some cw
    /\ ref <$> itable (fstate k') !! cw = Some (to_int (ref ci + 1))
    /\ (forall q0,
          Proc.queues (Proc.mlfq_sched (pstate k)) !! 0%nat = Some q0 ->
          Z.of_nat (length q0) < NPROC -> Proc.enqueued (pstate k') np 0)
    /\ (forall l, l <> 0%nat -> Proc.enqueued (pstate k') np l ->
                  Proc.enqueued (pstate k) np l).
Proof.
  intros Hfd Hcur Hp Hst Htf Hcwd Hci Hlp Hsel Hfind Hc0 Hlc Hka Hpt Huv.
  assert (Hne : np <> pi).
  { destruct (ProcFacts.find_unused_spec _ _ _ Hfind) as (j & c0' & Hj & Hc0' & Hs0).
    simpl in Hj. subst j. apply lookup_take_Some in Hc0' as [Hc0' _].
    intros ->. congruence. }
  assert (Hlt : (np < length (Proc.procs (pstate k)))%nat)
    by (eapply lookup_lt_Some; eassumption).
  destruct (kfork_prefix env k pi np p c0 page ptf cw ci Hfd Hcur Hp Hst Htf
              Hcwd Hci Hlp Hfind Hc0 Hlc Hka Hpt Huv)
    as (k1 & ft & c & Hrun & Hps1 & Hcur1 & _ & Hq1 & _ & Hcs & Hcp & Hcpar
        & Hcl & Hcc & _).
  rewrite Hrun, Hsel. cbn [Proc.is_mlfq]. clear Hrun.
  assert (Hc : Proc.procs k1 !! np = Some c)
    by (rewrite Hps1; apply list_lookup_insert_eq; exact Hlt).
  assert (Hk1pi : Proc.procs k1 !! pi = Some p)
    by (rewrite Hps1, list_lookup_insert_ne by congruence; exact Hp).
  assert (Hq0 : forall q0,
             Proc.queues (Proc.mlfq_sched (pstate k)) !! 0%nat = Some q0 ->
             Z.of_nat (length q0) < NPROC ->
             Proc.enqueued (Proc.mlfq_add_process np 0 k1) np 0).
  { intros q0 Hq Hlen.
    apply (ProcFacts.mlfq_add_enqueued np 0 k1 q0);
      [unfold Proc.MAX_PRIORITY_LEVELS; lia|rewrite Hq1; exact Hq|exact Hlen]. }
  assert (Hother : forall l, l <> 0%nat ->
             Proc.enqueued (Proc.mlfq_add_process np 0 k1) np l ->
             Proc.enqueued (pstate k) np l).
  { intros l Hl H.
    apply ProcFacts.mlfq_add_enqueued_other in H; [|right; exact Hl].
    unfold Proc.enqueued in *. rewrite Hq1 in H. exact H. }
  assert (Href : ref <$> alter (fun i => set_ref (to_int (ref i + 1)) i) cw
                               (itable (fstate k)) !! cw
                 = Some (to_int (ref ci + 1)))
    by (rewrite list_lookup_alter_eq, Hci; reflexivity).
  destruct (ProcFacts.mlfq_add_frame np 0 k1) as (Hfp & Hfc & _).
  rewrite (proc_at_bind pi _ p) by (cbn [pstate]; rewrite Hfp; exact Hk1pi).
  destruct (5 >? Proc.priority p).
  - destruct (ProcFacts.yield_other (Proc.mlfq_add_process np 0 k1) pi p)
      as (ky & Hy & Hprocs & Henq).
    + rewrite Hfc, Hcur1. exact Hcur.
    + rewrite Hfp. exact Hk1pi.
    + match goal with
      | |- context [bind (in_proc Proc.yield) _ ?K] =>
          rewrite (bind_done _ _ K _ _ (in_proc_eval Proc.yield K _ _ Hy))
      end.
      eexists _, c. split; [reflexivity|].
      cbn [pstate fstate set_pstate itable set_itable].
      rewrite (Hprocs np Hne), Hfp.
      repeat split; try assumption.
      * intros q0 Hq Hlen. apply Henq; [exact Hne|]. eapply Hq0; eassumption.
      * intros l Hl H. apply Henq in H; [|exact Hne]. now apply Hother.
  - rewrite bind_ret_l. eexists _, c. split; [reflexivity|].
    cbn [pstate fstate set_pstate itable set_itable]. rewrite Hfp.
    repeat split; assumption.
Qed.


(** A fork that succeeds returns the pid of the child, which is the pid
    counter before the call.  The child starts from a copy of the
    parent's registers in which [a0] is 0, so that fork returns 0 in the
    child; it has the parent's memory size and working directory, on
    which one more reference is taken, the name that [safestrcpy] makes
    of the parent's, and the default priority 5.  A parent whose
    priority is below 5 gives up the CPU at once; no other slot and no
    other inode changes. *)
Theorem kfork_child (env : Proc.fork_env) (k : kernel)
        (pi np : nat) (p c0 : Proc.proc) (page ptf : Proc.trapframe)
        (cw : nat) (ci : inode) :
  file_table_only filedup ->
  Proc.cur (pstate k) = Some pi ->
  Proc.procs (pstate k) !! pi = Some p ->
  Proc.state p <> Proc.UNUSED ->
  Proc.tf p = Some ptf ->
  Proc.cwd p = Some cw -> itable (fstate k) !! cw = Some ci ->
  length (Proc.ofile p) = Z.to_nat NOFILE ->
  Proc.find_unused (firstn (Z.to_nat NPROC) (Proc.procs (pstate k))) 0%nat
  = Some np ->
  Proc.procs (pstate k) !! np = Some c0 ->
  length (Proc.ofile c0) = Z.to_nat NOFILE ->
  Proc.kalloc_page env = Some page -> Proc.new_pagetable env <> 0 ->
  0 <= Proc.uvmcopy_ret env ->
  exists k' c,
    kfork filedup safestrcpy env k = Done (Proc.nextpid (pstate k)) k'
    /\ Proc.procs (pstate k') !! np = Some c
    /\ Proc.tf c = Some (Proc.set_a0 0 ptf)
    /\ Proc.sz c = Proc.sz p /\ Proc.cwd c = Some cw
    /\ Proc.name c = safestrcpy (Proc.name c0) (Proc.name p) sizeof_name
    /\ Proc.pagetable c = Proc.new_pagetable env
    /\ Proc.priority c = 5 /\ Proc.errno c = 0
    /\ Proc.time_used c = 0 /\ Proc.time_quantum c = 1
    /\ Proc.state c = Proc.RUNNABLE /\ Proc.parent c = Some pi
    /\ Proc.nextpid (pstate k') = to_int (Proc.nextpid (pstate k) + 1)
    /\ Proc.procs (pstate k') !! pi
       = Some (if 5 >? Proc.priority p
               then Proc.set_state Proc.RUNNABLE p else p)
    /\ (forall j, j <> np -> j <> pi ->
          Proc.procs (pstate k') !! j = Proc.procs (pstate k) !! j)
    /\ itable (fstate k')
       = alter (fun i => set_ref (to_int (ref i + 1)) i) cw
               (itable (fstate k))
    /\ disk (fstate k') = disk (fstate k).
Proof.
  intros Hfd Hcur Hp Hst Htf Hcwd Hci Hlp Hfind Hc0 Hlc Hka Hpt Huv.
  assert (Hne : np <> pi).
  { destruct (ProcFacts.find_unused_spec _ _ _ Hfind) as (j & c0' & Hj & Hc0' & Hs0).
    simpl in Hj. subst j. apply lookup_take_Some in Hc0' as [Hc0' _].
    intros ->. congruence. }
  assert (Hlt : (np < length (Proc.procs (pstate k)))%nat)
    by (eapply lookup_lt_Some; eassumption).
  destruct (kfork_prefix env k pi np p c0 page ptf cw ci Hfd Hcur Hp Hst Htf
              Hcwd Hci Hlp Hfind Hc0 Hlc Hka Hpt Huv)
    as (k1 & ft & c & Hrun & Hps1 & Hcur1 & _ & _ & Hnext1 & Hcs & Hcp & Hcpar
        & Hcl & Hcc & Hctf & Hcsz & Hcnm & Hcpt & Hcprio & Hcerr & Hctu & Hctq
        & _).
  rewrite Hrun. clear Hrun.
  set (k2 := if Proc.is_mlfq (Proc.select_next_proc (pstate k))
             then Proc.mlfq_add_process np 0 k1 else k1).
  assert (Hk2 : Proc.procs k2 = Proc.procs k1 /\ Proc.cur k2 = Proc.cur k1
                /\ Proc.nextpid k2 = Proc.nextpid k1).
  { unfold k2. destruct (Proc.is_mlfq _); [|auto].
    destruct (ProcFacts.mlfq_add_frame np 0 k1) as (-> & -> & _).
    now rewrite SchedFacts.mlfq_add_nextpid. }
  destruct Hk2 as (Hprocs2 & Hcur2 & Hnext2). clearbody k2.
  assert (Hc : Proc.procs k2 !! np = Some c)
    by (rewrite Hprocs2, Hps1; apply list_lookup_insert_eq; exact Hlt).
  assert (Hk2pi : Proc.procs k2 !! pi = Some p)
    by (rewrite Hprocs2, Hps1, list_lookup_insert_ne by congruence; exact Hp).
  assert (Hoth : forall j, j <> np ->
             Proc.procs k2 !! j = Proc.procs (pstate k) !! j)
    by (intros j Hj; rewrite Hprocs2, Hps1;
        now rewrite list_lookup_insert_ne by congruence).
  rewrite (proc_at_bind pi _ p) by exact Hk2pi.
  destruct (5 >? Proc.priority p).
  - destruct (SchedFacts.yield_procs k2 pi p) as (ky & Hy & Hprocs & Hnp' & _).
    + rewrite Hcur2, Hcur1. exact Hcur.
    + exact Hk2pi.
    + match goal with
      | |- context [bind (in_proc Proc.yield) _ ?K] =>
          rewrite (bind_done _ _ K _ _ (in_proc_eval Proc.yield K _ _ Hy))
      end.
      eexists _, c. split; [reflexivity|].
      cbn [pstate fstate set_pstate itable set_itable disk].
      rewrite Hprocs, Hnp', Hnext2, Hnext1.
      rewrite list_lookup_alter_ne by congruence.
      split; [exact Hc|]. do 11 (split; [assumption|]).
      split; [reflexivity|].
      split; [now rewrite list_lookup_alter_eq, Hk2pi|].
      split; [|split; reflexivity].
      intros j Hjn Hjp. rewrite list_lookup_alter_ne by congruence.
      now apply Hoth.
  - rewrite bind_ret_l. eexists _, c. split; [reflexivity|].
    cbn [pstate fstate set_pstate itable set_itable disk].
    rewrite Hnext2, Hnext1.
    split; [exact Hc|]. do 11 (split; [assumption|]).
    split; [reflexivity|]. split; [exact Hk2pi|].
    split; [|split; reflexivity].
    intros j Hjn Hjp. now apply Hoth.
Qed.

Lemma set_pstate_same k : set_pstate (pstate k) k = k.
Proof. destruct k; reflexivity. Qed.

(** A fork that fails returns -1 and leaves no process behind: this is
    so when the table has no UNUSED slot, when the trap-frame page or
    the page table cannot be allocated, and when copying the memory
    fails.  No file and no inode is referenced; every slot that was in
    use is as before and no slot comes into use; when the table is full
    nothing changes at all, otherwise the slot that was tried is UNUSED
    again with pid 0, and the pid that was drawn for it is not handed
    out again. *)
Theorem kfork_failure (env : Proc.fork_env) (k : kernel) (pi : nat)
        (p : Proc.proc) :
  Proc.cur (pstate k) = Some pi ->
  Proc.procs (pstate k) !! pi = Some p ->
  Proc.state p <> Proc.UNUSED ->
  Proc.find_unused (firstn (Z.to_nat NPROC) (Proc.procs (pstate k))) 0%nat
  = None
  \/ Proc.kalloc_page env = None \/ Proc.new_pagetable env = 0
  \/ Proc.uvmcopy_ret env < 0 ->
  exists k',
    kfork filedup safestrcpy env k = Done (-1) k'
    /\ fstate k' = fstate k /\ ftable k' = ftable k
    /\ (forall j q, Proc.state q <> Proc.UNUSED ->
          Proc.procs (pstate k) !! j = Some q
          <-> Proc.procs (pstate k') !! j = Some q)
    /\ Proc.cur (pstate k') = Proc.cur (pstate k)
    /\ Proc.select_next_proc (pstate k') = Proc.select_next_proc (pstate k)
    /\ Proc.mlfq_sched (pstate k') = Proc.mlfq_sched (pstate k)
    /\ (Proc.find_unused (firstn (Z.to_nat NPROC) (Proc.procs (pstate k)))
                         0%nat = None -> k' = k)
    /\ (forall np,
          Proc.find_unused (firstn (Z.to_nat NPROC) (Proc.procs (pstate k)))
                           0%nat = Some np ->
          Proc.nextpid (pstate k') = to_int (Proc.nextpid (pstate k) + 1)
          /\ Proc.state <$> Proc.procs (pstate k') !! np = Some Proc.UNUSED
          /\ Proc.pid <$> Proc.procs (pstate k') !! np = Some 0).
Proof.
  intros Hcur Hp Hst Hfail.
  unfold kfork.
  rewrite (bind_done _ _ _ _ _ (myproc_eval k pi p Hcur Hp)). cbn [fst].
  unfold bind at 1. unfold in_proc.
  unfold Proc.allocproc, bind at 1, get. cbv beta.
  destruct (Proc.find_unused (firstn (Z.to_nat NPROC) (Proc.procs (pstate k)))
                             0%nat) as [np|] eqn:Hfind.
  - destruct (ProcFacts.find_unused_spec _ _ _ Hfind) as (j & c0 & Hj & Hc0 & Hs0).
    simpl in Hj. subst j. apply lookup_take_Some in Hc0 as [Hc0 Hlt].
    assert (Hframe : forall f : Proc.proc -> Proc.proc,
               Proc.state (f c0) = Proc.UNUSED ->
               forall j q, Proc.state q <> Proc.UNUSED ->
                 Proc.procs (pstate k) !! j = Some q
                 <-> alter f np (Proc.procs (pstate k)) !! j = Some q).
    { intros f Hf j q Hq. destruct (decide (j = np)) as [->|Hne].
      - rewrite list_lookup_alter_eq, Hc0. simpl.
        split; intros H; inversion H; subst q; congruence.
      - now rewrite list_lookup_alter_ne by congruence. }
    unfold Proc.allocproc_found, Proc.allocpid, bind, get, put, modify, ret.
    cbv beta.
    destruct (Proc.kalloc_page env) as [page|] eqn:Hka; cbv beta iota.
    + destruct (Proc.new_pagetable env =? 0) eqn:Hpt; cbv beta iota.
      * eexists. split; [reflexivity|]. cbn [fstate ftable set_pstate pstate].
        do 2 (split; [reflexivity|]).
        unfold Proc.upd_proc; simpl.
        rewrite !list_alter_alter_eq.
        split; [apply Hframe; reflexivity|].
        do 3 (split; [first [reflexivity|assumption]|]). split; [discriminate|].
        intros np' H; inversion H; subst np'.
        rewrite list_lookup_alter_eq, Hc0. repeat split.
      * destruct (Proc.uvmcopy_ret env <? 0) eqn:Huv.
        -- eexists. split; [reflexivity|]. cbn [fstate ftable set_pstate pstate].
           do 2 (split; [reflexivity|]).
           unfold Proc.upd_proc; simpl.
           rewrite !list_alter_alter_eq.
           split; [apply Hframe; reflexivity|].
           do 3 (split; [first [reflexivity|assumption]|]). split; [discriminate|].
           intros np' H; inversion H; subst np'.
           rewrite list_lookup_alter_eq, Hc0. repeat split.
        -- exfalso. apply Z.eqb_neq in Hpt. apply Z.ltb_ge in Huv.
           destruct Hfail as [H|[H|[H|H]]]; try discriminate; [contradiction|lia].
    + eexists. split; [reflexivity|]. cbn [fstate ftable set_pstate pstate].
      do 2 (split; [reflexivity|]).
      unfold Proc.upd_proc; simpl.
      rewrite !list_alter_alter_eq.
      split; [apply Hframe; reflexivity|].
      do 3 (split; [first [reflexivity|assumption]|]). split; [discriminate|].
      intros np' H; inversion H; subst np'.
      rewrite list_lookup_alter_eq, Hc0. repeat split.
  - unfold ret. rewrite set_pstate_same. exists k. split; [reflexivity|].
    do 2 (split; [reflexivity|]).
    split; [tauto|]. do 3 (split; [reflexivity|]).
    split; [reflexivity|]. intros np H. discriminate.
Qed.

End WithParams.

(** *** Runs of fork *)

#[local] Existing Instance xv6_params.
#[local] Existing Instance Image.umem.

Lemma bump_ref_file_table_only : file_table_only Image.bump_ref.
Proof.
  intros f k. eexists _, _. split; [reflexivity|]. split; reflexivity.
Defined.

(** The shell, at MLFQ level 2, forks: the child lands in slot 1 and on
    the queue of level 0, and the root directory is referenced twice. *)
Lemma kfork_enqueues_child_witness :
  ref Image.cwd_inode = 1
  /\ exists k' c,
      kfork Image.bump_ref Image.copy_name Image.env_ok Image.k_fork
      = Done 4 k'
      /\ Proc.procs (pstate k') !! 1%nat = Some c
      /\ Proc.state c = Proc.RUNNABLE /\ Proc.pid c = 4
      /\ Proc.parent c = Some 0%nat
      /\ Proc.mlfq_level c = 0
      /\ Proc.cwd c = Some 0%nat
      /\ ref <$> itable (fstate k') !! 0%nat
         = Some (to_int (ref Image.cwd_inode + 1))
      /\ (forall q0,
            Proc.queues (Proc.mlfq_sched (pstate Image.k_fork)) !! 0%nat
            = Some q0 ->
            Z.of_nat (length q0) < 64 -> Proc.enqueued (pstate k') 1 0)
      /\ (forall l, l <> 0%nat -> Proc.enqueued (pstate k') 1 l ->
                    Proc.enqueued (pstate Image.k_fork) 1 l).
Proof.
  split; [vm_compute; reflexivity|].
  apply (kfork_enqueues_child_at_level_0 (P := xv6_params)
           Image.bump_ref Image.copy_name Image.env_ok Image.k_fork 0 1
           Image.sh Image.unused_proc
           Image.tf0 Image.tf0 0 Image.cwd_inode bump_ref_file_table_only);
    try reflexivity; try discriminate.
Defined.

(** C6, as stated, fails: the parent is at level 2 and stands on the
    queue of level 2; the child it forks is at level 0 and on the queue
    of level 0, and the queue of level 2 holds the parent alone. *)
Lemma kfork_child_not_at_parent_level :
  match kfork Image.bump_ref Image.copy_name Image.env_ok Image.k_fork with
  | Done r k' =>
      r = 4
      /\ Proc.mlfq_level <$> Proc.procs (pstate k') !! 0%nat = Some 2
      /\ Proc.pid <$> Proc.procs (pstate k') !! 1%nat = Some 4
      /\ Proc.mlfq_level <$> Proc.procs (pstate k') !! 1%nat = Some 0
      /\ Proc.queues (Proc.mlfq_sched (pstate k')) !! 0%nat = Some [1%nat]
      /\ Proc.queues (Proc.mlfq_sched (pstate k')) !! 2%nat = Some [0%nat]
  | _ => False
  end.
Proof. vm_compute. repeat split. Qed.

(** A process without working directory cannot fork: [idup] follows the
    null pointer. *)
Lemma kfork_without_cwd_faults :
  kfork Image.bump_ref Image.copy_name Image.env_ok Image.kernel0 = Fault.
Proof. vm_compute. reflexivity. Qed.

End ForkFacts.


(** ** Properties of the system calls, continued *)

Module SysProcFacts.
Import Proc ProcExt Sys SysProc SchedFacts.

Section WithParams.
Context {P : KernelParams}.

Lemma pid_scan_ext pd ps ps' i0 :
  map pid ps = map pid ps' -> pid_scan pd ps i0 = pid_scan pd ps' i0.
Proof.
  revert ps' i0. induction ps as [|x ps IH]; intros [|y ps'] i0 H;
    try discriminate; [reflexivity|].
  simpl in *. inversion H as [[Hxy Hrest]]. rewrite Hxy.
  destruct (pid y =? pd); [reflexivity|]. now apply IH.
Qed.

Lemma map_pid_alter_priority v i ps :
  map pid (alter (set_priority v) i ps) = map pid ps.
Proof.
  revert i. induction ps as [|x ps IH]; intros [|i]; simpl; try reflexivity.
  f_equal. apply IH.
Qed.

Lemma take_alter {A} (f : A -> A) n i (l : list A) :
  take n (alter f i l) = alter f i (take n l).
Proof.
  revert n i. induction l as [|x l IH]; intros [|n] [|i]; simpl;
    try reflexivity; f_equal; apply IH.
Qed.

Lemma to_uint64_small x : 0 <= x < 2 ^ 64 -> to_uint64 x = x.
Proof. intros H. unfold to_uint64, wrap. now apply Z.mod_small. Qed.

Lemma mytrapframe_eval (k : kernel) c p t :
  cur (pstate k) = Some c -> procs (pstate k) !! c = Some p -> tf p = Some t ->
  mytrapframe k = Done t k.
Proof.
  intros Hc Hp Ht. unfold mytrapframe, bind.
  rewrite (ForkFacts.myproc_eval k c p Hc Hp). simpl. now rewrite Ht.
Qed.

Lemma argint_eval (k : kernel) c p t n :
  cur (pstate k) = Some c -> procs (pstate k) !! c = Some p -> tf p = Some t ->
  argint n k
  = if n =? 0 then Done (to_int (a0 t)) k
    else if n =? 1 then Done (to_int (a1 t)) k
    else if n =? 2 then Done (to_int (a2 t)) k
    else if n =? 3 then Done (to_int (a3 t)) k
    else if n =? 4 then Done (to_int (a4 t)) k
    else if n =? 5 then Done (to_int (a5 t)) k
    else Panic "argraw".
Proof.
  intros Hc Hp Ht. unfold argint, argraw, bind.
  rewrite (mytrapframe_eval k c p t Hc Hp Ht).
  repeat (match goal with |- context [if ?b then _ else _] => destruct b end;
          [reflexivity|]).
  reflexivity.
Qed.

Lemma upd_myproc_eval (k : kernel) c p f :
  cur (pstate k) = Some c -> procs (pstate k) !! c = Some p ->
  upd_myproc f k = Done tt (set_pstate (upd_proc c f (pstate k)) k).
Proof.
  intros Hc Hp. unfold upd_myproc, bind.
  now rewrite (ForkFacts.myproc_eval k c p Hc Hp).
Qed.

(** [sys_setpriority] accepts the priorities 0 to 9 only.  A call that
    does not return 0 returns -EINVAL or -ESRCH and changes nothing; a
    call that returns 0 changes nothing but the priority of one slot,
    and [sys_getpriority] with the same pid argument then returns the
    priority that was set.  So the calls keep every priority of the
    table within 0..9. *)
Theorem sys_setpriority_spec (k k' : kernel) (r : Z) :
  sys_setpriority k = Done r k' ->
  (r <> 0 ->
     k' = k /\ (r = to_uint64 (- Errno.EINVAL) \/ r = to_uint64 (- Errno.ESRCH)))
  /\ (r = 0 ->
      exists i v,
        0 <= v <= 9
        /\ argint 1 k = Done v k
        /\ k' = set_pstate (upd_proc i (set_priority v) (pstate k)) k
        /\ priority <$> procs (pstate k') !! i = Some v
        /\ sys_getpriority k' = Done v k')
  /\ ((forall i p, procs (pstate k) !! i = Some p -> 0 <= priority p <= 9) ->
      forall i p, procs (pstate k') !! i = Some p -> 0 <= priority p <= 9).
Proof.
  intros H.
  assert (Hcases :
    (r <> 0 /\ k' = k
     /\ (r = to_uint64 (- Errno.EINVAL) \/ r = to_uint64 (- Errno.ESRCH)))
    \/ (r = 0 /\ exists i v p0,
          0 <= v <= 9
          /\ argint 1 k = Done v k
          /\ procs (pstate k) !! i = Some p0
          /\ k' = set_pstate (upd_proc i (set_priority v) (pstate k)) k
          /\ sys_getpriority k' = Done v k')).
  { unfold sys_setpriority, bind in H.
    destruct (cur (pstate k)) as [c|] eqn:Hcur;
      [|unfold argint, argraw, mytrapframe, myproc, bind, get in H;
        rewrite Hcur in H; discriminate].
    destruct (procs (pstate k) !! c) as [p|] eqn:Hp;
      [|unfold argint, argraw, mytrapframe, myproc, bind, get in H;
        rewrite Hcur, Hp in H; discriminate].
    destruct (tf p) as [t|] eqn:Htf;
      [|unfold argint, argraw, mytrapframe, myproc, bind, get in H;
        rewrite Hcur, Hp in H; simpl in H; rewrite Htf in H; discriminate].
    rewrite (argint_eval k c p t 0 Hcur Hp Htf) in H. cbn [Z.eqb] in H.
    rewrite (argint_eval k c p t 1 Hcur Hp Htf) in H. cbn [Z.eqb Pos.eqb] in H.
    destruct ((to_int (a1 t) <? 0) || (to_int (a1 t) >? 9)) eqn:Erange.
    { inversion H; subst. left. split; [discriminate|]. auto. }
    apply orb_false_iff in Erange as [E0 E9].
    apply Z.ltb_ge in E0. rewrite Z.gtb_ltb in E9. apply Z.ltb_ge in E9.
    assert (Hget : forall i p0,
      procs (pstate k) !! i = Some p0 ->
      (if to_int (a0 t) =? 0 then i = c
       else pid_scan (to_int (a0 t))
              (take (Z.to_nat NPROC) (procs (pstate k))) 0 = Some i) ->
      sys_getpriority
        (set_pstate (upd_proc i (set_priority (to_int (a1 t))) (pstate k)) k)
      = Done (to_int (a1 t))
          (set_pstate (upd_proc i (set_priority (to_int (a1 t))) (pstate k)) k)).
    { intros i p0 Hp0 Hi.
      set (k1 := set_pstate (upd_proc i (set_priority (to_int (a1 t))) (pstate k)) k).
      assert (Hcur1 : cur (pstate k1) = Some c) by exact Hcur.
      assert (Hp1 : exists p1, procs (pstate k1) !! c = Some p1 /\ tf p1 = Some t
                     /\ (i = c -> priority p1 = to_int (a1 t))).
      { unfold k1. cbn [pstate set_pstate upd_proc procs set_procs].
        destruct (decide (c = i)) as [->|Hne].
        - rewrite list_lookup_alter_eq, Hp. simpl. eauto.
        - rewrite list_lookup_alter_ne, Hp by congruence.
          eexists. split; [reflexivity|]. split; [exact Htf|]. congruence. }
      destruct Hp1 as (p1 & Hp1 & Htf1 & Hprio1).
      unfold sys_getpriority, bind.
      rewrite (argint_eval k1 c p1 t 0 Hcur1 Hp1 Htf1). cbn [Z.eqb].
      destruct (to_int (a0 t) =? 0).
      - rewrite (ForkFacts.myproc_eval k1 c p1 Hcur1 Hp1). unfold ret. simpl.
        rewrite (Hprio1 Hi), to_uint64_small by lia. reflexivity.
      - unfold get. unfold k1 at 1.
        cbn [pstate set_pstate upd_proc procs set_procs].
        rewrite take_alter,
          (pid_scan_ext _ _ (take (Z.to_nat NPROC) (procs (pstate k))))
          by apply map_pid_alter_priority.
        rewrite Hi. unfold k1 at 1.
        cbn [pstate set_pstate upd_proc procs set_procs].
        rewrite list_lookup_alter_eq, Hp0. unfold ret. simpl.
        rewrite to_uint64_small by lia. reflexivity. }
    destruct (to_int (a0 t) =? 0) eqn:Epid.
    - rewrite (upd_myproc_eval k c p _ Hcur Hp) in H.
      unfold ret in H. inversion H; subst. clear H.
      right. split; [reflexivity|]. exists c, (to_int (a1 t)), p.
      split; [lia|].
      split; [now rewrite (argint_eval k c p t 1 Hcur Hp Htf)|].
      split; [exact Hp|]. split; [reflexivity|].
      now apply (Hget c p Hp).
    - unfold get in H.
      destruct (pid_scan (to_int (a0 t)) (take (Z.to_nat NPROC) (procs (pstate k))) 0)
        as [i|] eqn:Escan.
      + unfold in_proc, modify, ret in H. simpl in H.
        inversion H; subst. clear H.
        right. split; [reflexivity|].
        pose proof (pid_scan_spec (to_int (a0 t))
                      (take (Z.to_nat NPROC) (procs (pstate k))) 0) as Hs.
        rewrite Escan in Hs. destruct Hs as (j & p0 & Hj & Hp0 & _).
        simpl in Hj. subst j. apply lookup_take_Some in Hp0 as [Hp0 _].
        exists i, (to_int (a1 t)), p0.
        split; [lia|].
        split; [now rewrite (argint_eval k c p t 1 Hcur Hp Htf)|].
        split; [exact Hp0|]. split; [reflexivity|].
        now apply (Hget i p0 Hp0).
      + unfold ret in H. inversion H; subst. left.
        split; [discriminate|]. auto. }
  destruct Hcases as [(Hr & -> & Hval)|(-> & i & v & p0 & Hv & Harg & Hp0 & -> & Hget)].
  - split; [auto|]. split; [contradiction|]. auto.
  - split; [contradiction|]. split.
    + intros _. exists i, v. repeat split; try assumption; try lia.
      cbn [pstate set_pstate upd_proc procs set_procs].
      now rewrite list_lookup_alter_eq, Hp0.
    + intros Hall j p. cbn [pstate set_pstate upd_proc procs set_procs].
      destruct (decide (j = i)) as [->|Hne].
      * rewrite list_lookup_alter_eq, Hp0. simpl. intros Hq.
        inversion Hq; subst p. simpl. exact Hv.
      * rewrite list_lookup_alter_ne by congruence. apply Hall.
Qed.


Section Dispatcher.
Context {U : Fs.UserMem}.
Context (filealloc : M kernel (option nat)).
Context (fileclose : nat -> M kernel unit).
Context (other_syscalls : Z -> M kernel Z).

Lemma to_long_small x : - 2 ^ 63 <= x < 2 ^ 63 -> to_long x = x.
Proof.
  intros H. unfold to_long, swrap. change (64 - 1) with 63.
  rewrite Z.mod_small; [lia|].
  change (2 ^ 64) with (2 * 2 ^ 63). lia.
Qed.

(** What [syscall] leaves behind, whatever the handler does: the
    current process has either errno 0 and a result in [a0] that is not
    negative, or -1 in [a0].  A number outside the table gives -1 with
    errno ENOSYS and changes nothing else. *)
Theorem syscall_result_and_errno (k k' : kernel) :
  syscall filealloc fileclose other_syscalls k = Done tt k' ->
  (exists c p t,
      cur (pstate k') = Some c /\ procs (pstate k') !! c = Some p
      /\ tf p = Some t
      /\ ((errno p = Errno.EOK /\ 0 <= to_long (a0 t))
          \/ a0 t = to_uint64 (-1)))
  /\ (forall c p t,
        cur (pstate k) = Some c -> procs (pstate k) !! c = Some p ->
        tf p = Some t ->
        to_int (a7 t) <= 0 \/ NELEM_syscalls <= to_int (a7 t) ->
        k' = set_pstate
               (upd_proc c (fun q => set_tf (Some (set_a0 (to_uint64 (-1)) t))
                                       (set_errno Errno.ENOSYS q))
                  (pstate k)) k).
Proof.
  intros H. unfold syscall, bind at 1 in H.
  destruct (mytrapframe k) as [t k0| | |] eqn:Ht; try discriminate.
  assert (k0 = k /\ exists c p, cur (pstate k) = Some c
            /\ procs (pstate k) !! c = Some p /\ tf p = Some t)
    as (-> & c & p & Hcur & Hp & Htf).
  { unfold mytrapframe, myproc, bind, get in Ht.
    destruct (cur (pstate k)) as [c|] eqn:Hc; [|discriminate].
    destruct (procs (pstate k) !! c) as [p|] eqn:Hp; [|discriminate].
    simpl in Ht. destruct (tf p) eqn:Htf; [|discriminate].
    inversion Ht; subst. eauto 10. }
  assert (Hupd : forall (k1 : kernel) (f : proc -> proc) k2 c1 p1,
             cur (pstate k1) = Some c1 -> procs (pstate k1) !! c1 = Some p1 ->
             upd_myproc f k1 = Done tt k2 ->
             cur (pstate k2) = Some c1
             /\ procs (pstate k2) !! c1 = Some (f p1)).
  { intros k1 f k2 c1 p1 Hc1 Hp1 Hu.
    rewrite (upd_myproc_eval k1 c1 p1 f Hc1 Hp1) in Hu.
    inversion Hu; subst k2.
    cbn [pstate set_pstate upd_proc procs set_procs cur].
    now rewrite list_lookup_alter_eq, Hp1. }
  destruct ((to_int (a7 t) >? 0) && (to_int (a7 t) <? NELEM_syscalls)) eqn:Erange.
  - destruct (syscalls filealloc fileclose other_syscalls (to_int (a7 t)))
      as [handler|] eqn:Esys.
    + split.
      * unfold bind in H.
        destruct (handler k) as [r k1| | |]; try discriminate.
        destruct (mytrapframe k1) as [t1 k1'| | |] eqn:Ht1; try discriminate.
        assert (k1' = k1 /\ exists c1 p1, cur (pstate k1) = Some c1
                  /\ procs (pstate k1) !! c1 = Some p1)
          as (-> & c1 & p1 & Hc1 & Hp1).
        { unfold mytrapframe, myproc, bind, get in Ht1.
          destruct (cur (pstate k1)) as [c1|] eqn:Hc1; [|discriminate].
          destruct (procs (pstate k1) !! c1) as [p1|] eqn:Hp1; [|discriminate].
          simpl in Ht1. destruct (tf p1); [|discriminate].
          inversion Ht1; subst. eauto 10. }
        destruct (to_long r <? 0) eqn:Er.
        -- destruct (Hupd _ _ _ _ _ Hc1 Hp1 H) as [Hc' Hp'].
           eexists _, _, _. split; [exact Hc'|]. split; [exact Hp'|].
           split; [reflexivity|]. right. reflexivity.
        -- destruct (Hupd _ _ _ _ _ Hc1 Hp1 H) as [Hc' Hp'].
           eexists _, _, _. split; [exact Hc'|]. split; [exact Hp'|].
           split; [reflexivity|]. left. simpl.
           apply Z.ltb_ge in Er. auto.
      * intros c' p' t' Hc' Hp' Ht' Hout. exfalso.
        assert (c' = c) as -> by congruence.
        assert (p' = p) as -> by congruence.
        assert (t' = t) as -> by congruence.
        apply andb_true_iff in Erange as [E1 E2].
        rewrite Z.gtb_ltb in E1. apply Z.ltb_lt in E1. apply Z.ltb_lt in E2.
        lia.
    + exfalso. apply andb_true_iff in Erange as [E1 E2].
      rewrite Z.gtb_ltb in E1. apply Z.ltb_lt in E1. apply Z.ltb_lt in E2.
      unfold syscalls in Esys.
      repeat match type of Esys with
             | context [if ?b then _ else _] => destruct b eqn:?
             end; try discriminate.
      match goal with
      | Hb : (_ <=? _) && (_ <? _) = false |- _ =>
          apply andb_false_iff in Hb as [Hb|Hb];
            [apply Z.leb_gt in Hb|apply Z.ltb_ge in Hb]; lia
      end.
  - destruct (Hupd _ _ _ _ _ Hcur Hp H) as [Hc' Hp'].
    split.
    + eexists _, _, _. split; [exact Hc'|]. split; [exact Hp'|].
      split; [reflexivity|]. right. reflexivity.
    + intros c' p' t' Hc'' Hp'' Ht' _.
      assert (c' = c) as -> by congruence.
      assert (p' = p) as -> by congruence.
      assert (t' = t) as -> by congruence.
      rewrite (upd_myproc_eval k c p _ Hcur Hp) in H. now inversion H.
Qed.

Lemma geterrno_ecall (k : kernel) c p t x y z :
  cur (pstate k) = Some c -> procs (pstate k) !! c = Some p ->
  tf p = Some t -> 0 <= errno p < 2 ^ 31 ->
  exists p',
    ecall filealloc fileclose other_syscalls SYS_geterrno x y z k
    = Done (errno p) (set_pstate (set_procs (<[c := p']> (procs (pstate k)))
                                    (pstate k)) k)
    /\ errno p' = 0 /\ exists t', tf p' = Some t'.
Proof.
  intros Hcur Hp Htf He.
  unfold ecall, bind.
  rewrite (mytrapframe_eval k c p t Hcur Hp Htf).
  rewrite (upd_myproc_eval k c p _ Hcur Hp).
  match goal with
  | |- context [syscall _ _ _ ?k0] => set (k1 := k0)
  end.
  assert (Hcur1 : cur (pstate k1) = Some c) by exact Hcur.
  assert (Hp1 : exists p1, procs (pstate k1) !! c = Some p1
                  /\ errno p1 = errno p
                  /\ exists t1, tf p1 = Some t1 /\ a7 t1 = SYS_geterrno).
  { unfold k1. cbn [pstate set_pstate upd_proc procs set_procs].
    rewrite list_lookup_alter_eq, Hp. simpl. eauto 10. }
  destruct Hp1 as (p1 & Hp1 & He1 & t1 & Htf1 & Ha7).
  unfold syscall, bind.
  rewrite (mytrapframe_eval k1 c p1 t1 Hcur1 Hp1 Htf1), Ha7.
  change (to_int SYS_geterrno) with 24.
  change ((24 >? 0) && (24 <? NELEM_syscalls)) with true. cbv iota.
  change (syscalls filealloc fileclose other_syscalls 24) with (Some sys_geterrno).
  cbv iota. unfold sys_geterrno, bind.
  rewrite (ForkFacts.myproc_eval k1 c p1 Hcur1 Hp1). unfold ret. cbn [snd].
  rewrite (mytrapframe_eval k1 c p1 t1 Hcur1 Hp1 Htf1), He1.
  assert (H64 : to_uint64 (errno p) = errno p)
    by (apply to_uint64_small; change (2 ^ 31) with 2147483648 in He;
        change (2 ^ 64) with 18446744073709551616; lia).
  rewrite H64.
  assert (HL : to_long (errno p) = errno p)
    by (apply to_long_small; change (2 ^ 31) with 2147483648 in He;
        change (2 ^ 63) with 9223372036854775808; lia).
  rewrite HL.
  replace (errno p <? 0) with false by (symmetry; apply Z.ltb_ge; lia).
  rewrite (upd_myproc_eval k1 c p1 _ Hcur1 Hp1).
  match goal with
  | |- context [mytrapframe ?k0] => set (k2 := k0)
  end.
  assert (Hcur2 : cur (pstate k2) = Some c) by exact Hcur.
  assert (Hp2 : procs (pstate k2) !! c
                = Some (set_tf (Some (set_a0 (errno p) t1))
                          (set_errno Errno.EOK p1))).
  { unfold k2. cbn [pstate set_pstate upd_proc procs set_procs].
    now rewrite list_lookup_alter_eq, Hp1. }
  rewrite (mytrapframe_eval k2 c _ _ Hcur2 Hp2 eq_refl).
  cbn [a0 set_a0].
  rewrite to_int_small by lia.
  exists (set_tf (Some (set_a0 (errno p) t1)) (set_errno Errno.EOK p1)).
  split; [|split; [|eexists; reflexivity]].
  - apply (f_equal (Done (errno p))).
    unfold k2, k1, set_pstate, upd_proc, set_procs.
    cbn [pstate procs cur nextpid select_next_proc mlfq_sched fstate ftable].
    do 2 f_equal.
    apply list_eq. intros j. destruct (decide (j = c)) as [->|Hne].
    + rewrite list_lookup_insert_eq by (eapply lookup_lt_Some; eassumption).
      unfold k1 in Hp1. cbn [pstate set_pstate upd_proc procs set_procs] in Hp1.
      rewrite list_lookup_alter_eq, Hp in Hp1. simpl in Hp1.
      inversion Hp1; subst p1.
      rewrite !list_lookup_alter_eq, Hp. reflexivity.
    + rewrite !list_lookup_alter_ne, list_lookup_insert_ne by congruence.
      reflexivity.
  - reflexivity.
Qed.

(** [geterrno] goes through the dispatcher like every other call: it
    returns the error number that the last failing call has left and,
    having succeeded, leaves errno 0 behind.  A second [geterrno] returns
    0, whatever the first one returned.  Only the slot of the caller
    changes. *)
Theorem geterrno_reads_once (k : kernel) c p t x y z :
  cur (pstate k) = Some c -> procs (pstate k) !! c = Some p ->
  tf p = Some t -> 0 <= errno p < 2 ^ 31 ->
  exists k',
    ecall filealloc fileclose other_syscalls SYS_geterrno x y z k
    = Done (errno p) k'
    /\ errno <$> procs (pstate k') !! c = Some 0
    /\ (forall j, j <> c -> procs (pstate k') !! j = procs (pstate k) !! j)
    /\ fstate k' = fstate k /\ ftable k' = ftable k
    /\ exists k'',
         ecall filealloc fileclose other_syscalls SYS_geterrno x y z k'
         = Done 0 k''.
Proof.
  intros Hcur Hp Htf He.
  destruct (geterrno_ecall k c p t x y z Hcur Hp Htf He)
    as (p' & Hcall & He' & t' & Htf').
  eexists. split; [exact Hcall|].
  assert (Hlt : (c < length (procs (pstate k)))%nat)
    by (eapply lookup_lt_Some; eassumption).
  cbn [pstate set_pstate procs set_procs fstate ftable].
  split; [rewrite list_lookup_insert_eq by exact Hlt; simpl; now rewrite He'|].
  split; [intros j Hj; now rewrite list_lookup_insert_ne by congruence|].
  split; [reflexivity|]. split; [reflexivity|].
  match goal with
  | |- context [ecall _ _ _ _ _ _ _ ?k0] => set (k1 := k0)
  end.
  destruct (geterrno_ecall k1 c p' t' x y z) as (p'' & Hcall' & _).
  - exact Hcur.
  - unfold k1. cbn [pstate set_pstate procs set_procs].
    now rewrite list_lookup_insert_eq by exact Hlt.
  - exact Htf'.
  - rewrite He'. split; [lia|reflexivity].
  - rewrite He' in Hcall'. eexists. exact Hcall'.
Qed.

Lemma fdalloc_scan_spec ofiles fd0 :
  match fdalloc_scan ofiles fd0 with
  | None => forall j, ofiles !! j <> Some None
  | Some fd =>
      exists j, fd = fd0 + Z.of_nat j /\ ofiles !! j = Some None
        /\ forall j', (j' < j)%nat -> ofiles !! j' <> Some None
  end.
Proof.
  revert fd0. induction ofiles as [|[f|] rest IH]; intros fd0; simpl.
  - intros j. discriminate.
  - specialize (IH (fd0 + 1)).
    destruct (fdalloc_scan rest (fd0 + 1)) as [fd|].
    + destruct IH as (j & -> & Hj & Hbefore). exists (S j).
      split; [lia|]. split; [exact Hj|].
      intros [|j'] Hlt; [discriminate|]. apply Hbefore. lia.
    + intros [|j]; [discriminate|]. apply IH.
  - exists 0%nat. split; [lia|]. split; [reflexivity|]. intros j' H. lia.
Qed.

(** [fdalloc] gives the caller the lowest descriptor that is free, and
    stores the file there; when the NOFILE descriptors are all in use it
    returns -1 and changes nothing. *)
Theorem fdalloc_spec (f : nat) (k : kernel) c p :
  cur (pstate k) = Some c -> procs (pstate k) !! c = Some p ->
  ((forall j, (j < Z.to_nat NOFILE)%nat -> ofile p !! j <> Some None) ->
   fdalloc f k = Done (-1) k)
  /\ (forall j,
        (j < Z.to_nat NOFILE)%nat -> ofile p !! j = Some None ->
        (forall j', (j' < j)%nat -> ofile p !! j' <> Some None) ->
        fdalloc f k
        = Done (Z.of_nat j)
            (set_pstate
               (upd_proc c (fun q =>
                  set_ofile (<[j := Some (Z.of_nat f)]> (ofile q)) q)
                  (pstate k)) k)).
Proof.
  intros Hcur Hp. unfold fdalloc, bind.
  rewrite (ForkFacts.myproc_eval k c p Hcur Hp). cbn [snd].
  pose proof (fdalloc_scan_spec (take (Z.to_nat NOFILE) (ofile p)) 0) as H.
  destruct (fdalloc_scan (take (Z.to_nat NOFILE) (ofile p)) 0) as [fd|].
  - destruct H as (j & -> & Hj & Hbefore).
    apply lookup_take_Some in Hj as [Hj Hlt].
    split.
    + intros Hfull. exfalso. now apply (Hfull j Hlt).
    + intros j' Hlt' Hj' Hfirst.
      assert (j' = j) as ->.
      { destruct (Nat.lt_trichotomy j' j) as [Hc|[Hc|Hc]]; [|exact Hc|].
        - exfalso. apply (Hbefore j' Hc).
          rewrite lookup_take_lt by lia. exact Hj'.
        - exfalso. now apply (Hfirst j Hc). }
      rewrite (upd_myproc_eval k c p _ Hcur Hp). unfold ret.
      rewrite Z.add_0_l, Nat2Z.id. reflexivity.
  - split.
    + reflexivity.
    + intros j Hlt Hj _. exfalso. apply (H j).
      rewrite lookup_take_lt by lia. exact Hj.
Qed.

End Dispatcher.
End WithParams.
End SysProcFacts.


(** ** Properties of the inode table and of the block allocator *)

Module InodeFacts.
Import Layout FsLayout Fs.

Section WithParams.
Context {P : KernelParams} {U : UserMem}.

Lemma iget_scan_spec tbl k0 dv inm empty :
  match iget_scan tbl k0 dv inm empty with
  | (Some k, _) =>
      exists j i, k = (k0 + j)%nat /\ tbl !! j = Some i
        /\ 0 < ref i /\ dev i = dv /\ inum i = inm
        /\ forall j' i', (j' < j)%nat -> tbl !! j' = Some i' ->
             ~ (0 < ref i' /\ dev i' = dv /\ inum i' = inm)
  | (None, e) =>
      (forall j i, tbl !! j = Some i ->
                   ~ (0 < ref i /\ dev i = dv /\ inum i = inm))
      /\ match empty with
         | Some e0 => e = Some e0
         | None =>
             match e with
             | Some n =>
                 exists j i, n = (k0 + j)%nat /\ tbl !! j = Some i /\ ref i = 0
                   /\ forall j' i', (j' < j)%nat -> tbl !! j' = Some i' ->
                                    ref i' <> 0
             | None => forall j i, tbl !! j = Some i -> ref i <> 0
             end
         end
  end.
Proof.
  revert k0 empty. induction tbl as [|x tbl IH]; intros k0 empty; simpl.
  - split; [intros j i H; discriminate|].
    destruct empty; [reflexivity|]. intros j i H. discriminate.
  - destruct ((ref x >? 0) && (dev x =? dv) && (inum x =? inm)) eqn:E.
    + apply andb_true_iff in E as [E E3]. apply andb_true_iff in E as [E1 E2].
      rewrite Z.gtb_ltb in E1. apply Z.ltb_lt in E1.
      apply Z.eqb_eq in E2. apply Z.eqb_eq in E3.
      exists 0%nat, x. repeat split; try assumption; [lia|].
      intros j' i' Hlt. lia.
    + assert (Hx : ~ (0 < ref x /\ dev x = dv /\ inum x = inm)).
      { intros (H1 & H2 & H3).
        apply Z.ltb_lt in H1. rewrite <- Z.gtb_ltb in H1.
        apply Z.eqb_eq in H2. apply Z.eqb_eq in H3.
        now rewrite H1, H2, H3 in E. }
      match goal with
      | |- context [iget_scan tbl (S k0) dv inm ?e] =>
          specialize (IH (S k0) e);
          destruct (iget_scan tbl (S k0) dv inm e) as [[k|] e'] eqn:Escan
      end.
      * destruct IH as (j & i & -> & Hj & H1 & H2 & H3 & Hbefore).
        exists (S j), i. repeat split; try assumption; [lia|].
        intros [|j'] i' Hlt Hi'; [inversion Hi'; now subst|].
        apply (Hbefore j' i'); [lia|exact Hi'].
      * destruct IH as [Hnone He]. split.
        -- intros [|j] i Hi; [inversion Hi; now subst|]. now apply (Hnone j).
        -- destruct empty as [e0|]; [exact He|].
           destruct (Z.eqb_spec (ref x) 0) as [E0|E0].
           ++ subst e'. exists 0%nat, x. repeat split; [lia|exact E0|].
              intros j' i' Hlt. lia.
           ++ destruct e' as [n|].
              ** destruct He as (j & i & -> & Hj & Hr & Hbefore).
                 exists (S j), i. repeat split; [lia|assumption..|].
                 intros [|j'] i' Hlt Hi'; [inversion Hi'; now subst|].
                 apply (Hbefore j' i'); [lia|exact Hi'].
              ** intros [|j] i Hi; [inversion Hi; now subst|].
                 now apply (He j).
Qed.

(** [iget] returns the first slot of the inode table that is in use for
    the given device and inode number, with one more reference and
    nothing else changed.  When there is none it takes the first slot
    whose reference count is 0 and resets it to the new identity with
    one reference and [valid] 0, so that the next [ilock] reads the
    inode from disk.  A table without such a slot makes it panic. *)
Theorem iget_spec (dv inm : Z) (s : fs) :
  (forall k i,
      (k < Z.to_nat NINODE)%nat -> itable s !! k = Some i ->
      0 < ref i -> dev i = dv -> inum i = inm ->
      (forall k' i', (k' < k)%nat -> itable s !! k' = Some i' ->
                     ~ (0 < ref i' /\ dev i' = dv /\ inum i' = inm)) ->
      iget dv inm s
      = Done k (set_itable
                  (alter (fun x => set_ref (to_int (ref x + 1)) x) k (itable s)) s))
  /\ ((forall k i, (k < Z.to_nat NINODE)%nat -> itable s !! k = Some i ->
                   ~ (0 < ref i /\ dev i = dv /\ inum i = inm)) ->
      (forall e i,
          (e < Z.to_nat NINODE)%nat -> itable s !! e = Some i -> ref i = 0 ->
          (forall k' i', (k' < e)%nat -> itable s !! k' = Some i' ->
                         ref i' <> 0) ->
          iget dv inm s
          = Done e (set_itable
                      (alter (fun x => set_valid 0 (set_ref 1
                                         (set_inum inm (set_dev dv x))))
                         e (itable s)) s))
      /\ ((forall k i, (k < Z.to_nat NINODE)%nat -> itable s !! k = Some i ->
                       ref i <> 0) ->
          iget dv inm s = Panic "iget: no inodes")).
Proof.
  unfold iget, bind, get.
  pose proof (iget_scan_spec (take (Z.to_nat NINODE) (itable s)) 0 dv inm None) as H.
  destruct (iget_scan (take (Z.to_nat NINODE) (itable s)) 0 dv inm None)
    as [[k|] e].
  - destruct H as (j & i & -> & Hj & H1 & H2 & H3 & Hbefore). simpl.
    apply lookup_take_Some in Hj as [Hj Hlt].
    split.
    + intros k i' Hk Hi' H1' H2' H3' Hfirst.
      assert (k = j) as ->.
      { destruct (Nat.lt_trichotomy k j) as [Hc|[Hc|Hc]]; [|exact Hc|].
        - exfalso. apply (Hbefore k i' Hc); [|auto].
          rewrite lookup_take_lt by lia. exact Hi'.
        - exfalso. apply (Hfirst j i Hc Hj). auto. }
      reflexivity.
    + intros Hnone. exfalso. apply (Hnone j i Hlt Hj). auto.
  - destruct H as [Hnone He]. split.
    + intros k i Hk Hi H1 H2 H3 _. exfalso. apply (Hnone k i); [|auto].
      rewrite lookup_take_lt by lia. exact Hi.
    + intros _. destruct e as [n|].
      * destruct He as (j & i & -> & Hj & Hr & Hbefore). simpl.
        apply lookup_take_Some in Hj as [Hj Hlt].
        split.
        -- intros e i' He' Hi' Hr' Hfirst.
           assert (e = j) as ->.
           { destruct (Nat.lt_trichotomy e j) as [Hc|[Hc|Hc]]; [|exact Hc|].
             - exfalso. apply (Hbefore e i' Hc); [|exact Hr'].
               rewrite lookup_take_lt by lia. exact Hi'.
             - exfalso. now apply (Hfirst j i Hc Hj). }
           reflexivity.
        -- intros Hfull. exfalso. now apply (Hfull j i Hlt Hj).
      * split.
        -- intros e i He' Hi Hr _. exfalso. apply (He e i); [|exact Hr].
           rewrite lookup_take_lt by lia. exact Hi.
        -- reflexivity.
Qed.

Lemma fs_eq (s s' : fs) :
  disk s = disk s' -> sb s = sb s' -> itable s = itable s' ->
  atime_clock s = atime_clock s' -> mtime_clock s = mtime_clock s' -> s = s'.
Proof. destruct s, s'; simpl; congruence. Qed.

Lemma alter_same {A} (f : A -> A) i (l : list A) x :
  l !! i = Some x -> f x = x -> alter f i l = l.
Proof.
  intros Hx Hf. apply list_eq. intros j.
  destruct (decide (j = i)) as [->|Hne].
  - now rewrite list_lookup_alter_eq, Hx; simpl; rewrite Hf.
  - now rewrite list_lookup_alter_ne by congruence.
Qed.

(** A reference taken with [idup] and dropped with [iput] leaves the
    file system as it was: with the extra reference [iput] cannot be
    the one that frees the inode.  Dropping the last reference to a
    valid inode that still has links only decrements the count. *)
Theorem idup_iput_round_trip (ip : nat) (i : inode) (s : fs) :
  itable s !! ip = Some i -> 1 <= ref i < 2 ^ 31 - 1 ->
  bind (idup ip) (fun _ => iput ip) s = Done tt s
  /\ (nlink i <> 0 \/ valid i = 0 \/ ref i <> 1 ->
      iput ip s
      = Done tt (set_itable (alter (set_ref (ref i - 1)) ip (itable s)) s)).
Proof.
  intros Hi Href. split.
  - unfold idup, iput, ip_get, ip_upd, get, modify, ret, bind. cbv beta.
    rewrite Hi. simpl. rewrite list_lookup_alter_eq, Hi. simpl.
    rewrite (to_int_small (ref i + 1)) by lia.
    replace (ref i + 1 =? 1) with false by (symmetry; apply Z.eqb_neq; lia).
    simpl. f_equal. apply fs_eq; try reflexivity. simpl.
    rewrite list_alter_alter_eq.
    apply (alter_same _ _ _ i Hi). unfold compose. simpl.
    rewrite (to_int_small (ref i + 1)) by lia.
    replace (ref i + 1 - 1) with (ref i) by lia.
    rewrite to_int_small by lia. now destruct i.
  - intros Hcase. unfold iput, ip_get, ip_upd, get, modify, ret, bind.
    cbv beta. rewrite Hi.
    replace ((ref i =? 1) && negb (valid i =? 0) && (nlink i =? 0)) with false.
    + simpl. f_equal. f_equal. apply list_eq. intros j.
      destruct (decide (j = ip)) as [->|Hne].
      * rewrite !list_lookup_alter_eq, Hi. simpl.
        now rewrite to_int_small by lia.
      * now rewrite !list_lookup_alter_ne by congruence.
    + symmetry. destruct Hcase as [H|[H|H]].
      * apply Z.eqb_neq in H. rewrite H. now rewrite andb_false_r.
      * rewrite H. simpl. now rewrite andb_false_r.
      * apply Z.eqb_neq in H. now rewrite H.
Qed.

(** [ilock] on a slot without a reference panics; on an inode that is
    already locked the caller has to wait.  Locking an inode whose copy
    is valid only takes the lock, and [iunlock] then restores the state.
    [iunlock] panics when the lock is not held. *)
Theorem ilock_iunlock_spec (ip : nat) (i : inode) (s : fs) :
  itable s !! ip = Some i ->
  (ref i < 1 -> ilock ip s = Panic "ilock")
  /\ (1 <= ref i -> locked i = true -> ilock ip s = Blocked)
  /\ (1 <= ref i -> locked i = false -> valid i <> 0 ->
      ilock ip s
      = Done tt (set_itable (alter (set_locked true) ip (itable s)) s)
      /\ bind (ilock ip) (fun _ => iunlock ip) s = Done tt s)
  /\ (locked i = false \/ ref i < 1 -> iunlock ip s = Panic "iunlock").
Proof.
  intros Hi. unfold ilock, iunlock, ip_get, ip_upd, get, modify, ret, bind.
  cbv beta. rewrite Hi. split; [|split; [|split]].
  - intros H. now replace (ref i <? 1) with true by (symmetry; apply Z.ltb_lt; lia).
  - intros H Hl.
    replace (ref i <? 1) with false by (symmetry; apply Z.ltb_ge; lia).
    now rewrite Hl.
  - intros H Hl Hv.
    replace (ref i <? 1) with false by (symmetry; apply Z.ltb_ge; lia).
    rewrite Hl. apply Z.eqb_neq in Hv. rewrite Hv. simpl.
    split; [reflexivity|].
    rewrite list_lookup_alter_eq, Hi. simpl.
    replace (ref i <? 1) with false by (symmetry; apply Z.ltb_ge; lia).
    simpl. f_equal. apply fs_eq; try reflexivity. simpl.
    rewrite list_alter_alter_eq. apply (alter_same _ _ _ i Hi).
    unfold compose. destruct i. simpl in *. now subst.
  - intros [H|H].
    + now rewrite H.
    + replace (ref i <? 1) with true by (symmetry; apply Z.ltb_lt; lia).
      now rewrite orb_true_r.
Qed.

End WithParams.
End InodeFacts.


(** ** Bytes of a block *)

Module ByteFacts.
Import Layout FsLayout Fs FsInv.

Lemma get_put_u8 b o v x :
  0 <= o -> 0 <= x ->
  get_u8 (put_u8 b o v) x
  = if (x =? o) && (o <? Z.of_nat (length b)) then wrap 8 v else get_u8 b x.
Proof.
  intros Ho Hx. unfold get_u8, put_u8.
  destruct (Z.eqb_spec x o) as [->|Hne]; simpl.
  - destruct (Z.ltb_spec o (Z.of_nat (length b))).
    + now rewrite list_lookup_insert_eq by lia.
    + now rewrite list_insert_ge by lia.
  - now rewrite list_lookup_insert_ne by lia.
Qed.

Lemma length_put_u8 b o v : length (put_u8 b o v) = length b.
Proof. unfold put_u8. apply length_insert. Qed.

Lemma length_put_u16 b o v : length (put_u16 b o v) = length b.
Proof. unfold put_u16. now rewrite !length_put_u8. Qed.

Lemma length_put_u32 b o v : length (put_u32 b o v) = length b.
Proof. unfold put_u32. now rewrite !length_put_u16. Qed.

Lemma length_put_bytes b o bs :
  0 <= o -> o + Z.of_nat (length bs) <= Z.of_nat (length b) ->
  length (put_bytes b o bs) = length b.
Proof.
  intros Ho Hlen. unfold put_bytes.
  rewrite !length_app, length_take, length_drop. lia.
Qed.

Lemma same_outside_put_u8 b o v : 0 <= o -> same_outside o (o + 1) b (put_u8 b o v).
Proof.
  intros Ho x Hx Hout. rewrite get_put_u8 by lia.
  destruct (Z.eqb_spec x o); [lia|reflexivity].
Qed.

Lemma same_outside_put_u16 b o v :
  0 <= o -> same_outside o (o + 2) b (put_u16 b o v).
Proof.
  intros Ho x Hx Hout. unfold put_u16. rewrite !get_put_u8 by lia.
  destruct (Z.eqb_spec x (o + 1)); [lia|].
  destruct (Z.eqb_spec x o); [lia|reflexivity].
Qed.

Lemma same_outside_put_u32 b o v :
  0 <= o -> same_outside o (o + 4) b (put_u32 b o v).
Proof.
  intros Ho x Hx Hout. unfold put_u32.
  rewrite (same_outside_put_u16 _ (o + 2) _ ltac:(lia) x Hx) by lia.
  now rewrite (same_outside_put_u16 _ o _ Ho x Hx) by lia.
Qed.

Lemma same_outside_put_bytes b o bs :
  0 <= o -> o + Z.of_nat (length bs) <= Z.of_nat (length b) ->
  same_outside o (o + Z.of_nat (length bs)) b (put_bytes b o bs).
Proof.
  intros Ho Hlen x Hx Hout. unfold get_u8, put_bytes. f_equal.
  destruct Hout as [Hlt|Hge].
  - rewrite lookup_app_l by (rewrite length_take; lia).
    now rewrite lookup_take_lt by lia.
  - rewrite lookup_app_r by (rewrite length_take; lia).
    rewrite length_take.
    rewrite lookup_app_r by lia.
    rewrite lookup_drop. f_equal. lia.
Qed.

Lemma get_u16_outside lo hi b b' o :
  same_outside lo hi b b' -> 0 <= o -> o + 2 <= lo \/ hi <= o ->
  get_u16 b' o = get_u16 b o.
Proof.
  intros H Ho Hout. unfold get_u16. now rewrite !H by lia.
Qed.

Lemma get_u32_outside lo hi b b' o :
  same_outside lo hi b b' -> 0 <= o -> o + 4 <= lo \/ hi <= o ->
  get_u32 b' o = get_u32 b o.
Proof.
  intros H Ho Hout. unfold get_u32.
  now rewrite !(get_u16_outside lo hi b b') by (assumption || lia).
Qed.

Lemma get_u16_put_u16 b o v :
  0 <= o -> o + 2 <= Z.of_nat (length b) ->
  get_u16 (put_u16 b o v) o = v mod 65536.
Proof.
  intros Ho Hlen. unfold get_u16, put_u16. rewrite !get_put_u8 by lia.
  rewrite length_put_u8.
  destruct (Z.eqb_spec o (o + 1)); [lia|].
  destruct (Z.eqb_spec (o + 1) (o + 1)); [|lia].
  rewrite Z.eqb_refl.
  replace (o <? Z.of_nat (length b)) with true by (symmetry; apply Z.ltb_lt; lia).
  replace (o + 1 <? Z.of_nat (length b)) with true by (symmetry; apply Z.ltb_lt; lia).
  simpl. unfold wrap. change (2 ^ 8) with 256.
  change 65536 with (256 * 256). rewrite Z.rem_mul_r by lia. lia.
Qed.

Lemma get_u32_put_u32 b o v :
  0 <= o -> o + 4 <= Z.of_nat (length b) ->
  get_u32 (put_u32 b o v) o = v mod 4294967296.
Proof.
  intros Ho Hlen. unfold get_u32, put_u32.
  rewrite get_u16_put_u16 by (rewrite ?length_put_u16; lia).
  rewrite (get_u16_outside _ _ _ _ _ (same_outside_put_u16 _ (o + 2) _ ltac:(lia)))
    by lia.
  rewrite get_u16_put_u16 by lia.
  change 4294967296 with (65536 * 65536). rewrite Z.rem_mul_r by lia. lia.
Qed.

Lemma to_short_mod v : - 2 ^ 15 <= v < 2 ^ 15 -> to_short (v mod 65536) = v.
Proof.
  intros H. unfold to_short, swrap. change (16 - 1) with 15.
  change (2 ^ 16) with 65536. change (2 ^ 15) with 32768 in *.
  rewrite Zplus_mod_idemp_l. rewrite Z.mod_small; lia.
Qed.

Lemma get_bytes_put_bytes b o bs :
  0 <= o -> o <= Z.of_nat (length b) ->
  get_bytes (put_bytes b o bs) o (Z.of_nat (length bs)) = bs.
Proof.
  intros Ho Hlen. unfold get_bytes, put_bytes.
  rewrite drop_app_length' by (rewrite length_take; lia).
  rewrite Nat2Z.id. now rewrite take_app_length.
Qed.


Lemma dinode_offsets k :
  dinode_at k "type" = k * 128
  /\ dinode_at k "major" = k * 128 + 2
  /\ dinode_at k "minor" = k * 128 + 4
  /\ dinode_at k "nlink" = k * 128 + 6
  /\ dinode_at k "size" = k * 128 + 8
  /\ dinode_at k "addrs" = k * 128 + 12
  /\ dinode_at k "mode" = k * 128 + 64
  /\ dinode_at k "uid" = k * 128 + 66
  /\ dinode_at k "atime" = k * 128 + 68
  /\ dinode_at k "mtime" = k * 128 + 72
  /\ dinode_at k "ctime" = k * 128 + 76
  /\ dinode_at k "blocks" = k * 128 + 80
  /\ dinode_at k "padding" = k * 128 + 84.
Proof.
  unfold dinode_at.
  replace sizeof_dinode with 128 by (vm_compute; reflexivity).
  repeat split;
    match goal with
    | |- _ + ?o = _ =>
        let v := eval vm_compute in o in
        change o with v; lia
    end.
Qed.

End ByteFacts.


Module DinodeFacts.
Import Layout FsLayout Fs FsInv ByteFacts.

Lemma get_u16_frame_u16 b o' v o :
  0 <= o -> 0 <= o' -> o + 2 <= o' \/ o' + 2 <= o ->
  get_u16 (put_u16 b o' v) o = get_u16 b o.
Proof.
  intros. apply (get_u16_outside o' (o' + 2)); [now apply same_outside_put_u16|lia..].
Qed.

Lemma get_u16_frame_u32 b o' v o :
  0 <= o -> 0 <= o' -> o + 2 <= o' \/ o' + 4 <= o ->
  get_u16 (put_u32 b o' v) o = get_u16 b o.
Proof.
  intros. apply (get_u16_outside o' (o' + 4)); [now apply same_outside_put_u32|lia..].
Qed.

Lemma get_u32_frame_u16 b o' v o :
  0 <= o -> 0 <= o' -> o + 4 <= o' \/ o' + 2 <= o ->
  get_u32 (put_u16 b o' v) o = get_u32 b o.
Proof.
  intros. apply (get_u32_outside o' (o' + 2)); [now apply same_outside_put_u16|lia..].
Qed.

Lemma get_u32_frame_u32 b o' v o :
  0 <= o -> 0 <= o' -> o + 4 <= o' \/ o' + 4 <= o ->
  get_u32 (put_u32 b o' v) o = get_u32 b o.
Proof.
  intros. apply (get_u32_outside o' (o' + 4)); [now apply same_outside_put_u32|lia..].
Qed.

Lemma get_u16_frame_bytes b o' bs o :
  0 <= o -> 0 <= o' -> o' + Z.of_nat (length bs) <= Z.of_nat (length b) ->
  o + 2 <= o' \/ o' + Z.of_nat (length bs) <= o ->
  get_u16 (put_bytes b o' bs) o = get_u16 b o.
Proof.
  intros. apply (get_u16_outside o' (o' + Z.of_nat (length bs)));
    [now apply same_outside_put_bytes|lia..].
Qed.

Lemma get_u32_frame_bytes b o' bs o :
  0 <= o -> 0 <= o' -> o' + Z.of_nat (length bs) <= Z.of_nat (length b) ->
  o + 4 <= o' \/ o' + Z.of_nat (length bs) <= o ->
  get_u32 (put_bytes b o' bs) o = get_u32 b o.
Proof.
  intros. apply (get_u32_outside o' (o' + Z.of_nat (length bs)));
    [now apply same_outside_put_bytes|lia..].
Qed.

Ltac put_length :=
  repeat first [rewrite length_put_u32 | rewrite length_put_u16
               | rewrite length_put_u8];
  lia.

Ltac frame :=
  repeat first
    [ rewrite get_u16_frame_u16 by lia
    | rewrite get_u16_frame_u32 by lia
    | rewrite get_u32_frame_u16 by lia
    | rewrite get_u32_frame_u32 by lia ].

Lemma inode_ext (a b : inode) :
  dev a = dev b -> inum a = inum b -> ref a = ref b -> locked a = locked b ->
  valid a = valid b -> type a = type b -> major a = major b ->
  minor a = minor b -> nlink a = nlink b -> size a = size b ->
  addrs a = addrs b -> mode a = mode b -> uid a = uid b ->
  atime a = atime b -> mtime a = mtime b -> ctime a = ctime b ->
  blocks a = blocks b -> padding a = padding b -> a = b.
Proof.
  destruct a, b. cbn. intros. subst. reflexivity.
Qed.

Ltac field16 :=
  repeat first [ rewrite get_u16_frame_u32 by lia
               | rewrite get_u16_frame_u16 by lia ];
  rewrite get_u16_put_u16 by (try lia; put_length);
  reflexivity.

Ltac field32 :=
  repeat first [ rewrite get_u32_frame_u32 by lia
               | rewrite get_u32_frame_u16 by lia ];
  rewrite get_u32_put_u32 by (try lia; put_length);
  reflexivity.

Lemma addrs_13 (l : list Z) :
  length l = 13%nat ->
  exists a0 a1 a2 a3 a4 a5 a6 a7 a8 a9 a10 a11 a12,
    l = [a0; a1; a2; a3; a4; a5; a6; a7; a8; a9; a10; a11; a12].
Proof.
  intros H.
  do 13 (destruct l as [|? l]; [discriminate|]).
  destruct l; [|discriminate]. eauto 20.
Qed.

Lemma dinode_get_put k i d i0 :
  0 <= k -> k * 128 + 128 <= Z.of_nat (length d) -> dinode_fields_ok i ->
  dinode_get k (dinode_put k i d) i0
  = Build_inode (dev i0) (inum i0) (ref i0) (locked i0) (valid i0)
      (type i) (major i) (minor i) (nlink i) (size i) (addrs i)
      (mode i) (uid i) (atime i) (mtime i) (ctime i) (blocks i) (padding i).
Proof.
  intros Hk Hlen (Ht & Hma & Hmi & Hnl & Hsz & Hal & Haf & Hmo & Hu & Hat
                  & Hmt & Hct & Hbl & Hpl).
  unfold dinode_get, dinode_put.
  destruct (dinode_offsets k)
    as (-> & -> & -> & -> & -> & -> & -> & -> & -> & -> & -> & -> & ->).
  change (seqZ 0 (NDIRECT + 3)) with [0; 1; 2; 3; 4; 5; 6; 7; 8; 9; 10; 11; 12].
  rewrite (take_app_length' (padding i) _ 44 (eq_sym Hpl)).
  destruct (addrs_13 (addrs i) Hal)
    as (a0 & a1 & a2 & a3 & a4 & a5 & a6 & a7 & a8 & a9 & a10 & a11 & a12 & Ha).
  unfold addr_at. rewrite Ha in *. cbn [fold_left map lookup list_lookup Z.to_nat Pos.to_nat Pos.iter_op Nat.add default].
  repeat match goal with
         | H : Forall _ (_ :: _) |- _ => apply Forall_cons in H as [? H]
         end.
  change (2 ^ 32) with 4294967296 in *.
  change (2 ^ 16) with 65536 in *.
  assert (Hp44 : Z.of_nat (length (padding i)) = 44) by lia.
  repeat match goal with
         | |- context [default 0 (?l !! Z.to_nat ?n)] =>
             let v := eval cbv in (default 0 (l !! Z.to_nat n)) in
             change (default 0 (l !! Z.to_nat n)) with v
         end.
  set (pad := padding i) in *.
  match goal with
  | |- context [put_bytes ?B _ pad] =>
      set (D := B);
      assert (HD : length D = length d) by (unfold D; put_length)
  end.
  assert (Hpadget : get_bytes (put_bytes D (k * 128 + 84) pad) (k * 128 + 84) 44
                    = pad).
  { rewrite <- Hp44. apply get_bytes_put_bytes; lia. }
  rewrite Hpadget.
  rewrite !get_u32_frame_bytes by lia.
  rewrite !get_u16_frame_bytes by lia.
  unfold get_s16. rewrite !get_u16_frame_bytes by lia.
  clear Hpadget.
  repeat match goal with
         | |- context [get_u32 D ?o] =>
             let H := fresh "Hf" in
             eassert (H : get_u32 D o = _) by (unfold D; field32);
             rewrite H; clear H
         | |- context [get_u16 D ?o] =>
             let H := fresh "Hf" in
             eassert (H : get_u16 D o = _) by (unfold D; field16);
             rewrite H; clear H
         end.
  clear D HD.
  rewrite !to_short_mod by assumption.
  rewrite !Z.mod_small by lia.
  apply inode_ext; reflexivity.
Qed.


Section WithParams.
Context {P : KernelParams} {U : UserMem}.

(** What [iupdate] writes, [ilock] reads back.  After [iupdate] of an
    inode whose members are within the range of their C types, a slot
    for the same inode that holds no valid copy (as [iget] hands it out
    once the cached copy has been dropped) is filled by [ilock] with the
    very members that were written: type, device numbers, link count,
    size, the block addresses, mode, owner, the three times, the block
    count and the padding.  [iupdate] touches no block but the one that
    holds the inode. *)
Theorem iupdate_then_ilock (ip : nat) (i i0 : inode) (s : fs) (d : list Z) :
  itable s !! ip = Some i -> dinode_fields_ok i -> type i <> 0 ->
  0 <= inum i ->
  disk s !! (dev i, IBLOCK (inum i) (sb s)) = Some d ->
  length d = Z.to_nat BSIZE ->
  dev i0 = dev i -> inum i0 = inum i ->
  1 <= ref i0 -> locked i0 = false -> valid i0 = 0 ->
  exists s1,
    iupdate ip s = Done tt s1
    /\ itable s1 = itable s /\ sb s1 = sb s
    /\ (forall key, key <> (dev i, IBLOCK (inum i) (sb s)) ->
          disk s1 !! key = disk s !! key)
    /\ ilock ip (set_itable (<[ip := i0]> (itable s1)) s1)
       = Done tt (set_itable
                    (<[ip := set_ref (ref i0)
                               (set_locked true (set_valid 1 i))]>
                       (itable s1)) s1).
Proof.
  intros Hi Hok Htype Hinum Hd Hlen Hdev Hino Href Hlocked Hvalid.
  assert (Hlt : (ip < length (itable s))%nat)
    by (eapply lookup_lt_Some; eassumption).
  assert (Hk : 0 <= inum i mod IPB < 32)
    by (change IPB with 32; apply Z.mod_pos_bound; lia).
  unfold iupdate, ip_get, bread_deref, bread, buf_store, log_block_write,
    brelse, get, modify, ret, bind.
  cbv beta. rewrite Hi. cbv beta iota. rewrite Hd. cbv beta iota.
  eexists. split; [reflexivity|].
  split; [reflexivity|]. split; [reflexivity|].
  split.
  { intros key Hkey. cbn [disk set_disk]. now rewrite lookup_alter_ne. }
  match goal with
  | |- ilock ip ?X = _ => set (s2 := X)
  end.
  assert (Hi2 : itable s2 !! ip = Some i0)
    by (unfold s2; cbn [itable set_itable set_disk];
        now rewrite list_lookup_insert_eq).
  assert (Hd2 : disk s2 !! (dev i0, IBLOCK (inum i0) (sb s2))
                = Some (dinode_put (inum i mod IPB) i d)).
  { unfold s2. cbn [disk sb set_itable set_disk]. rewrite Hdev, Hino.
    rewrite lookup_alter_eq, Hd. reflexivity. }
  unfold ilock, ip_get, ip_upd, bread_deref, bread, buf_data, brelse,
    get, modify, ret, bind.
  cbv beta. rewrite Hi2. cbv beta iota.
  replace (ref i0 <? 1) with false by (symmetry; apply Z.ltb_ge; lia).
  rewrite Hlocked, Hvalid. cbv beta iota.
  change (0 =? 0) with true. cbv beta iota.
  cbn [disk sb set_itable]. rewrite Hd2. cbv beta iota.
  cbn [disk sb set_itable]. rewrite Hd2. cbv beta iota.
  cbn [itable set_itable].
  rewrite !list_alter_alter_eq.
  rewrite list_lookup_alter_eq, Hi2. cbn [fmap option_fmap option_map].
  unfold compose.
  rewrite Hino.
  change (set_padding _ (set_blocks _ (set_ctime _ (set_mtime _ (set_atime _
            (set_uid _ (set_mode _ (set_addrs _ (set_size _ (set_nlink _
            (set_minor _ (set_major _ (set_type _ ?x)))))))))))))
    with (dinode_get (inum i mod IPB) (dinode_put (inum i mod IPB) i d) x).
  rewrite dinode_get_put
    by (try assumption; try lia;
        rewrite Hlen; change (Z.to_nat BSIZE) with 4096%nat; lia).
  cbn [type set_valid]. 
  destruct (Z.eqb_spec (type i) 0) as [E|_]; [contradiction|].
  f_equal. apply InodeFacts.fs_eq;
    cbn [disk sb itable atime_clock mtime_clock set_itable set_disk];
    try reflexivity.
  apply list_eq. intros j. unfold s2. cbn [itable set_itable set_disk].
  destruct (decide (j = ip)) as [->|Hne].
  - rewrite list_lookup_alter_eq.
    rewrite !list_lookup_insert_eq by exact Hlt.
    cbn [fmap option_fmap option_map]. f_equal.
    rewrite dinode_get_put
      by (try assumption; try lia;
          rewrite Hlen; change (Z.to_nat BSIZE) with 4096%nat; lia).
    apply inode_ext; cbn; try reflexivity; congruence.
  - rewrite list_lookup_alter_ne by congruence.
    rewrite !list_lookup_insert_ne by congruence. reflexivity.
Qed.

End WithParams.

End DinodeFacts.

(** ** Runs of the process, system-call and inode code *)

Module MoreRuns.
Import Layout FsLayout Fs Sys Image.
#[local] Existing Instance xv6_params.
#[local] Existing Instance umem.

(** Slot 1 is put on the empty queue of level 0 and taken off again. *)
Lemma mlfq_add_then_remove_witness :
  Proc.queues (Proc.mlfq_sched (Proc.mlfq_add_process 1 0 (pstate k_fork)))
    !! 0%nat = Some [1%nat]
  /\ Proc.mlfq_remove_process 1 0 (Proc.mlfq_add_process 1 0 (pstate k_fork))
     = pstate k_fork.
Proof.
  destruct (SchedFacts.mlfq_add_then_remove (P := xv6_params) 1 0
              (pstate k_fork) []) as [H _].
  - change (0 <= 0 < 5). lia.
  - reflexivity.
  - apply not_elem_of_nil.
  - apply H. reflexivity.
Defined.

(** The shell, alone on the queue of level 2, yields. *)
Lemma yield_moves_caller_to_tail_witness :
  exists k',
    Proc.yield (pstate k_fork) = Done tt k'
    /\ Proc.procs k'
       = alter (Proc.set_state Proc.RUNNABLE) 0%nat (Proc.procs (pstate k_fork))
    /\ (Proc.select_next_proc (pstate k_fork) = Proc.Mlfq ->
        Proc.queues (Proc.mlfq_sched k')
        = <[2%nat := Proc.remove_first 0 [0%nat] ++ [0%nat]]>
            (Proc.queues (Proc.mlfq_sched (pstate k_fork))))
    /\ (Proc.select_next_proc (pstate k_fork) <> Proc.Mlfq ->
        Proc.mlfq_sched k' = Proc.mlfq_sched (pstate k_fork)).
Proof.
  apply (SchedFacts.yield_moves_caller_to_tail (P := xv6_params)
           (pstate k_fork) 0 sh [0%nat]).
  - reflexivity.
  - reflexivity.
  - change (0 <= 2 < 5). lia.
  - reflexivity.
  - apply list_elem_of_singleton. reflexivity.
  - change (1 <= 64). lia.
Defined.


(** The shell waits with a null address: it reaps its ZOMBIE child, pid 3, in
    slot 2. *)
Lemma kwait_turn_spec_witness :
  ProcExt.kwait_turn proc_addr 0 k_wait
  = Done (Some (3, None)) (Proc.upd_proc 2 Proc.freeproc k_wait).
Proof.
  apply (proj1 (SchedFacts.kwait_turn_spec (P := xv6_params) (U := umem)
                  proc_addr 0 k_wait 1
                  (Proc.set_parent (Some 0%nat) (a_proc Proc.RUNNING 2 5 0 0))
                  eq_refl eq_refl)
           2%nat (Proc.set_parent (Some 1%nat) (a_proc Proc.ZOMBIE 3 5 0 0))).
  - change (2 < 64)%nat. lia.
  - reflexivity.
  - reflexivity.
  - reflexivity.
  - intros j q Hj Hq Hpar.
    destruct j as [|[|j]]; [| |lia];
      vm_compute in Hq; inversion Hq; subst q; discriminate.
Defined.

(** The children of the shell go to the first process, which sleeps in
    [kwait] and is woken. *)
Lemma reparent_spec_witness :
  Proc.procs (ProcExt.reparent proc_addr 0 1 k_wait) !! 0%nat
  = Some (Proc.set_state Proc.RUNNABLE
            (a_proc Proc.SLEEPING 1 5 0 (proc_addr 0)))
  /\ Proc.procs (ProcExt.reparent proc_addr 0 1 k_wait) !! 2%nat
     = Some (Proc.set_parent (Some 0%nat)
               (Proc.set_parent (Some 1%nat) (a_proc Proc.ZOMBIE 3 5 0 0))).
Proof.
  destruct (SchedFacts.reparent_spec (P := xv6_params) proc_addr 0 1 k_wait
              eq_refl) as (_ & _ & H).
  split.
  - apply (H 0%nat (a_proc Proc.SLEEPING 1 5 0 (proc_addr 0))). reflexivity.
  - apply (H 2%nat (Proc.set_parent (Some 1%nat)
                      (a_proc Proc.ZOMBIE 3 5 0 0))). reflexivity.
Defined.

(** The shell forks: the child in slot 1. *)
Lemma kfork_child_witness :
  exists k' c,
    Fork.kfork bump_ref copy_name env_ok k_fork = Done 4 k'
    /\ Proc.procs (pstate k') !! 1%nat = Some c
    /\ Proc.tf c = Some (Proc.set_a0 0 tf0)
    /\ Proc.sz c = 4096 /\ Proc.cwd c = Some 0%nat
    /\ Proc.name c
       = copy_name (Proc.name unused_proc) (Proc.name sh) Fork.sizeof_name
    /\ Proc.pagetable c = 2
    /\ Proc.priority c = 5 /\ Proc.errno c = 0
    /\ Proc.time_used c = 0 /\ Proc.time_quantum c = 1
    /\ Proc.state c = Proc.RUNNABLE /\ Proc.parent c = Some 0%nat
    /\ Proc.nextpid (pstate k') = to_int (4 + 1)
    /\ Proc.procs (pstate k') !! 0%nat
       = Some (if 5 >? 5 then Proc.set_state Proc.RUNNABLE sh else sh)
    /\ (forall j, j <> 1%nat -> j <> 0%nat ->
          Proc.procs (pstate k') !! j = Proc.procs (pstate k_fork) !! j)
    /\ itable (fstate k')
       = alter (fun i => set_ref (to_int (ref i + 1)) i) 0%nat
               (itable (fstate k_fork))
    /\ disk (fstate k') = disk (fstate k_fork).
Proof.
  apply (ForkFacts.kfork_child (P := xv6_params) bump_ref copy_name env_ok
           k_fork 0 1 sh unused_proc tf0 tf0 0 cwd_inode
           ForkFacts.bump_ref_file_table_only);
    try reflexivity; try discriminate.
Defined.

(** The shell forks when there is no page for the trap frame. *)
Lemma kfork_failure_witness :
  exists k',
    Fork.kfork bump_ref copy_name env_nomem k_fork = Done (-1) k'
    /\ fstate k' = fstate k_fork /\ ftable k' = ftable k_fork
    /\ (forall j q, Proc.state q <> Proc.UNUSED ->
          Proc.procs (pstate k_fork) !! j = Some q
          <-> Proc.procs (pstate k') !! j = Some q)
    /\ Proc.cur (pstate k') = Proc.cur (pstate k_fork)
    /\ Proc.select_next_proc (pstate k')
       = Proc.select_next_proc (pstate k_fork)
    /\ Proc.mlfq_sched (pstate k') = Proc.mlfq_sched (pstate k_fork)
    /\ (Proc.find_unused (firstn (Z.to_nat 64) (Proc.procs (pstate k_fork)))
                         0%nat = None -> k' = k_fork)
    /\ (forall np,
          Proc.find_unused (firstn (Z.to_nat 64) (Proc.procs (pstate k_fork)))
                           0%nat = Some np ->
          Proc.nextpid (pstate k')
          = to_int (Proc.nextpid (pstate k_fork) + 1)
          /\ Proc.state <$> Proc.procs (pstate k') !! np = Some Proc.UNUSED
          /\ Proc.pid <$> Proc.procs (pstate k') !! np = Some 0).
Proof.
  apply (ForkFacts.kfork_failure (P := xv6_params) bump_ref copy_name
           env_nomem k_fork 0 sh eq_refl eq_refl).
  - discriminate.
  - right. left. reflexivity.
Defined.


(** The shell sets its own priority to 7 and reads it back. *)
Lemma sys_setpriority_spec_witness :
  exists i v,
    0 <= v <= 9
    /\ argint 1 (at_call 22 0 7 0 k_fork) = Done v (at_call 22 0 7 0 k_fork)
    /\ final SysProc.sys_setpriority (at_call 22 0 7 0 k_fork)
       = set_pstate
           (Proc.upd_proc i (ProcExt.set_priority v)
              (pstate (at_call 22 0 7 0 k_fork)))
           (at_call 22 0 7 0 k_fork)
    /\ Proc.priority
         <$> Proc.procs
               (pstate (final SysProc.sys_setpriority
                          (at_call 22 0 7 0 k_fork))) !! i
       = Some v
    /\ SysProc.sys_getpriority
         (final SysProc.sys_setpriority (at_call 22 0 7 0 k_fork))
       = Done v (final SysProc.sys_setpriority (at_call 22 0 7 0 k_fork)).
Proof.
  apply (proj1 (proj2 (SysProcFacts.sys_setpriority_spec (P := xv6_params)
                         (at_call 22 0 7 0 k_fork)
                         (final SysProc.sys_setpriority
                                (at_call 22 0 7 0 k_fork))
                         0 ltac:(vm_compute; reflexivity)))).
  reflexivity.
Defined.

(** [getpid] by the shell, whose last error was 2. *)
Lemma syscall_result_and_errno_witness :
  exists c p t,
    Proc.cur (pstate (final (syscall (ret None) (fun _ => ret tt)
                                     (fun _ => ret 0))
                            (at_call SYS_getpid 0 0 2 k_fork))) = Some c
    /\ Proc.procs (pstate (final (syscall (ret None) (fun _ => ret tt)
                                          (fun _ => ret 0))
                                 (at_call SYS_getpid 0 0 2 k_fork))) !! c
       = Some p
    /\ Proc.tf p = Some t
    /\ ((Proc.errno p = Errno.EOK /\ 0 <= to_long (Proc.a0 t))
        \/ Proc.a0 t = to_uint64 (-1)).
Proof.
  apply (proj1 (SysProcFacts.syscall_result_and_errno (P := xv6_params)
                  (U := umem) (ret None) (fun _ => ret tt) (fun _ => ret 0)
                  (at_call SYS_getpid 0 0 2 k_fork)
                  (final (syscall (ret None) (fun _ => ret tt)
                                  (fun _ => ret 0))
                         (at_call SYS_getpid 0 0 2 k_fork))
                  ltac:(vm_compute; reflexivity))).
Defined.

(** The shell, whose last error is 2, calls [geterrno] twice. *)
Lemma geterrno_reads_once_witness :
  exists k',
    ecall (ret None) (fun _ => ret tt) (fun _ => ret 0) SYS_geterrno 0 0 0
          (at_call 0 0 0 2 k_fork)
    = Done 2 k'
    /\ Proc.errno <$> Proc.procs (pstate k') !! 0%nat = Some 0
    /\ (forall j, j <> 0%nat ->
          Proc.procs (pstate k') !! j
          = Proc.procs (pstate (at_call 0 0 0 2 k_fork)) !! j)
    /\ fstate k' = fstate (at_call 0 0 0 2 k_fork)
    /\ ftable k' = ftable (at_call 0 0 0 2 k_fork)
    /\ exists k'',
         ecall (ret None) (fun _ => ret tt) (fun _ => ret 0) SYS_geterrno
               0 0 0 k'
         = Done 0 k''.
Proof.
  apply (SysProcFacts.geterrno_reads_once (P := xv6_params) (U := umem)
           (ret None) (fun _ => ret tt) (fun _ => ret 0)
           (at_call 0 0 0 2 k_fork) 0
           (Proc.set_errno 2
              (Proc.set_tf
                 (Some {| Proc.epc := 0; Proc.sp := 0; Proc.a0 := 0;
                          Proc.a1 := 0; Proc.a2 := 0; Proc.a3 := 0;
                          Proc.a4 := 0; Proc.a5 := 0; Proc.a7 := 0 |}) sh))
           {| Proc.epc := 0; Proc.sp := 0; Proc.a0 := 0;
              Proc.a1 := 0; Proc.a2 := 0; Proc.a3 := 0;
              Proc.a4 := 0; Proc.a5 := 0; Proc.a7 := 0 |} 0 0 0).
  - reflexivity.
  - reflexivity.
  - reflexivity.
  - change (0 <= 2 < 2 ^ 31). lia.
Defined.

(** Descriptor 0 of the shell is the console, so the file goes to
    descriptor 1. *)
Lemma fdalloc_spec_witness :
  fdalloc 5 k_fork
  = Done 1
      (set_pstate
         (Proc.upd_proc 0
            (fun q => Proc.set_ofile (<[1%nat := Some 5]> (Proc.ofile q)) q)
            (pstate k_fork)) k_fork).
Proof.
  apply (proj2 (SysProcFacts.fdalloc_spec (P := xv6_params) 5 k_fork 0 sh
                  eq_refl eq_refl) 1%nat).
  - change (1 < 16)%nat. lia.
  - reflexivity.
  - intros j' Hj'. assert (j' = 0%nat) by lia. subst j'. discriminate.
Defined.

(** One more reference on the working directory, dropped again. *)
Lemma idup_iput_round_trip_witness :
  bind (idup 0) (fun _ => iput 0) img_cwd = Done tt img_cwd.
Proof.
  apply (InodeFacts.idup_iput_round_trip 0 cwd_inode img_cwd).
  - vm_compute. reflexivity.
  - replace (ref cwd_inode) with 1 by (vm_compute; reflexivity). lia.
Defined.

(** The root inode, valid and unlocked, is locked and unlocked. *)
Lemma ilock_iunlock_spec_witness :
  ilock 0 img_unlocked
  = Done tt (set_itable (alter (set_locked true) 0%nat (itable img_unlocked))
                        img_unlocked)
  /\ bind (ilock 0) (fun _ => iunlock 0) img_unlocked = Done tt img_unlocked.
Proof.
  apply (InodeFacts.ilock_iunlock_spec 0 unlocked_root img_unlocked).
  - vm_compute. reflexivity.
  - replace (ref unlocked_root) with 1 by (vm_compute; reflexivity). lia.
  - vm_compute. reflexivity.
  - replace (valid unlocked_root) with 1 by (vm_compute; reflexivity).
    discriminate.
Defined.

(** The members of the root inode are within the range of their C types. *)
Lemma unlocked_root_fields_ok : FsInv.dinode_fields_ok unlocked_root.
Proof.
  unfold FsInv.dinode_fields_ok.
  let l := eval vm_compute in (addrs unlocked_root) in
  change (addrs unlocked_root) with l.
  repeat match goal with
         | |- _ /\ _ => split
         | |- True => exact I
         | |- Forall _ (_ :: _) => apply Forall_cons
         | |- Forall _ [] => apply Forall_nil
         | |- length _ = _ => vm_compute; reflexivity
         | |- _ <= _ => vm_compute; discriminate
         | |- _ < _ => vm_compute; reflexivity
         end.
Defined.

(** The root inode is written to its block and read back into a slot
    without a valid copy. *)
Lemma iupdate_then_ilock_witness :
  exists s1,
    iupdate 0 img_unlocked = Done tt s1
    /\ itable s1 = itable img_unlocked /\ sb s1 = sb img_unlocked
    /\ (forall key,
          key <> (dev unlocked_root,
                  IBLOCK (inum unlocked_root) (sb img_unlocked)) ->
          disk s1 !! key = disk img_unlocked !! key)
    /\ ilock 0 (set_itable (<[0%nat := set_valid 0 unlocked_root]> (itable s1))
                           s1)
       = Done tt (set_itable
                    (<[0%nat := set_ref (ref (set_valid 0 unlocked_root))
                                  (set_locked true
                                     (set_valid 1 unlocked_root))]>
                       (itable s1)) s1).
Proof.
  apply (DinodeFacts.iupdate_then_ilock 0 unlocked_root
           (set_valid 0 unlocked_root) img_unlocked
           (default [] (disk img_unlocked !! (1, 32)))).
  - vm_compute. reflexivity.
  - exact unlocked_root_fields_ok.
  - replace (type unlocked_root) with 1 by (vm_compute; reflexivity).
    discriminate.
  - replace (inum unlocked_root) with 1 by (vm_compute; reflexivity). lia.
  - vm_compute. reflexivity.
  - vm_compute. reflexivity.
  - vm_compute. reflexivity.
  - vm_compute. reflexivity.
  - replace (ref (set_valid 0 unlocked_root)) with 1
      by (vm_compute; reflexivity). lia.
  - vm_compute. reflexivity.
  - vm_compute. reflexivity.
Defined.

End MoreRuns.
